(** * Order lifecycle, pricing, vouchers and gift cards of the restaurant POS backend

    A shallow embedding of the Express/Prisma handlers of
    [src/controllers/orderController.js], of the kitchen handlers
    [updateOrderItemStatus] and [updateKitchenOrderStatus], of the voucher
    controller ([createVoucher], [validateVoucher], [applyVoucher],
    [removeVoucher]), of the gift card controller ([createGiftCard],
    [redeemGiftCard], [addFunds], [updateGiftCardStatus]) and of the payment
    controller ([createPayment], [refundPayment], [getOrderPaymentSummary]),
    over an explicit database state, and of the table search
    [findTableCombinations] of the reservation controller.

    Modelling conventions.
    - A Prisma table whose rows are read or written by primary key is a
      [gmap] from ids to rows; a table that is read through a foreign key is
      a list of rows (the payment rows carry their id, and a refund rewrites
      the row with that id).  Ids ([uuid()] in the schema) are natural
      numbers drawn from a counter kept in the database state.
    - A handler is a function from the database to a result and a new
      database.  [return res.status(4xx)] is a [Failure]; writes made before
      a failure stay (the handlers open no transaction).
    - [Float] columns and JavaScript numbers are exact rationals ([Q]); [==]
      on amounts is [Qeq].  The one place where the source can leave the
      finite numbers, the division in [removeVoucher], is made explicit.
      The source computes in IEEE doubles: a sum, product or quotient of
      the model is the double of the source up to the rounding of its last
      bits, so a comparison of the source can fall on the other side where
      the model has two amounts equal or nearly so, and
      [Math.round(x * 100)] can go the other way where [x * 100] is within
      such a rounding of a half ([127.5] in the model, [127.49999999999999]
      as a double).  Statements about amounts are about the exact values.
    - A request body is typed as far as its route validates it.  A field
      that no validator covers and that a handler hands to a write after
      another write ([notes] in [createOrder], its items and [addFunds]) is
      a [BodyText]; [isInt] passes an integer of any size and the same
      digits in a string, which shows in the quantities of [ItemReq].  Ids
      in a body are ids or absent.  The role restrictions of the routes
      ([authorize]) are not modelled: a handler is what it does for any
      authenticated user.
    - [DateTime] values are milliseconds since the epoch ([Z]); the system
      clock [new Date()] is the [clock] field of the environment.
    - Names, the text of notes, [createdAt]/[updatedAt] and the display
      string [orderNumber] are not part of the state; socket notifications
      are not modelled. *)

From Stdlib Require Import ZArith QArith Qround Qabs Lqa Lia String List Bool.
From stdpp Require Import gmap.
Import ListNotations.

Set Default Proof Using "Type".

(** ** JavaScript numbers and dates *)

Module JS.

Local Open Scope Q_scope.

(** [a < b] and [a > b] on numbers. *)
Definition lt (a b : Q) : bool := negb (Qle_bool b a).
Definition gt (a b : Q) : bool := lt b a.
Definition ge (a b : Q) : bool := Qle_bool b a.

(** [Math.min(a, b)] and [Math.max(a, b)]. *)
Definition Math_min (a b : Q) : Q := if Qle_bool a b then a else b.
Definition Math_max (a b : Q) : Q := if Qle_bool a b then b else a.

(** [Math.round(x)]: the integer nearest to [x], ties towards +infinity. *)
Definition Math_round (x : Q) : Z := Qfloor (x + (1 # 2)).

(** [Math.round(x * 100) / 100], on the exact product and quotient.  It is
    within half a cent of [x], as the double is up to its last bits; which
    way it goes when [x * 100] is a half, or within a double rounding of
    one, is the exact tie rule here. *)
Definition round2 (x : Q) : Q := inject_Z (Math_round (x * 100)) / 100.

(** [x || 0] for an optional number: [null] and [0] both give [0]. *)
Definition or0 (x : option Q) : Q :=
  match x with
  | Some v => if Qeq_bool v 0 then 0 else v
  | None => 0
  end.

(** A quotient [a / b] is a finite number exactly when [b] is not zero
    ([a / 0] is [Infinity], [-Infinity] or [NaN]). *)
Definition div (a b : Q) : option Q :=
  if Qeq_bool b 0 then None else Some (a / b).

Local Open Scope Z_scope.

(** Days from 1970-01-01 to the civil date [y]-[m]-[d] (proleptic
    Gregorian calendar). *)
Definition days_from_civil (y m d : Z) : Z :=
  let y' := if m <=? 2 then y - 1 else y in
  let era := y' / 400 in
  let yoe := y' - era * 400 in
  let mp := (m + 9) mod 12 in
  let doy := (153 * mp + 2) / 5 + d - 1 in
  let doe := yoe * 365 + yoe / 4 - yoe / 100 + doy in
  era * 146097 + doe - 719468.

(** [Date.UTC(y, m - 1, d, h, mi, s)]: milliseconds since the epoch. *)
Definition Date_UTC (y m d h mi s : Z) : Z :=
  (((days_from_civil y m d * 24 + h) * 60 + mi) * 60 + s) * 1000.

End JS.

(** ** Enumerations of the schema *)

Inductive Role := ADMIN | MANAGER | SERVER | KITCHEN.

Inductive TableStatus := AVAILABLE | OCCUPIED | RESERVED | MAINTENANCE.

Module OrderStatus.
Inductive t := PENDING | PREPARING | READY | SERVED | COMPLETED | CANCELLED.

Definition of_string (s : string) : option t :=
  if String.eqb s "PENDING" then Some PENDING
  else if String.eqb s "PREPARING" then Some PREPARING
  else if String.eqb s "READY" then Some READY
  else if String.eqb s "SERVED" then Some SERVED
  else if String.eqb s "COMPLETED" then Some COMPLETED
  else if String.eqb s "CANCELLED" then Some CANCELLED
  else None.

Definition eqb (a b : t) : bool :=
  match a, b with
  | PENDING, PENDING | PREPARING, PREPARING | READY, READY
  | SERVED, SERVED | COMPLETED, COMPLETED | CANCELLED, CANCELLED => true
  | _, _ => false
  end.

(** [['PENDING', 'PREPARING', 'READY', 'SERVED'].includes(s)]: the
    statuses counted as active for table occupancy. *)
Definition active (s : t) : bool :=
  match s with
  | PENDING | PREPARING | READY | SERVED => true
  | _ => false
  end.

(** [['PENDING', 'PREPARING', 'READY'].includes(s)]. *)
Definition editable (s : t) : bool :=
  match s with
  | PENDING | PREPARING | READY => true
  | _ => false
  end.
End OrderStatus.

Module ItemStatus.
(** [enum OrderItemStatus]. *)
Inductive t := PENDING | PREPARING | READY | SERVED | CANCELLED.

Definition of_string (s : string) : option t :=
  if String.eqb s "PENDING" then Some PENDING
  else if String.eqb s "PREPARING" then Some PREPARING
  else if String.eqb s "READY" then Some READY
  else if String.eqb s "SERVED" then Some SERVED
  else if String.eqb s "CANCELLED" then Some CANCELLED
  else None.

Definition eqb (a b : t) : bool :=
  match a, b with
  | PENDING, PENDING | PREPARING, PREPARING | READY, READY
  | SERVED, SERVED | CANCELLED, CANCELLED => true
  | _, _ => false
  end.
End ItemStatus.

#[global] Instance OrderStatus_eq_dec : EqDecision OrderStatus.t.
Proof. solve_decision. Defined.

#[global] Instance ItemStatus_eq_dec : EqDecision ItemStatus.t.
Proof. solve_decision. Defined.

Inductive OrderType := DINE_IN | TAKEOUT | DELIVERY | ONLINE.

Inductive VoucherType := PERCENTAGE | FIXED_AMOUNT | FREE_ITEM.

Inductive TransactionType := ISSUE | REDEEM | REFUND | LOAD.

Inductive PaymentMethod :=
  CASH | CREDIT_CARD | DEBIT_CARD | MOBILE_PAYMENT | GIFT_CARD | OTHER.

Inductive PaymentStatus :=
  PAY_PENDING | PAY_COMPLETED | PAY_FAILED | PAY_REFUNDED.

(** ** Rows *)

Definition Id := nat.

Record User := {
  user_id : Id;
  user_role : Role;
  user_restaurantId : option Id
}.

Record Restaurant := { taxRate : Q }.

Record Table := {
  table_restaurantId : Id;
  table_status : TableStatus
}.

Record Modifier := {
  modifier_id : Id;
  modifier_price : Q;
  modifier_available : bool
}.

(** A menu item as [findUnique] returns it with
    [include: { modifierGroups: { include: { modifiers: true } } }]. *)
Record MenuItem := {
  menu_price : Q;
  menu_available : bool;
  menu_restaurantId : Id;
  modifierGroups : list (list Modifier)
}.

Record Order := {
  status : OrderStatus.t;
  type : OrderType;
  completedAt : option Z;
  subtotal : Q;
  tax : Q;
  tip : option Q;
  total : Q;
  tableId : option Id;
  userId : Id;
  customerId : option Id;
  restaurantId : Id
}.

Record OrderItem := {
  quantity : Z;
  price : Q;
  item_status : ItemStatus.t;
  orderId : Id;
  menuItemId : Id
}.

Record OrderItemModifier := {
  oim_price : Q;
  orderItemId : Id;
  modifierId : Id
}.

Record Payment := {
  payment_id : Id;
  payment_amount : Q;
  payment_method : PaymentMethod;
  payment_status : PaymentStatus;
  payment_orderId : Id;
  payment_userId : Id
}.

Record GiftCard := {
  gc_code : string;
  initialBalance : Q;
  currentBalance : Q;
  gc_isActive : bool;
  gc_expiryDate : option Z;
  gc_customerId : option Id;
  gc_restaurantId : Id
}.

Record GiftCardTransaction := {
  amount : Q;
  tx_type : TransactionType;
  giftCardId : Id;
  paymentId : option Id;
  tx_userId : Id
}.

Record Voucher := {
  code : string;
  voucher_type : VoucherType;
  value : Q;
  minPurchase : Q;
  isActive : bool;
  startDate : Z;
  expiryDate : Z;
  usageLimit : option Z;
  usageCount : Z;
  voucher_restaurantId : Id
}.

Record VoucherRedemption := {
  voucherId : Id;
  vr_orderId : Id;
  vr_userId : Id
}.

(** ** The database *)

Record Db := {
  restaurants : gmap Id Restaurant;
  tables : gmap Id Table;
  customers : gset Id;
  menuItems : gmap Id MenuItem;
  orders : gmap Id Order;
  orderItems : gmap Id OrderItem;
  orderItemModifiers : list OrderItemModifier;
  payments : list Payment;
  giftCards : gmap Id GiftCard;
  giftCardTransactions : list GiftCardTransaction;
  vouchers : gmap Id Voucher;
  voucherRedemptions : gmap Id VoucherRedemption;
  nextId : Id
}.

(** The ambient values a handler can read besides the database. *)
Record Env := {
  clock : Z;              (* [new Date()], the system clock *)
  random_code : string    (* what [generateVoucherCode()] or
                             [generateGiftCardCode()] draws *)
}.

(** *** Writes *)

Definition set_tables (f : gmap Id Table -> gmap Id Table) (db : Db) : Db :=
  {| restaurants := restaurants db; tables := f (tables db);
     customers := customers db; menuItems := menuItems db;
     orders := orders db; orderItems := orderItems db;
     orderItemModifiers := orderItemModifiers db; payments := payments db;
     giftCards := giftCards db;
     giftCardTransactions := giftCardTransactions db;
     vouchers := vouchers db; voucherRedemptions := voucherRedemptions db;
     nextId := nextId db |}.

Definition set_orders (f : gmap Id Order -> gmap Id Order) (db : Db) : Db :=
  {| restaurants := restaurants db; tables := tables db;
     customers := customers db; menuItems := menuItems db;
     orders := f (orders db); orderItems := orderItems db;
     orderItemModifiers := orderItemModifiers db; payments := payments db;
     giftCards := giftCards db;
     giftCardTransactions := giftCardTransactions db;
     vouchers := vouchers db; voucherRedemptions := voucherRedemptions db;
     nextId := nextId db |}.

Definition set_orderItems
    (f : gmap Id OrderItem -> gmap Id OrderItem) (db : Db) : Db :=
  {| restaurants := restaurants db; tables := tables db;
     customers := customers db; menuItems := menuItems db;
     orders := orders db; orderItems := f (orderItems db);
     orderItemModifiers := orderItemModifiers db; payments := payments db;
     giftCards := giftCards db;
     giftCardTransactions := giftCardTransactions db;
     vouchers := vouchers db; voucherRedemptions := voucherRedemptions db;
     nextId := nextId db |}.

Definition set_orderItemModifiers
    (f : list OrderItemModifier -> list OrderItemModifier) (db : Db) : Db :=
  {| restaurants := restaurants db; tables := tables db;
     customers := customers db; menuItems := menuItems db;
     orders := orders db; orderItems := orderItems db;
     orderItemModifiers := f (orderItemModifiers db); payments := payments db;
     giftCards := giftCards db;
     giftCardTransactions := giftCardTransactions db;
     vouchers := vouchers db; voucherRedemptions := voucherRedemptions db;
     nextId := nextId db |}.

Definition set_payments (f : list Payment -> list Payment) (db : Db) : Db :=
  {| restaurants := restaurants db; tables := tables db;
     customers := customers db; menuItems := menuItems db;
     orders := orders db; orderItems := orderItems db;
     orderItemModifiers := orderItemModifiers db; payments := f (payments db);
     giftCards := giftCards db;
     giftCardTransactions := giftCardTransactions db;
     vouchers := vouchers db; voucherRedemptions := voucherRedemptions db;
     nextId := nextId db |}.

Definition set_giftCards
    (f : gmap Id GiftCard -> gmap Id GiftCard) (db : Db) : Db :=
  {| restaurants := restaurants db; tables := tables db;
     customers := customers db; menuItems := menuItems db;
     orders := orders db; orderItems := orderItems db;
     orderItemModifiers := orderItemModifiers db; payments := payments db;
     giftCards := f (giftCards db);
     giftCardTransactions := giftCardTransactions db;
     vouchers := vouchers db; voucherRedemptions := voucherRedemptions db;
     nextId := nextId db |}.

Definition set_giftCardTransactions
    (f : list GiftCardTransaction -> list GiftCardTransaction) (db : Db) : Db :=
  {| restaurants := restaurants db; tables := tables db;
     customers := customers db; menuItems := menuItems db;
     orders := orders db; orderItems := orderItems db;
     orderItemModifiers := orderItemModifiers db; payments := payments db;
     giftCards := giftCards db;
     giftCardTransactions := f (giftCardTransactions db);
     vouchers := vouchers db; voucherRedemptions := voucherRedemptions db;
     nextId := nextId db |}.

Definition set_vouchers
    (f : gmap Id Voucher -> gmap Id Voucher) (db : Db) : Db :=
  {| restaurants := restaurants db; tables := tables db;
     customers := customers db; menuItems := menuItems db;
     orders := orders db; orderItems := orderItems db;
     orderItemModifiers := orderItemModifiers db; payments := payments db;
     giftCards := giftCards db;
     giftCardTransactions := giftCardTransactions db;
     vouchers := f (vouchers db); voucherRedemptions := voucherRedemptions db;
     nextId := nextId db |}.

Definition set_voucherRedemptions
    (f : gmap Id VoucherRedemption -> gmap Id VoucherRedemption)
    (db : Db) : Db :=
  {| restaurants := restaurants db; tables := tables db;
     customers := customers db; menuItems := menuItems db;
     orders := orders db; orderItems := orderItems db;
     orderItemModifiers := orderItemModifiers db; payments := payments db;
     giftCards := giftCards db;
     giftCardTransactions := giftCardTransactions db;
     vouchers := vouchers db;
     voucherRedemptions := f (voucherRedemptions db);
     nextId := nextId db |}.

Definition set_nextId (n : Id) (db : Db) : Db :=
  {| restaurants := restaurants db; tables := tables db;
     customers := customers db; menuItems := menuItems db;
     orders := orders db; orderItems := orderItems db;
     orderItemModifiers := orderItemModifiers db; payments := payments db;
     giftCards := giftCards db;
     giftCardTransactions := giftCardTransactions db;
     vouchers := vouchers db; voucherRedemptions := voucherRedemptions db;
     nextId := n |}.

(** Row updates ([data: { ... }] of [prisma.x.update]). *)

Definition order_with_status
    (s : OrderStatus.t) (done : option Z) (o : Order) : Order :=
  {| status := s; type := type o;
     completedAt := match done with Some t => Some t | None => completedAt o end;
     subtotal := subtotal o; tax := tax o; tip := tip o; total := total o;
     tableId := tableId o; userId := userId o; customerId := customerId o;
     restaurantId := restaurantId o |}.

Definition order_with_totals (newSubtotal newTax newTotal : Q) (o : Order)
    : Order :=
  {| status := status o; type := type o; completedAt := completedAt o;
     subtotal := newSubtotal; tax := newTax; tip := tip o; total := newTotal;
     tableId := tableId o; userId := userId o; customerId := customerId o;
     restaurantId := restaurantId o |}.

Definition item_with_status (s : ItemStatus.t) (it : OrderItem) : OrderItem :=
  {| quantity := quantity it; price := price it; item_status := s;
     orderId := orderId it; menuItemId := menuItemId it |}.

Definition item_with_quantity (q : Z) (it : OrderItem) : OrderItem :=
  {| quantity := q; price := price it; item_status := item_status it;
     orderId := orderId it; menuItemId := menuItemId it |}.

Definition table_with_status (s : TableStatus) (t : Table) : Table :=
  {| table_restaurantId := table_restaurantId t; table_status := s |}.

(** ** Results of a handler *)

(** What a handler's [try] block can throw; its [catch] passes the
    exception to [next(error)], answered by the error handler middleware. *)
Inductive Exception :=
| P2002                 (* unique constraint violation, answered with 400 *)
| P2025                 (* record to update or delete not found, 500 *)
| P2020                 (* a number out of the range of its column, 500 *)
| InvalidArgument       (* a value the column type refuses, 500 *)
| TypeError.            (* a property read on [null], 500 *)

Inductive Failure :=
| ValidationErrors                       (* 400, [errors.array()] *)
| RestaurantNotFound                     (* 404 *)
| TableNotFound                          (* 404 *)
| TableWrongRestaurant                   (* 400 *)
| CustomerNotFound                       (* 404 *)
| OrderNeedsItem                         (* 400 'Order must have at least one item' *)
| MustProvideItem                        (* 400 'Must provide at least one order item' *)
| MenuItemNotFound (menuItemId : Id)     (* 404 *)
| MenuItemWrongRestaurant (menuItemId : Id)  (* 400 *)
| MenuItemUnavailable (menuItemId : Id)  (* 400 *)
| ModifierInvalid (modifierId : Id)      (* 400 *)
| ModifierUnavailable (modifierId : Id)  (* 400 *)
| InvalidStatus                          (* 400 'Invalid status' *)
| InvalidKitchenStatus                   (* 400 'Invalid status. Kitchen can only set orders to PREPARING or READY' *)
| OrderNotFound                          (* 404 *)
| OrderItemNotFound                      (* 404 *)
| NotAuthorized                          (* 403 *)
| CannotAddItems (s : OrderStatus.t)     (* 400 'Cannot add items to an order with status ...' *)
| CannotUpdateItems (s : OrderStatus.t)  (* 400 'Cannot update items for an order with status ...' *)
| CannotRemoveItems (s : OrderStatus.t)  (* 400 'Cannot remove items from an order with status ...' *)
| CannotRemoveLastItem                   (* 400 'Cannot remove the last item from an order. ...' *)
| CannotCancel (s : OrderStatus.t)       (* 400 'Cannot cancel an order with status ...' *)
| CannotChangeKitchenStatus (s : OrderStatus.t) (* 400 'Cannot change kitchen status for an order with status ...' *)
| VoucherCodeExists                      (* 400 'Voucher code already exists' *)
| VoucherAlreadyApplied                  (* 400 *)
| VoucherNotFound                        (* 404 *)
| VoucherInactive                        (* 400 'Voucher is inactive' *)
| VoucherNotStarted                      (* 400 'Voucher is not valid until ...' *)
| VoucherExpired                         (* 400 'Voucher expired on ...' *)
| VoucherUsageLimit                      (* 400 'Voucher has reached its usage limit' *)
| VoucherMinPurchase                     (* 400 'Voucher requires a minimum purchase of ...' *)
| NoVoucherApplied                       (* 400 'No voucher applied to this order' *)
| GiftCardCodeExists                     (* 400 *)
| GiftCardNotFound                       (* 404 *)
| GiftCardInactive                       (* 400 *)
| GiftCardExpired                        (* 400 *)
| InsufficientBalance                    (* 400 *)
| IsActiveRequired                       (* 400 *)
| Thrown (e : Exception)
| DivisionByZero.
(** [DivisionByZero] is not a response of the source.  It marks the run of
    [removeVoucher] in which [order.subtotal / discountFactor] divides by
    zero: JavaScript continues with [Infinity] or [NaN] in subtotal, tax and
    total, and what the store does with such a value is outside the
    source.  The model stops the handler there and leaves the database as
    it is. *)

Definition http_status (f : Failure) : Z :=
  match f with
  | RestaurantNotFound | TableNotFound | CustomerNotFound
  | MenuItemNotFound _ | OrderNotFound | OrderItemNotFound
  | VoucherNotFound | GiftCardNotFound => 404
  | NotAuthorized => 403
  | Thrown P2002 => 400
  | Thrown _ | DivisionByZero => 500
  | _ => 400
  end.

Definition Handler (A : Type) : Type := Db -> (Failure + A) * Db.

Definition ret {A} (a : A) : Handler A := fun db => (inr a, db).

(** [return res.status(...).json(...)] on a failed check. *)
Definition fail {A} (f : Failure) : Handler A := fun db => (inl f, db).

Definition bind {A B} (m : Handler A) (k : A -> Handler B) : Handler B :=
  fun db =>
    match m db with
    | (inl f, db') => (inl f, db')
    | (inr a, db') => k a db'
    end.

Definition get : Handler Db := fun db => (inr db, db).

Definition modify (f : Db -> Db) : Handler unit := fun db => (inr tt, f db).

(** [if (b) return res.status(...)]. *)
Definition reject_if (b : bool) (f : Failure) : Handler unit :=
  if b then fail f else ret tt.

(** The id [@default(uuid())] gives to a created row. *)
Definition alloc : Handler Id :=
  fun db => (inr (nextId db), set_nextId (S (nextId db)) db).

Declare Scope handler_scope.
Delimit Scope handler_scope with handler.
Notation "'let*' x ':=' m 'in' k" := (bind m (fun x => k))
  (at level 10, x name, m at level 100, k at level 200) : handler_scope.
Notation "m ';;' k" := (bind m (fun _ => k))
  (at level 100, k at level 200, right associativity) : handler_scope.

(** [req.user.role !== 'ADMIN' && row.restaurantId !== req.user.restaurantId]. *)
Definition foreign (u : User) (rid : Id) : bool :=
  match user_role u with
  | ADMIN => false
  | _ => match user_restaurantId u with
         | Some r => negb (r =? rid)
         | None => true
         end
  end.

(** ** Order controller *)

(** A free-text field of a request body ([notes]).  No route validates
    it, so it arrives as it was sent: absent ([undefined] or [null]), a
    string, or a JSON value of another type, of which [truthy] says how
    JavaScript reads it as a condition.  A [String?] column takes the
    first two and refuses the third. *)
Inductive BodyText :=
| Absent
| Text (s : string)
| NotText (truthy : bool).

Definition storable_text (t : BodyText) : bool :=
  match t with
  | NotText _ => false
  | _ => true
  end.

(** [t || 'a default text']: what is written is a string unless [t] is a
    truthy value of another type. *)
Definition storable_text_or_default (t : BodyText) : bool :=
  match t with
  | NotText true => false
  | _ => true
  end.

(** An element of [orderItems].  [isInt({ min: 1 })] passes an integer and
    the same digits in a string alike, and no sanitizer converts the
    latter: [req_quantity] is the integer read, [req_quantity_quoted]
    tells whether it arrived as a string. *)
Record ItemReq := {
  req_menuItemId : Id;
  req_quantity : Z;
  req_quantity_quoted : bool;
  req_notes : BodyText;
  req_modifierIds : list Id
}.

(** An entry of [validatedItems]. *)
Record ValidatedItem := {
  v_menuItemId : Id;
  v_quantity : Z;
  v_quantity_quoted : bool;
  v_price : Q;
  v_notes : BodyText;
  v_modifiers : list (Id * Q)      (* [{ modifierId, price }] *)
}.

(** The largest value of an [Int] column. *)
Definition Int_max : Z := 2147483647.

(** Why [prisma.orderItem.create] refuses an item row, if it does: the
    quantity is not a JSON number or the notes are not a string (the
    client's argument validation), or the quantity does not fit the [Int]
    column. *)
Definition row_refusal (quantity' : Z) (quoted : bool) (notes : BodyText)
    : option Exception :=
  if quoted || negb (storable_text notes) then Some InvalidArgument
  else if (Int_max <? quantity')%Z then Some P2020
  else None.

Definition item_refusal (item : ValidatedItem) : option Exception :=
  row_refusal (v_quantity item) (v_quantity_quoted item) (v_notes item).

(** The loop over [menuItem.modifierGroups] with
    [group.modifiers.find(m => m.id === modifierId)]. *)
Fixpoint find_modifier (groups : list (list Modifier)) (mid : Id)
    : option Modifier :=
  match groups with
  | [] => None
  | group :: rest =>
      match List.find (fun m => modifier_id m =? mid) group with
      | Some m => Some m
      | None => find_modifier rest mid
      end
  end.

(** [for (const modifierId of modifierIds)]: checks each selected modifier,
    adds its price to [modifiersPrice] and pushes it on
    [validatedModifiers]. *)
Fixpoint price_modifiers (mi : MenuItem) (modifierIds : list Id)
    (modifiersPrice : Q) (validatedModifiers : list (Id * Q))
    : Failure + (Q * list (Id * Q)) :=
  match modifierIds with
  | [] => inr (modifiersPrice, validatedModifiers)
  | mid :: rest =>
      match find_modifier (modifierGroups mi) mid with
      | None => inl (ModifierInvalid mid)
      | Some m =>
          if negb (modifier_available m) then inl (ModifierUnavailable mid)
          else price_modifiers mi rest
                 (modifiersPrice + modifier_price m)%Q
                 (validatedModifiers ++ [(mid, modifier_price m)])
      end
  end.

(** [for (const item of orderItems)] of [createOrder] and [addOrderItems]
    (the two loops are the same text): checks each item against the catalogue
    of restaurant [rid] and accumulates the subtotal. *)
Fixpoint price_items (db : Db) (rid : Id) (items : list ItemReq)
    (subtotal : Q) (validatedItems : list ValidatedItem)
    : Failure + (Q * list ValidatedItem) :=
  match items with
  | [] => inr (subtotal, validatedItems)
  | item :: rest =>
      match menuItems db !! req_menuItemId item with
      | None => inl (MenuItemNotFound (req_menuItemId item))
      | Some menuItem =>
          if negb (menu_restaurantId menuItem =? rid)
          then inl (MenuItemWrongRestaurant (req_menuItemId item))
          else if negb (menu_available menuItem)
          then inl (MenuItemUnavailable (req_menuItemId item))
          else
            match price_modifiers menuItem (req_modifierIds item) 0%Q [] with
            | inl f => inl f
            | inr (modifiersPrice, validatedModifiers) =>
                let itemTotal :=
                  ((menu_price menuItem + modifiersPrice)
                   * inject_Z (req_quantity item))%Q in
                price_items db rid rest (subtotal + itemTotal)%Q
                  (validatedItems ++
                   [{| v_menuItemId := req_menuItemId item;
                       v_quantity := req_quantity item;
                       v_quantity_quoted := req_quantity_quoted item;
                       v_price := menu_price menuItem;
                       v_notes := req_notes item;
                       v_modifiers := validatedModifiers |}])
            end
      end
  end.

Local Open Scope handler_scope.

(** [prisma.orderItemModifier.create] for each validated modifier; the
    table has [@@unique([orderItemId, modifierId])]. *)
Fixpoint create_modifiers (itemId : Id) (mods : list (Id * Q))
    : Handler unit :=
  match mods with
  | [] => ret tt
  | (mid, p) :: rest =>
      let* db := get in
      reject_if
        (existsb (fun r => (orderItemId r =? itemId) && (modifierId r =? mid))
                 (orderItemModifiers db))
        (Thrown P2002);;
      modify (set_orderItemModifiers
                (fun rows => rows ++ [{| oim_price := p;
                                         orderItemId := itemId;
                                         modifierId := mid |}]));;
      create_modifiers itemId rest
  end.

(** [for (const item of validatedItems)]: [prisma.orderItem.create], then
    the item's modifiers.  A row that the store refuses is not written and
    ends the handler; the rows written before it stay. *)
Fixpoint create_items (oid : Id) (items : list ValidatedItem)
    : Handler unit :=
  match items with
  | [] => ret tt
  | item :: rest =>
      match item_refusal item with
      | Some e => fail (Thrown e)
      | None => ret tt
      end;;
      let* itemId := alloc in
      modify (set_orderItems
                (insert itemId {| quantity := v_quantity item;
                                  price := v_price item;
                                  item_status := ItemStatus.PENDING;
                                  orderId := oid;
                                  menuItemId := v_menuItemId item |}));;
      create_modifiers itemId (v_modifiers item);;
      create_items oid rest
  end.

(** [restaurant.taxRate || 0]: a number that is [0] stays [0]. *)
Definition taxRate_or0 (r : Restaurant) : Q := JS.or0 (Some (taxRate r)).

(** The body of [POST /api/orders].  [tableId] and [customerId] are an id
    or absent. *)
Record CreateOrderReq := {
  co_restaurantId : option Id;
  co_tableId : option Id;
  co_customerId : option Id;
  co_type : option OrderType;
  co_notes : BodyText;
  co_orderItems : list ItemReq
}.

(** [orderValidation] and [orderItemValidation] of the order routes:
    [orderItems] is an array of at least one element and every quantity is
    an integer [>= 1]. *)
Definition orderItems_valid (items : list ItemReq) : bool :=
  negb (length items =? 0) && forallb (fun i => 1 <=? req_quantity i)%Z items.

(** [exports.createOrder]; returns the id of the created order. *)
Definition createOrder (u : User) (req : CreateOrderReq) : Handler Id :=
  reject_if (negb (orderItems_valid (co_orderItems req))) ValidationErrors;;
  let restaurantId' :=
    match user_role u with
    | ADMIN => co_restaurantId req
    | _ => user_restaurantId u
    end in
  let* db := get in
  match restaurantId' with
  | None => fail (Thrown InvalidArgument)
  | Some restaurantId =>
  match restaurants db !! restaurantId with
  | None => fail RestaurantNotFound
  | Some restaurant =>
      match co_tableId req with
      | None => ret tt
      | Some tableId =>
          match tables db !! tableId with
          | None => fail TableNotFound
          | Some table =>
              reject_if (negb (table_restaurantId table =? restaurantId))
                        TableWrongRestaurant;;
              match table_status table with
              | AVAILABLE =>
                  modify (set_tables (insert tableId
                                        (table_with_status OCCUPIED table)))
              | _ => ret tt
              end
          end
      end;;
      match co_customerId req with
      | None => ret tt
      | Some customerId =>
          reject_if (bool_decide (customerId ∉ customers db)) CustomerNotFound
      end;;
      reject_if (length (co_orderItems req) =? 0) OrderNeedsItem;;
      let* db := get in
      match price_items db restaurantId (co_orderItems req) 0%Q [] with
      | inl f => fail f
      | inr (subtotal, validatedItems) =>
          let taxRate := taxRate_or0 restaurant in
          let tax := (subtotal * (taxRate / 100))%Q in
          let total := (subtotal + tax)%Q in
          (* [prisma.order.create] takes [notes] as the body has it *)
          reject_if (negb (storable_text (co_notes req)))
                    (Thrown InvalidArgument);;
          let* oid := alloc in
          modify (set_orders
                    (insert oid {| status := OrderStatus.PENDING;
                                   type := default DINE_IN (co_type req);
                                   completedAt := None;
                                   subtotal := subtotal;
                                   tax := tax;
                                   tip := None;
                                   total := total;
                                   tableId := co_tableId req;
                                   userId := user_id u;
                                   customerId := co_customerId req;
                                   restaurantId := restaurantId |}));;
          create_items oid validatedItems;;
          ret oid
      end
  end
  end.

(** *** Reads through foreign keys *)

(** The rows [include: { orderItems: true }] or
    [orderItem.findMany({ where: { orderId } })] return. *)
Definition order_items (db : Db) (oid : Id) : list (Id * OrderItem) :=
  map_to_list (filter (fun kv : Id * OrderItem => orderId kv.2 = oid)
                      (orderItems db)).

(** [include: { modifiers: true }] on an order item. *)
Definition item_modifiers (db : Db) (itemId : Id) : list OrderItemModifier :=
  List.filter (fun r => orderItemId r =? itemId) (orderItemModifiers db).

(** [let itemPrice = item.price;
     for (const mod of item.modifiers) itemPrice += mod.price;]. *)
Definition itemPrice (db : Db) (itemId : Id) (item : OrderItem) : Q :=
  fold_left (fun acc r => (acc + oim_price r)%Q)
            (item_modifiers db itemId) (price item).

(** [prisma.order.count] of the active orders on table [tid] other than
    [oid]. *)
Definition activeOrders (db : Db) (tid oid : Id) : nat :=
  size (filter (fun kv : Id * Order =>
                  tableId kv.2 = Some tid
                  /\ OrderStatus.active (status kv.2)
                  /\ kv.1 <> oid)
               (orders db)).

(** *** Writes by primary key *)

Definition update_order (id : Id) (f : Order -> Order) : Handler unit :=
  let* db := get in
  match orders db !! id with
  | None => fail (Thrown P2025)
  | Some o => modify (set_orders (insert id (f o)))
  end.

Definition update_orderItem (id : Id) (f : OrderItem -> OrderItem)
    : Handler unit :=
  let* db := get in
  match orderItems db !! id with
  | None => fail (Thrown P2025)
  | Some it => modify (set_orderItems (insert id (f it)))
  end.

Definition update_table (id : Id) (f : Table -> Table) : Handler unit :=
  let* db := get in
  match tables db !! id with
  | None => fail (Thrown P2025)
  | Some t => modify (set_tables (insert id (f t)))
  end.

(** [if (order.tableId) { count the other active orders; if none,
    set the table AVAILABLE }]. *)
Definition release_table (order : Order) (oid : Id) : Handler unit :=
  match tableId order with
  | None => ret tt
  | Some tid =>
      let* db := get in
      if activeOrders db tid oid =? 0
      then update_table tid (table_with_status AVAILABLE)
      else ret tt
  end.

(** [prisma.restaurant.findUnique(...).then(r => r.taxRate || 0)]. *)
Definition restaurant_taxRate (rid : Id) : Handler Q :=
  let* db := get in
  match restaurants db !! rid with
  | None => fail (Thrown TypeError)
  | Some r => ret (taxRate_or0 r)
  end.

(** [exports.updateOrderStatus]. *)
Definition updateOrderStatus (env : Env) (u : User) (id : Id)
    (status' : string) : Handler unit :=
  match OrderStatus.of_string status' with
  | None => fail InvalidStatus
  | Some newStatus =>
      let* db := get in
      match orders db !! id with
      | None => fail OrderNotFound
      | Some order =>
          reject_if (foreign u (restaurantId order)) NotAuthorized;;
          match newStatus with
          | OrderStatus.COMPLETED | OrderStatus.CANCELLED =>
              release_table order id;;
              update_order id (order_with_status newStatus (Some (clock env)))
          | _ => update_order id (order_with_status newStatus None)
          end
      end
  end.

(** [exports.addOrderItems]. *)
Definition addOrderItems (u : User) (id : Id) (items : list ItemReq)
    : Handler unit :=
  reject_if (negb (orderItems_valid items)) ValidationErrors;;
  let* db := get in
  match orders db !! id with
  | None => fail OrderNotFound
  | Some order =>
      reject_if (foreign u (restaurantId order)) NotAuthorized;;
      reject_if (negb (OrderStatus.editable (status order)))
                (CannotAddItems (status order));;
      reject_if (length items =? 0) MustProvideItem;;
      match price_items db (restaurantId order) items 0%Q [] with
      | inl f => fail f
      | inr (additionalSubtotal, validatedItems) =>
          let* taxRate := restaurant_taxRate (restaurantId order) in
          let newSubtotal := (subtotal order + additionalSubtotal)%Q in
          let newTax := (newSubtotal * (taxRate / 100))%Q in
          let newTotal := (newSubtotal + newTax)%Q in
          create_items id validatedItems;;
          update_order id (order_with_totals newSubtotal newTax newTotal)
      end
  end.

(** The fields [updateOrderItem] copies into [updateData]. *)
Definition item_updateData (quantity' : option Z)
    (status' : option ItemStatus.t) (it : OrderItem) : OrderItem :=
  let it1 :=
    match quantity' with
    | Some q => if (0 <? q)%Z then item_with_quantity q it else it
    | None => it
    end in
  match status' with
  | Some s => item_with_status s it1
  | None => it1
  end.

(** The recalculation loop of [updateOrderItem]:
    [newSubtotal += itemPrice * item.quantity] over all items of the
    order. *)
Definition items_subtotal (db : Db) (oid : Id) : Q :=
  fold_left
    (fun newSubtotal kv =>
       (newSubtotal + itemPrice db kv.1 kv.2 * inject_Z (quantity kv.2))%Q)
    (order_items db oid) 0%Q.

(** [exports.updateOrderItem] (order routes).  The handler does not look at
    [validationResult]; a [status] that is not a member of the enum, and a
    quantity that does not fit the [Int] column, are refused by
    [prisma.orderItem.update], before anything is written.  The body's
    [quantity] is a JSON integer or absent, its [notes] a string or
    absent. *)
Definition updateOrderItem (u : User) (orderId' itemId : Id)
    (quantity' : option Z) (status' : option string) : Handler unit :=
  let* db := get in
  match orders db !! orderId' with
  | None => fail OrderNotFound
  | Some order =>
      reject_if (foreign u (restaurantId order)) NotAuthorized;;
      reject_if (negb (OrderStatus.editable (status order)))
                (CannotUpdateItems (status order));;
      match orderItems db !! itemId with
      | None => fail OrderItemNotFound
      | Some orderItem =>
          reject_if (negb (orderId orderItem =? orderId')) OrderItemNotFound;;
          let* newStatus :=
            match status' with
            | None => ret None
            | Some s =>
                match ItemStatus.of_string s with
                | None => fail (Thrown InvalidArgument)
                | Some st => ret (Some st)
                end
            end in
          reject_if (match quantity' with
                     | Some q => (Int_max <? q)%Z
                     | None => false
                     end) (Thrown P2020);;
          update_orderItem itemId (item_updateData quantity' newStatus);;
          match quantity' with
          | Some q =>
              if negb (q =? quantity orderItem)%Z then
                let* db' := get in
                let newSubtotal := items_subtotal db' orderId' in
                let* taxRate := restaurant_taxRate (restaurantId order) in
                let newTax := (newSubtotal * (taxRate / 100))%Q in
                let newTotal := (newSubtotal + newTax)%Q in
                update_order orderId'
                  (order_with_totals newSubtotal newTax newTotal)
              else ret tt
          | None => ret tt
          end
      end
  end.

(** [exports.removeOrderItem]. *)
Definition removeOrderItem (u : User) (orderId' itemId : Id)
    : Handler unit :=
  let* db := get in
  match orders db !! orderId' with
  | None => fail OrderNotFound
  | Some order =>
      reject_if (foreign u (restaurantId order)) NotAuthorized;;
      reject_if (negb (OrderStatus.eqb (status order) OrderStatus.PENDING))
                (CannotRemoveItems (status order));;
      reject_if (length (order_items db orderId') <=? 1) CannotRemoveLastItem;;
      match orderItems db !! itemId with
      | None => fail OrderItemNotFound
      | Some orderItem =>
          reject_if (negb (orderId orderItem =? orderId')) OrderItemNotFound;;
          let itemTotal :=
            (itemPrice db itemId orderItem
             * inject_Z (quantity orderItem))%Q in
          modify (set_orderItemModifiers
                    (List.filter (fun r => negb (orderItemId r =? itemId))));;
          modify (set_orderItems (delete itemId));;
          let newSubtotal := (subtotal order - itemTotal)%Q in
          let* taxRate := restaurant_taxRate (restaurantId order) in
          let newTax := (newSubtotal * (taxRate / 100))%Q in
          let newTotal := (newSubtotal + newTax)%Q in
          update_order orderId'
            (order_with_totals newSubtotal newTax newTotal)
      end
  end.

(** [exports.cancelOrder]. *)
Definition cancelOrder (env : Env) (u : User) (id : Id) : Handler unit :=
  let* db := get in
  match orders db !! id with
  | None => fail OrderNotFound
  | Some order =>
      reject_if (foreign u (restaurantId order)) NotAuthorized;;
      reject_if (negb (OrderStatus.editable (status order)))
                (CannotCancel (status order));;
      update_order id
        (order_with_status OrderStatus.CANCELLED (Some (clock env)));;
      release_table order id
  end.

(** ** Kitchen handlers *)

(** [allOrderItems.every(item => item.status === 'READY' ||
    item.status === 'SERVED')]. *)
Definition allReady (items : list (Id * OrderItem)) : bool :=
  forallb (fun kv => ItemStatus.eqb (item_status kv.2) ItemStatus.READY
                     || ItemStatus.eqb (item_status kv.2) ItemStatus.SERVED)
          items.

(** [allOrderItems.every(item => item.status === 'SERVED')]. *)
Definition allServed (items : list (Id * OrderItem)) : bool :=
  forallb (fun kv => ItemStatus.eqb (item_status kv.2) ItemStatus.SERVED)
          items.

(** The status the handler writes to the order after an item changed, if
    any.  The source condition of the second branch is
    [allReady && status === 'PENDING' || status === 'PREPARING'], which
    JavaScript reads as [(allReady && 'PENDING') || 'PREPARING']. *)
Definition derived_order_status (items : list (Id * OrderItem))
    (orderStatus : OrderStatus.t) : option OrderStatus.t :=
  if allServed items
     && negb (OrderStatus.eqb orderStatus OrderStatus.SERVED)
  then Some OrderStatus.SERVED
  else if (allReady items
           && OrderStatus.eqb orderStatus OrderStatus.PENDING)
          || OrderStatus.eqb orderStatus OrderStatus.PREPARING
  then Some OrderStatus.READY
  else None.

(** [exports.updateOrderItemStatus] (kitchen routes). *)
Definition updateOrderItemStatus (u : User) (id : Id) (status' : string)
    : Handler unit :=
  match ItemStatus.of_string status' with
  | None => fail InvalidStatus
  | Some newStatus =>
      let* db := get in
      match orderItems db !! id with
      | None => fail OrderItemNotFound
      | Some orderItem =>
          match orders db !! orderId orderItem with
          | None => fail (Thrown TypeError)
          | Some order =>
              reject_if (foreign u (restaurantId order)) NotAuthorized;;
              update_orderItem id (item_with_status newStatus);;
              let* db' := get in
              let allOrderItems := order_items db' (orderId orderItem) in
              match derived_order_status allOrderItems (status order) with
              | Some s =>
                  update_order (orderId orderItem) (order_with_status s None)
              | None => ret tt
              end
          end
      end
  end.

(** [prisma.orderItem.updateMany({ where: { orderId, status: from },
    data: { status: to } })]. *)
Definition updateMany_item_status (oid : Id) (from to : ItemStatus.t)
    (db : Db) : Db :=
  set_orderItems
    (fmap (fun it =>
             if (orderId it =? oid) && ItemStatus.eqb (item_status it) from
             then item_with_status to it else it))
    db.

(** [exports.updateKitchenOrderStatus]. *)
Definition updateKitchenOrderStatus (u : User) (id : Id) (status' : string)
    : Handler unit :=
  let* newStatus :=
    (if String.eqb status' "PREPARING" then ret OrderStatus.PREPARING
     else if String.eqb status' "READY" then ret OrderStatus.READY
     else fail InvalidKitchenStatus) in
  let* db := get in
  match orders db !! id with
  | None => fail OrderNotFound
  | Some order =>
      reject_if (foreign u (restaurantId order)) NotAuthorized;;
      reject_if
        (negb (OrderStatus.eqb (status order) OrderStatus.PENDING
               || OrderStatus.eqb (status order) OrderStatus.PREPARING))
        (CannotChangeKitchenStatus (status order));;
      update_order id (order_with_status newStatus None);;
      (if OrderStatus.eqb newStatus OrderStatus.PREPARING
       then modify (updateMany_item_status id ItemStatus.PENDING
                                           ItemStatus.PREPARING)
       else ret tt);;
      (if OrderStatus.eqb newStatus OrderStatus.READY
       then modify (updateMany_item_status id ItemStatus.PREPARING
                                           ItemStatus.READY)
       else ret tt)
  end.

(** ** Voucher controller *)

(** [voucherValidation] of the voucher routes: the type is one of the enum
    (by typing), [value] is a float [>= 0], and [expiryDate] is after
    [startDate]. *)
Definition voucher_valid (value' : Q) (startDate' expiryDate' : Z) : bool :=
  Qle_bool 0 value' && negb (expiryDate' <=? startDate')%Z.

Record CreateVoucherReq := {
  cv_code : option string;
  cv_type : VoucherType;
  cv_value : Q;
  cv_minPurchase : option Q;
  cv_startDate : Z;
  cv_expiryDate : Z;
  cv_usageLimit : option Z;
  cv_isActive : option bool;
  cv_restaurantId : option Id
}.

(** [code || generate()]: an absent or empty code is replaced. *)
Definition code_or (c : option string) (generated : string) : string :=
  match c with
  | Some c' => if String.eqb c' "" then generated else c'
  | None => generated
  end.

Definition find_voucher (db : Db) (c : string) (rid : Id)
    : option (Id * Voucher) :=
  List.find (fun kv : Id * Voucher =>
               String.eqb (code kv.2) c && (voucher_restaurantId kv.2 =? rid))
            (map_to_list (vouchers db)).

(** [exports.createVoucher]; returns the id of the created voucher. *)
Definition createVoucher (env : Env) (u : User) (req : CreateVoucherReq)
    : Handler Id :=
  reject_if (negb (voucher_valid (cv_value req) (cv_startDate req)
                                 (cv_expiryDate req)))
            ValidationErrors;;
  let restaurantId' :=
    match user_role u with
    | ADMIN => cv_restaurantId req
    | _ => user_restaurantId u
    end in
  let* db := get in
  match restaurantId' with
  | None => fail (Thrown InvalidArgument)
  | Some restaurantId =>
      reject_if (bool_decide (restaurants db !! restaurantId = None))
                RestaurantNotFound;;
      let voucherCode := code_or (cv_code req) (random_code env) in
      reject_if (bool_decide (is_Some (find_voucher db voucherCode
                                                    restaurantId)))
                VoucherCodeExists;;
      (* [code] is [@unique] over all restaurants *)
      reject_if (existsb (fun kv : Id * Voucher =>
                            String.eqb (code kv.2) voucherCode)
                         (map_to_list (vouchers db)))
                (Thrown P2002);;
      let* vid := alloc in
      modify (set_vouchers
                (insert vid
                   {| code := voucherCode;
                      voucher_type := cv_type req;
                      value := cv_value req;
                      minPurchase := default 0%Q (cv_minPurchase req);
                      isActive := default true (cv_isActive req);
                      startDate := cv_startDate req;
                      expiryDate := cv_expiryDate req;
                      usageLimit := cv_usageLimit req;
                      usageCount := 0;
                      voucher_restaurantId := restaurantId |}));;
      ret vid
  end.

(** [include: { voucherRedemptions: true }] on an order. *)
Definition order_redemptions (db : Db) (oid : Id)
    : list (Id * VoucherRedemption) :=
  map_to_list (filter (fun kv : Id * VoucherRedemption => vr_orderId kv.2 = oid)
                      (voucherRedemptions db)).

Definition voucher_with_usageCount (n : Z) (v : Voucher) : Voucher :=
  {| code := code v; voucher_type := voucher_type v; value := value v;
     minPurchase := minPurchase v; isActive := isActive v;
     startDate := startDate v; expiryDate := expiryDate v;
     usageLimit := usageLimit v; usageCount := n;
     voucher_restaurantId := voucher_restaurantId v |}.

Definition update_voucher (id : Id) (f : Voucher -> Voucher) : Handler unit :=
  let* db := get in
  match vouchers db !! id with
  | None => fail (Thrown P2025)
  | Some v => modify (set_vouchers (insert id (f v)))
  end.

(** [new Date("2025-05-09T05:49:52Z")], the value [applyVoucher] binds to
    [now]. *)
Definition applyVoucher_now : Z := JS.Date_UTC 2025 5 9 5 49 52.

(** The discount of [applyVoucher], after
    [Math.round(discountAmount * 100) / 100]; the product and the rounding
    are the exact ones (see [JS.round2]). *)
Definition discountAmount (v : Voucher) (subtotal' : Q) : Q :=
  JS.round2
    match voucher_type v with
    | PERCENTAGE => (subtotal' * value v / 100)%Q
    | FIXED_AMOUNT => JS.Math_min (value v) subtotal'
    | FREE_ITEM => value v
    end.

(** [exports.applyVoucher]; returns [discountAmount]. *)
Definition applyVoucher (env : Env) (u : User) (code' : string)
    (orderId' : Id) : Handler Q :=
  reject_if (String.eqb code' "") ValidationErrors;;
  let* db := get in
  match orders db !! orderId' with
  | None => fail OrderNotFound
  | Some order =>
      reject_if (foreign u (restaurantId order)) NotAuthorized;;
      reject_if (0 <? length (order_redemptions db orderId'))
                VoucherAlreadyApplied;;
      match find_voucher db code' (restaurantId order) with
      | None => fail VoucherNotFound
      | Some (vid, voucher) =>
          let now := applyVoucher_now in
          reject_if (negb (isActive voucher)) VoucherInactive;;
          reject_if (now <? startDate voucher)%Z VoucherNotStarted;;
          reject_if (expiryDate voucher <? now)%Z VoucherExpired;;
          reject_if
            match usageLimit voucher with
            | Some limit => (limit <=? usageCount voucher)%Z
            | None => false
            end
            VoucherUsageLimit;;
          reject_if (JS.gt (minPurchase voucher) (subtotal order))
                    VoucherMinPurchase;;
          let discount := discountAmount voucher (subtotal order) in
          let newSubtotal := JS.Math_max 0 (subtotal order - discount) in
          let* taxRate := restaurant_taxRate (restaurantId order) in
          let newTax := (newSubtotal * taxRate / 100)%Q in
          let newTotal := (newSubtotal + newTax + JS.or0 (tip order))%Q in
          update_order orderId'
            (order_with_totals newSubtotal newTax newTotal);;
          let* rid := alloc in
          modify (set_voucherRedemptions
                    (insert rid {| voucherId := vid;
                                   vr_orderId := orderId';
                                   vr_userId := user_id u |}));;
          update_voucher vid
            (fun v => voucher_with_usageCount (usageCount v + 1) v);;
          ret discount
      end
  end.

(** The pre-discount subtotal [removeVoucher] reconstructs, before
    rounding; [None] when the quotient is not a finite number.  The
    discount factor and the quotient are the exact ones. *)
Definition originalSubtotal (v : Voucher) (subtotal' : Q) : option Q :=
  match voucher_type v with
  | PERCENTAGE =>
      let discountFactor := (1 - value v / 100)%Q in
      JS.div subtotal' discountFactor
  | FIXED_AMOUNT | FREE_ITEM => Some (subtotal' + value v)%Q
  end.

(** [exports.removeVoucher]. *)
Definition removeVoucher (u : User) (orderId' : Id) : Handler unit :=
  let* db := get in
  match orders db !! orderId' with
  | None => fail OrderNotFound
  | Some order =>
      reject_if (foreign u (restaurantId order)) NotAuthorized;;
      match order_redemptions db orderId' with
      | [] => fail NoVoucherApplied
      | (rid, redemption) :: _ =>
          match vouchers db !! voucherId redemption with
          | None => fail (Thrown TypeError)
          | Some voucher =>
              match originalSubtotal voucher (subtotal order) with
              | None => fail DivisionByZero
              | Some original =>
                  let original := JS.round2 original in
                  let* taxRate := restaurant_taxRate (restaurantId order) in
                  let newTax := (original * taxRate / 100)%Q in
                  let newTotal :=
                    (original + newTax + JS.or0 (tip order))%Q in
                  update_order orderId'
                    (order_with_totals original newTax newTotal);;
                  modify (set_voucherRedemptions (delete rid));;
                  update_voucher (voucherId redemption)
                    (fun v => voucher_with_usageCount (usageCount v - 1) v)
              end
          end
      end
  end.

(** ** Gift card controller *)

Record CreateGiftCardReq := {
  cg_initialBalance : Q;
  cg_customerId : option Id;
  cg_expiryDate : option Z;
  cg_code : option string;
  cg_restaurantId : option Id
}.

Definition find_giftCard (db : Db) (c : string) (rid : Id)
    : option (Id * GiftCard) :=
  List.find (fun kv : Id * GiftCard =>
               String.eqb (gc_code kv.2) c && (gc_restaurantId kv.2 =? rid))
            (map_to_list (giftCards db)).

Definition giftCard_with_balance (b : Q) (active : bool) (g : GiftCard)
    : GiftCard :=
  {| gc_code := gc_code g; initialBalance := initialBalance g;
     currentBalance := b; gc_isActive := active;
     gc_expiryDate := gc_expiryDate g; gc_customerId := gc_customerId g;
     gc_restaurantId := gc_restaurantId g |}.

Definition update_giftCard (id : Id) (f : GiftCard -> GiftCard)
    : Handler unit :=
  let* db := get in
  match giftCards db !! id with
  | None => fail (Thrown P2025)
  | Some g => modify (set_giftCards (insert id (f g)))
  end.

Definition create_transaction (t : GiftCardTransaction) : Handler unit :=
  modify (set_giftCardTransactions (fun rows => rows ++ [t])).

(** [exports.createGiftCard]; returns the id of the created card. *)
Definition createGiftCard (env : Env) (u : User) (req : CreateGiftCardReq)
    : Handler Id :=
  (* giftCardValidation: [isFloat({ min: 1 })] *)
  reject_if (negb (Qle_bool 1 (cg_initialBalance req))) ValidationErrors;;
  let restaurantId' :=
    match user_role u with
    | ADMIN => cg_restaurantId req
    | _ => user_restaurantId u
    end in
  let* db := get in
  match restaurantId' with
  | None => fail (Thrown InvalidArgument)
  | Some restaurantId =>
      reject_if (bool_decide (restaurants db !! restaurantId = None))
                RestaurantNotFound;;
      match cg_customerId req with
      | None => ret tt
      | Some customerId =>
          reject_if (bool_decide (customerId ∉ customers db)) CustomerNotFound
      end;;
      let giftCardCode := code_or (cg_code req) (random_code env) in
      reject_if (bool_decide (is_Some (find_giftCard db giftCardCode
                                                     restaurantId)))
                GiftCardCodeExists;;
      (* [code] is [@unique] over all restaurants *)
      reject_if (existsb (fun kv : Id * GiftCard =>
                            String.eqb (gc_code kv.2) giftCardCode)
                         (map_to_list (giftCards db)))
                (Thrown P2002);;
      let* gid := alloc in
      modify (set_giftCards
                (insert gid
                   {| gc_code := giftCardCode;
                      initialBalance := cg_initialBalance req;
                      currentBalance := cg_initialBalance req;
                      gc_isActive := true;
                      gc_expiryDate := cg_expiryDate req;
                      gc_customerId := cg_customerId req;
                      gc_restaurantId := restaurantId |}));;
      create_transaction {| amount := cg_initialBalance req;
                            tx_type := ISSUE;
                            giftCardId := gid;
                            paymentId := None;
                            tx_userId := user_id u |};;
      ret gid
  end.

(** [exports.redeemGiftCard]; returns the remaining balance. *)
Definition redeemGiftCard (env : Env) (u : User) (code' : string)
    (amount' : Q) (orderId' : option Id) : Handler Q :=
  (* redemptionValidation: code not empty, [isFloat({ min: 0.01 })] *)
  reject_if (String.eqb code' "" || negb (Qle_bool (1 # 100) amount'))
            ValidationErrors;;
  let* db := get in
  match user_restaurantId u with
  | None => fail (Thrown InvalidArgument)
  | Some userRestaurant =>
  match find_giftCard db code' userRestaurant with
  | None => fail GiftCardNotFound
  | Some (gid, giftCard) =>
      reject_if (negb (gc_isActive giftCard)) GiftCardInactive;;
      reject_if
        match gc_expiryDate giftCard with
        | Some e => (e <? clock env)%Z
        | None => false
        end
        GiftCardExpired;;
      reject_if (JS.lt (currentBalance giftCard) amount') InsufficientBalance;;
      let* payment :=
        match orderId' with
        | None => ret None
        | Some oid =>
            match orders db !! oid with
            | None => fail OrderNotFound
            | Some order =>
                reject_if (negb (restaurantId order =? userRestaurant))
                          NotAuthorized;;
                let* pid := alloc in
                modify (set_payments
                          (fun rows => rows ++
                             [{| payment_id := pid;
                                 payment_amount := amount';
                                 payment_method := GIFT_CARD;
                                 payment_status := PAY_COMPLETED;
                                 payment_orderId := oid;
                                 payment_userId := user_id u |}]));;
                ret (Some pid)
            end
        end in
      update_giftCard gid
        (fun g => giftCard_with_balance
                    (currentBalance g - amount')%Q
                    (JS.gt (currentBalance giftCard - amount')%Q 0)
                    g);;
      create_transaction {| amount := amount';
                            tx_type := REDEEM;
                            giftCardId := gid;
                            paymentId := payment;
                            tx_userId := user_id u |};;
      ret (currentBalance giftCard - amount')%Q
  end
  end.

(** [exports.addFunds].  The balance is written first; the transaction
    row takes [notes || 'Added funds'], and the body's [notes] is not
    validated: when it is a truthy value that is not a string,
    [prisma.giftCardTransaction.create] throws and the handler ends with
    the balance raised and no transaction written. *)
Definition addFunds (u : User) (id : Id) (amount' : Q) (notes : BodyText)
    : Handler unit :=
  reject_if (negb (Qle_bool (1 # 100) amount')) ValidationErrors;;
  let* db := get in
  match giftCards db !! id with
  | None => fail GiftCardNotFound
  | Some giftCard =>
      reject_if (foreign u (gc_restaurantId giftCard)) NotAuthorized;;
      update_giftCard id
        (fun g => giftCard_with_balance (currentBalance g + amount')%Q true g);;
      reject_if (negb (storable_text_or_default notes))
                (Thrown InvalidArgument);;
      create_transaction {| amount := amount';
                            tx_type := LOAD;
                            giftCardId := id;
                            paymentId := None;
                            tx_userId := user_id u |}
  end.

(** [exports.updateGiftCardStatus]. *)
Definition updateGiftCardStatus (u : User) (id : Id)
    (isActive' : option bool) : Handler unit :=
  match isActive' with
  | None => fail IsActiveRequired
  | Some active =>
      let* db := get in
      match giftCards db !! id with
      | None => fail GiftCardNotFound
      | Some giftCard =>
          reject_if (foreign u (gc_restaurantId giftCard)) NotAuthorized;;
          update_giftCard id
            (fun g => giftCard_with_balance (currentBalance g) active g);;
          if active then ret tt
          else create_transaction {| amount := 0;
                                     tx_type := ISSUE;
                                     giftCardId := id;
                                     paymentId := None;
                                     tx_userId := user_id u |}
      end
  end.

Local Close Scope handler_scope.

(** ** Running handlers *)

(** The database a handler leaves behind. *)
Definition exec {A} (h : Handler A) (db : Db) : Db := snd (h db).

(** The answer of a handler. *)
Definition answer {A} (h : Handler A) (db : Db) : Failure + A := fst (h db).

(** [P] holds of the order row [id]. *)
Definition order_satisfies (db : Db) (id : Id) (P : Order -> Prop) : Prop :=
  match orders db !! id with
  | Some o => P o
  | None => False
  end.

Definition item_satisfies (db : Db) (id : Id) (P : OrderItem -> Prop) : Prop :=
  match orderItems db !! id with
  | Some it => P it
  | None => False
  end.

Definition giftCard_satisfies (db : Db) (id : Id) (P : GiftCard -> Prop)
    : Prop :=
  match giftCards db !! id with
  | Some g => P g
  | None => False
  end.

(** ** A small restaurant, used by the examples *)

Module Sample.

Local Open Scope string_scope.

(** Restaurant 0 with an 8% tax rate and a menu of three items:
    item 1 at 10.00, item 2 at 5.00, item 3 at 0.99 with one optional
    modifier (id 7) at 0.50.  The next free id is 10. *)
Definition db0 : Db :=
  {| restaurants := {[ 0%nat := {| taxRate := 8 |} ]};
     tables := {[ 4%nat := {| table_restaurantId := 0;
                              table_status := AVAILABLE |} ]};
     customers := ∅;
     menuItems :=
       {[ 1%nat := {| menu_price := 10; menu_available := true;
                      menu_restaurantId := 0; modifierGroups := [] |};
          2%nat := {| menu_price := 5; menu_available := true;
                      menu_restaurantId := 0; modifierGroups := [] |};
          3%nat := {| menu_price := 99 # 100; menu_available := true;
                      menu_restaurantId := 0;
                      modifierGroups :=
                        [[ {| modifier_id := 7;
                              modifier_price := 1 # 2;
                              modifier_available := true |} ]] |} ]};
     orders := ∅;
     orderItems := ∅;
     orderItemModifiers := [];
     payments := [];
     giftCards := ∅;
     giftCardTransactions := [];
     vouchers := ∅;
     voucherRedemptions := ∅;
     nextId := 10 |}.

Definition server : User :=
  {| user_id := 5; user_role := SERVER; user_restaurantId := Some 0%nat |}.

Definition manager : User :=
  {| user_id := 6; user_role := MANAGER; user_restaurantId := Some 0%nat |}.

(** A clock reading in 2026, after every date used below. *)
Definition env : Env :=
  {| clock := JS.Date_UTC 2026 11 2 12 0 0; random_code := "PROMO-A1B2C3" |}.

Definition item (menuItem : Id) (q : Z) : ItemReq :=
  {| req_menuItemId := menuItem; req_quantity := q;
     req_quantity_quoted := false; req_notes := Absent;
     req_modifierIds := [] |}.

Definition order_of (items : list ItemReq) : CreateOrderReq :=
  {| co_restaurantId := None; co_tableId := None; co_customerId := None;
     co_type := None; co_notes := Absent; co_orderItems := items |}.

(** Two items priced 10.00 and 5.00, quantity 2 each. *)
Definition two_items : CreateOrderReq := order_of [item 1 2; item 2 2].

(** The database after the order above was created: it is order 10 and
    its items are rows 11 and 12. *)
Definition db_order : Db := exec (createOrder server two_items) db0.

Definition voucher_req (t : VoucherType) (v : Q) : CreateVoucherReq :=
  {| cv_code := Some "SAVE"; cv_type := t; cv_value := v;
     cv_minPurchase := None;
     cv_startDate := JS.Date_UTC 2025 1 1 0 0 0;
     cv_expiryDate := JS.Date_UTC 2025 12 31 0 0 0;
     cv_usageLimit := None; cv_isActive := None;
     cv_restaurantId := None |}.

(** Order 10, completed through [updateOrderStatus]. *)
Definition db_completed : Db :=
  exec (updateOrderStatus env server 10 "COMPLETED") db_order.

(** Order 10 and a voucher "SAVE" (row 13) of the given type and value. *)
Definition db_voucher (t : VoucherType) (v : Q) : Db :=
  exec (createVoucher env manager (voucher_req t v)) db_order.

(** ... after the voucher was applied to order 10 ... *)
Definition db_applied (t : VoucherType) (v : Q) : Db :=
  exec (applyVoucher env server "SAVE" 10) (db_voucher t v).

(** ... and after it was removed again. *)
Definition db_removed (t : VoucherType) (v : Q) : Db :=
  exec (removeVoucher manager 10) (db_applied t v).

(** An order with the single item 1 (order 10, item row 11). *)
Definition db_single : Db := exec (createOrder server (order_of [item 1 1])) db0.

(** An order of one item 3 at 0.99. *)
Definition db_cheap : Db := exec (createOrder server (order_of [item 3 1])) db0.

Definition giftCard_req (balance : Q) : CreateGiftCardReq :=
  {| cg_initialBalance := balance; cg_customerId := None;
     cg_expiryDate := None; cg_code := Some "GC-1";
     cg_restaurantId := None |}.

(** A gift card of 50.00 (row 10). *)
Definition db_giftCard : Db :=
  exec (createGiftCard env manager (giftCard_req 50)) db0.



End Sample.

(** ** Definitions that follow the specification's words *)

Module Spec.

Local Open Scope Q_scope.

(** A [(unitPrice, modifierPrices[], quantity)] tuple. *)
Record Line := {
  unitPrice : Q;
  modifierPrices : list Q;
  qty : Z
}.

Definition sum (l : list Q) : Q := fold_right Qplus 0 l.

(** [lineTotal = (unitPrice + sum(modifierPrices)) * quantity]. *)
Definition lineTotal (l : Line) : Q :=
  (unitPrice l + sum (modifierPrices l)) * inject_Z (qty l).

(** [subtotal = sum(lineTotal for all lines)]. *)
Definition subtotal_of (lines : list Line) : Q := sum (map lineTotal lines).

(** Round-half-up to 2 decimal places. *)
Definition round_currency (x : Q) : Q := inject_Z (Qfloor (x * 100 + (1 # 2))) / 100.



(** The state machine of the specification: PENDING, PREPARING, READY,
    SERVED, COMPLETED in this order, CANCELLED from the first three. *)
Definition transition (from to : OrderStatus.t) : bool :=
  match from, to with
  | OrderStatus.PENDING, OrderStatus.PREPARING
  | OrderStatus.PREPARING, OrderStatus.READY
  | OrderStatus.READY, OrderStatus.SERVED
  | OrderStatus.SERVED, OrderStatus.COMPLETED
  | OrderStatus.PENDING, OrderStatus.CANCELLED
  | OrderStatus.PREPARING, OrderStatus.CANCELLED
  | OrderStatus.READY, OrderStatus.CANCELLED => true
  | _, _ => false
  end.

End Spec.

(** The line of the specification that a requested item stands for, with
    the prices the catalogue has now. *)
Definition line_of (db : Db) (item : ItemReq) : option Spec.Line :=
  menuItem ← menuItems db !! req_menuItemId item;
  mods ← mapM (find_modifier (modifierGroups menuItem)) (req_modifierIds item);
  Some {| Spec.unitPrice := menu_price menuItem;
          Spec.modifierPrices := modifier_price <$> mods;
          Spec.qty := req_quantity item |}.

Definition lines_of (db : Db) (items : list ItemReq)
    : option (list Spec.Line) :=
  mapM (line_of db) items.

(** The restaurant a request of user [u] is made for
    ([if (req.user.role !== 'ADMIN') restaurantId = req.user.restaurantId]). *)
Definition request_restaurant (u : User) (body : option Id) : option Id :=
  match user_role u with
  | ADMIN => body
  | _ => user_restaurantId u
  end.

(** ** Invariants *)

(** Every id in use was drawn from the counter. *)
Definition ids_allocated (db : Db) : Prop :=
  (forall k, is_Some (orders db !! k) -> k < nextId db)
  /\ (forall k, is_Some (orderItems db !! k) -> k < nextId db)
  /\ (forall k it, orderItems db !! k = Some it -> orderId it < nextId db).

(** Every order has at least one item. *)
Definition orders_have_items (db : Db) : Prop :=
  forall oid, is_Some (orders db !! oid) ->
    exists iid it, orderItems db !! iid = Some it /\ orderId it = oid.



(** ** The requests of the order subsystem *)

Inductive Request :=
| CreateOrder (req : CreateOrderReq)
| UpdateOrderStatus (id : Id) (status' : string)
| AddOrderItems (id : Id) (items : list ItemReq)
| UpdateOrderItem (orderId' itemId : Id) (quantity' : option Z)
                  (status' : option string)
| RemoveOrderItem (orderId' itemId : Id)
| CancelOrder (id : Id)
| UpdateOrderItemStatus (id : Id) (status' : string)
| UpdateKitchenOrderStatus (id : Id) (status' : string)
| CreateVoucher (req : CreateVoucherReq)
| ApplyVoucher (code' : string) (orderId' : Id)
| RemoveVoucher (orderId' : Id)
| CreateGiftCard (req : CreateGiftCardReq)
| RedeemGiftCard (code' : string) (amount' : Q) (orderId' : option Id)
| AddFunds (id : Id) (amount' : Q) (notes : BodyText)
| UpdateGiftCardStatus (id : Id) (isActive' : option bool).

(** The database after a request was served. *)
Definition serve (env : Env) (u : User) (r : Request) (db : Db) : Db :=
  match r with
  | CreateOrder req => exec (createOrder u req) db
  | UpdateOrderStatus id s => exec (updateOrderStatus env u id s) db
  | AddOrderItems id items => exec (addOrderItems u id items) db
  | UpdateOrderItem oid iid q s => exec (updateOrderItem u oid iid q s) db
  | RemoveOrderItem oid iid => exec (removeOrderItem u oid iid) db
  | CancelOrder id => exec (cancelOrder env u id) db
  | UpdateOrderItemStatus id s => exec (updateOrderItemStatus u id s) db
  | UpdateKitchenOrderStatus id s => exec (updateKitchenOrderStatus u id s) db
  | CreateVoucher req => exec (createVoucher env u req) db
  | ApplyVoucher c oid => exec (applyVoucher env u c oid) db
  | RemoveVoucher oid => exec (removeVoucher u oid) db
  | CreateGiftCard req => exec (createGiftCard env u req) db
  | RedeemGiftCard c a oid => exec (redeemGiftCard env u c a oid) db
  | AddFunds id a notes => exec (addFunds u id a notes) db
  | UpdateGiftCardStatus id a => exec (updateGiftCardStatus u id a) db
  end.



(** A sequence of requests, each with the clock reading and the user it
    arrives with, served one after the other. *)
Fixpoint serve_all (rs : list (Env * User * Request)) (db : Db) : Db :=
  match rs with
  | [] => db
  | (env, u, r) :: rest => serve_all rest (serve env u r db)
  end.

(** ** Reasoning about handlers *)

(** [wp h Q db]: the answer and the final database of [h] run on [db]
    satisfy [Q]. *)
Definition wp {A} (h : Handler A) (Q : Failure + A -> Db -> Prop) (db : Db)
    : Prop :=
  Q (answer h db) (exec h db).

(** ** Kitchen requests *)

(** The order status a kitchen request asks for, and the item statuses its
    bulk update goes from and to. *)
Definition kitchen_request (s : string)
    : option (OrderStatus.t * ItemStatus.t * ItemStatus.t) :=
  if String.eqb s "PREPARING"
  then Some (OrderStatus.PREPARING, ItemStatus.PENDING, ItemStatus.PREPARING)
  else if String.eqb s "READY"
  then Some (OrderStatus.READY, ItemStatus.PREPARING, ItemStatus.READY)
  else None.

(** The order statuses from which the kitchen handler changes an order. *)
Definition kitchen_changeable (s : OrderStatus.t) : bool :=
  match s with
  | OrderStatus.PENDING | OrderStatus.PREPARING => true
  | _ => false
  end.

(** What the bulk update does to one item row. *)
Definition cascade (oid : Id) (from to : ItemStatus.t) (it : OrderItem)
    : OrderItem :=
  if decide (orderId it = oid /\ item_status it = from)
  then item_with_status to it
  else it.

(** ** What the item loop leaves behind *)

(** [its] and [n] are the order item table and the id counter after
    [create_items oid items] ran on [db], to completion or up to a thrown
    exception: the rows below the old counter are untouched, the rows from
    the old counter up to the new one are items of order [oid], and at
    least one was written when the first of [items] is not refused. *)
Definition items_created (oid : Id) (items : list ValidatedItem) (db : Db)
    (its : gmap Id OrderItem) (n : Id) : Prop :=
  nextId db <= n
  /\ (forall item rest, items = item :: rest -> item_refusal item = None ->
                        nextId db < n)
  /\ (forall k, k < nextId db \/ n <= k -> its !! k = orderItems db !! k)
  /\ (forall k, nextId db <= k < n ->
                exists it, its !! k = Some it /\ orderId it = oid).




(** Ids are allocated and every order has an item. *)
Definition orders_consistent (db : Db) : Prop :=
  ids_allocated db /\ orders_have_items db.

(** ** Voucher validation *)

(** The answers of [validateVoucher]. *)
Inductive ValidateAnswer :=
| CodeRequired                     (* 400 'Voucher code is required' *)
| NotValid (f : Failure)           (* the refusals it shares with [applyVoucher] *)
| IsValid (discountAmount : option Q) (discountedTotal : option Q)
          (remainingUses : option Z).       (* 200, [isValid: true] *)

(** A number used as a condition: [undefined] and [0] are false. *)
Definition truthy (x : option Q) : option Q :=
  match x with
  | Some v => if Qeq_bool v 0 then None else Some v
  | None => None
  end.

(** [exports.validateVoucher]; it reads the system clock and writes
    nothing. *)
Definition validateVoucher (env : Env) (u : User) (code' : option string)
    (totalAmount : option Q) (db : Db) : ValidateAnswer :=
  match code' with
  | None => CodeRequired
  | Some c =>
  if String.eqb c "" then CodeRequired else
  match user_restaurantId u with
  | None => NotValid (Thrown InvalidArgument)
  | Some rid =>
  match find_voucher db c rid with
  | None => NotValid VoucherNotFound
  | Some (_, voucher) =>
      let now := clock env in
      if negb (isActive voucher) then NotValid VoucherInactive
      else if (now <? startDate voucher)%Z then NotValid VoucherNotStarted
      else if (expiryDate voucher <? now)%Z then NotValid VoucherExpired
      else if match usageLimit voucher with
              | Some limit => (limit <=? usageCount voucher)%Z
              | None => false
              end
      then NotValid VoucherUsageLimit
      else if match truthy totalAmount with
              | Some t => JS.gt (minPurchase voucher) t
              | None => false
              end
      then NotValid VoucherMinPurchase
      else
        let discountAmount :=
          match truthy totalAmount with
          | Some t =>
              match voucher_type voucher with
              | PERCENTAGE => Some (t * value voucher / 100)%Q
              | FIXED_AMOUNT => Some (JS.Math_min (value voucher) t)
              | FREE_ITEM => None
              end
          | None => None
          end in
        IsValid discountAmount
          match truthy totalAmount with
          | Some t => Some (t - default 0%Q discountAmount)%Q
          | None => None
          end
          match usageLimit voucher with
          | Some limit => Some (limit - usageCount voucher)%Z
          | None => None
          end
  end
  end
  end.

(** ** Payment controller *)

(** [include: { payments: true }] on an order. *)
Definition order_payments (db : Db) (oid : Id) : list Payment :=
  List.filter (fun p => payment_orderId p =? oid) (payments db).

Definition has_status (s : PaymentStatus) (p : Payment) : bool :=
  match s, payment_status p with
  | PAY_PENDING, PAY_PENDING | PAY_COMPLETED, PAY_COMPLETED
  | PAY_FAILED, PAY_FAILED | PAY_REFUNDED, PAY_REFUNDED => true
  | _, _ => false
  end.

(** [payments.reduce((sum, payment) => payment.status === s
      ? sum + payment.amount : sum, 0)]. *)
Definition amount_with_status (s : PaymentStatus) (ps : list Payment) : Q :=
  fold_left (fun sum p => if has_status s p then (sum + payment_amount p)%Q
                          else sum)
            ps 0%Q.

(** The amount already paid: the COMPLETED payments. *)
Definition totalPaid (ps : list Payment) : Q :=
  amount_with_status PAY_COMPLETED ps.

Inductive PaymentAnswer :=
| PaymentRefused (f : Failure)     (* a refusal shared with the other handlers *)
| PaymentForCancelledOrder         (* 400 'Cannot process payment for a cancelled order' *)
| PaymentExceedsTotal              (* 400 'Payment would exceed order total. ...' *)
| PaymentCreated (id : Id) (remainingBalance : Q) (isFullyPaid : bool). (* 201 *)

(** The writes of [createPayment] that follow the payment row, when the
    order is fully paid: a SERVED order is completed, and the table is
    released if no other order is active on it. *)
Definition settle_order (env : Env) (order : Order) (oid : Id)
    : Handler unit :=
  bind (match status order with
        | OrderStatus.SERVED =>
            update_order oid
              (order_with_status OrderStatus.COMPLETED (Some (clock env)))
        | _ => ret tt
        end)
       (fun _ => release_table order oid).

(** [exports.createPayment].  [paid + amount'] is the exact sum; the source
    compares the double sum, which can differ from it in the last bit
    ([0.01 + 10.79] is below [10.8] as a double), so a payment that brings
    the exact sum to the total may be answered as not yet full, or as
    exceeding the total. *)
Definition createPayment (env : Env) (u : User) (orderId' : Id) (amount' : Q)
    (method : PaymentMethod) (db : Db) : PaymentAnswer * Db :=
  (* paymentValidation: [isFloat({ min: 0.01 })] *)
  if negb (Qle_bool (1 # 100) amount')
  then (PaymentRefused ValidationErrors, db)
  else
    match orders db !! orderId' with
    | None => (PaymentRefused OrderNotFound, db)
    | Some order =>
        if foreign u (restaurantId order)
        then (PaymentRefused NotAuthorized, db)
        else if OrderStatus.eqb (status order) OrderStatus.CANCELLED
        then (PaymentForCancelledOrder, db)
        else
          let paid := totalPaid (order_payments db orderId') in
          if JS.gt (paid + amount')%Q (total order)
          then (PaymentExceedsTotal, db)
          else
            let pid := nextId db in
            let db1 :=
              set_payments
                (fun rows => rows ++
                   [{| payment_id := pid;
                       payment_amount := amount';
                       payment_method := method;
                       payment_status := PAY_COMPLETED;
                       payment_orderId := orderId';
                       payment_userId := user_id u |}])
                (set_nextId (S pid) db) in
            let newTotalPaid := (paid + amount')%Q in
            let isFullyPaid := JS.ge newTotalPaid (total order) in
            let '(r, db2) :=
              (if isFullyPaid then settle_order env order orderId'
               else ret tt) db1 in
            match r with
            | inl f => (PaymentRefused f, db2)
            | inr _ =>
                (PaymentCreated pid (total order - newTotalPaid)%Q isFullyPaid,
                 db2)
            end
    end.

Definition payment_with_status (s : PaymentStatus) (p : Payment) : Payment :=
  {| payment_id := payment_id p; payment_amount := payment_amount p;
     payment_method := payment_method p; payment_status := s;
     payment_orderId := payment_orderId p;
     payment_userId := payment_userId p |}.

(** [prisma.payment.update({ where: { id }, data: { status: 'REFUNDED' } })]
    seen from one row. *)
Definition refund_row (id : Id) (p : Payment) : Payment :=
  if payment_id p =? id then payment_with_status PAY_REFUNDED p else p.

Inductive RefundAnswer :=
| RefundRefused (f : Failure)
| PaymentNotFound                      (* 404 *)
| CannotRefund (s : PaymentStatus)     (* 400 'Cannot refund a payment with status ...' *)
| Refunded.                            (* 200 *)

(** [exports.refundPayment]. *)
Definition refundPayment (u : User) (id : Id) (db : Db) : RefundAnswer * Db :=
  match List.find (fun p => payment_id p =? id) (payments db) with
  | None => (PaymentNotFound, db)
  | Some payment =>
      match orders db !! payment_orderId payment with
      | None => (RefundRefused (Thrown TypeError), db)
      | Some order =>
          if foreign u (restaurantId order)
          then (RefundRefused NotAuthorized, db)
          else
            match payment_status payment with
            | PAY_COMPLETED =>
                (Refunded, set_payments (List.map (refund_row id)) db)
            | s => (CannotRefund s, db)
            end
      end
  end.

Record PaymentSummary := {
  orderTotal : Q;
  summary_totalPaid : Q;
  totalRefunded : Q;
  remainingBalance : Q;
  isFullyPaid : bool
}.

(** [exports.getOrderPaymentSummary]: the totals of the answer.  The source
    filters the payments by status and sums what is left, which
    [amount_with_status] does in one pass; the per-method breakdown and the
    list of payments in the answer are left out. *)
Definition getOrderPaymentSummary (u : User) (oid : Id) (db : Db)
    : Failure + PaymentSummary :=
  match orders db !! oid with
  | None => inl OrderNotFound
  | Some order =>
      if foreign u (restaurantId order) then inl NotAuthorized
      else
        let ps := order_payments db oid in
        let paid := totalPaid ps in
        let remaining := (total order - paid)%Q in
        inr {| orderTotal := total order;
               summary_totalPaid := paid;
               totalRefunded := amount_with_status PAY_REFUNDED ps;
               remainingBalance := remaining;
               isFullyPaid := Qle_bool remaining 0 |}
  end.

(** ** Table combinations for a reservation *)

(** A table row as [checkAvailability] reads it. *)
Record TableRow := {
  row_id : Id;
  capacity : Z
}.

(** [combination.reduce((sum, table) => sum + table.capacity, 0)]. *)
Definition currentCapacity (combination : list TableRow) : Z :=
  fold_left (fun sum t => (sum + capacity t)%Z) combination 0%Z.

(** The [for] loop of [findTableCombinations] over the tables from
    [startIdx] on ([rest]), with the shared arrays [currentCombination] and
    [result] passed along.  Each turn pushes the table, makes the recursive
    call for the tables after it, and pops the table.  The recursive call
    pushes the combination on [result] when it seats the party, returns at
    once when [result] then holds 5 or more, and otherwise runs its own
    loop. *)
Fixpoint extend_combination (rest : list TableRow) (partySize : Z)
    (currentCombination : list TableRow) (result : list (list TableRow))
    : list (list TableRow) :=
  match rest with
  | [] => result
  | t :: rest' =>
      let combination := currentCombination ++ [t] in
      let found := (partySize <=? currentCapacity combination)%Z in
      let result1 := if found then result ++ [combination] else result in
      let result2 :=
        if found && (5 <=? length result1)
        then result1
        else extend_combination rest' partySize combination result1 in
      extend_combination rest' partySize currentCombination result2
  end.

(** [findTableCombinations(tables, partySize)]: the empty combination the
    first call starts from is never pushed. *)
Definition findTableCombinations (tables' : list TableRow) (partySize : Z)
    : list (list TableRow) :=
  extend_combination tables' partySize [] [].

(** ** More invariants *)

(** Every order belongs to a restaurant, carries no tip, and its tax and
    total are the ones its subtotal gives. *)
Definition totals_consistent (db : Db) : Prop :=
  forall oid o, orders db !! oid = Some o ->
    exists r, restaurants db !! restaurantId o = Some r
              /\ (JS.or0 (tip o) == 0)%Q
              /\ (tax o == subtotal o * taxRate r / 100)%Q
              /\ (total o == subtotal o + tax o)%Q.

(** No gift card has a negative balance. *)
Definition balances_nonnegative (db : Db) : Prop :=
  forall gid g, giftCards db !! gid = Some g -> (0 <= currentBalance g)%Q.

(** An amount in whole cents. *)
Definition in_cents (x : Q) : Prop := exists n : Z, (x == inject_Z n / 100)%Q.

(** Three tables of capacities 6, 4 and 2, used by the examples. *)
Module SampleTables.
Definition t6 : TableRow := {| row_id := 1; capacity := 6 |}.
Definition t4 : TableRow := {| row_id := 2; capacity := 4 |}.
Definition t2 : TableRow := {| row_id := 3; capacity := 2 |}.
Definition all : list TableRow := [t6; t4; t2].
End SampleTables.


(** ** What an accepted voucher leaves *)

(** The database [applyVoucher] leaves when it accepts voucher [vid] for
    order [oid]. *)
Definition voucher_applied (u : User) (oid : Id) (order : Order) (vid : Id)
    (v : Voucher) (r : Restaurant) (db : Db) : Db :=
  let newSubtotal :=
    JS.Math_max 0 (subtotal order - discountAmount v (subtotal order))%Q in
  let newTax := (newSubtotal * taxRate_or0 r / 100)%Q in
  set_vouchers
    (insert vid (voucher_with_usageCount (usageCount v + 1) v))
    (set_voucherRedemptions
       (insert (nextId db) {| voucherId := vid; vr_orderId := oid;
                              vr_userId := user_id u |})
       (set_nextId (S (nextId db))
          (set_orders
             (insert oid
                (order_with_totals newSubtotal newTax
                   (newSubtotal + newTax + JS.or0 (tip order))%Q order))
             db))).

(** No voucher was used more often than its limit allows. *)
Definition usage_within_limit (db : Db) : Prop :=
  forall vid v limit, vouchers db !! vid = Some v ->
    usageLimit v = Some limit -> (usageCount v <= limit)%Z.

(** The COMPLETED payments of an order do not exceed its total. *)
Definition payments_within_total (db : Db) : Prop :=
  forall oid o, orders db !! oid = Some o ->
    (totalPaid (order_payments db oid) <= total o)%Q.

(** Users and rows used by the further examples. *)
Module SampleUsers.

(** A server of another restaurant. *)
Definition outsider : User :=
  {| user_id := 7; user_role := SERVER; user_restaurantId := Some 1%nat |}.

(** Order 10 of [Sample.db_order] (total 32.40), served. *)
Definition db_served : Db :=
  exec (updateOrderStatus Sample.env Sample.server 10 "SERVED")
       Sample.db_order.

(** One item 1 ordered at table 4: order 10 with total 10.80, and the
    table is OCCUPIED. *)
Definition seated : CreateOrderReq :=
  {| co_restaurantId := None; co_tableId := Some 4%nat;
     co_customerId := None; co_type := None; co_notes := Absent;
     co_orderItems := [Sample.item 1 1] |}.

Definition db_seated : Db := exec (createOrder Sample.server seated) Sample.db0.

(** The served order 10, paid in two parts of 20.00 (payment 13) and
    12.40 (payment 14). *)
Definition db_paid : Db :=
  snd (createPayment Sample.env Sample.server 10 (124 # 10) CASH
         (snd (createPayment Sample.env Sample.server 10 20 CASH db_served))).

(** ... and after payment 13 was refunded. *)
Definition db_refunded : Db := snd (refundPayment Sample.manager 13 db_paid).

(** A clock reading between the dates of the sample vouchers. *)
Definition env_2025 : Env :=
  {| clock := JS.Date_UTC 2025 6 1 12 0 0;
     random_code := "PROMO-A1B2C3"%string |}.

(** Order 10 and a voucher "ONCE" (row 13) of 5.00 that can be used
    once. *)
Definition once_req : CreateVoucherReq :=
  {| cv_code := Some "ONCE"%string; cv_type := FIXED_AMOUNT; cv_value := 5;
     cv_minPurchase := None;
     cv_startDate := JS.Date_UTC 2025 1 1 0 0 0;
     cv_expiryDate := JS.Date_UTC 2025 12 31 0 0 0;
     cv_usageLimit := Some 1%Z; cv_isActive := None;
     cv_restaurantId := None |}.

Definition db_once : Db :=
  exec (createVoucher Sample.env Sample.manager once_req) Sample.db_order.


(** One item 1 with the quantity 2147483648, which [isInt({ min: 1 })]
    passes and an [Int] column does not hold. *)
Definition oversized : CreateOrderReq :=
  Sample.order_of [Sample.item 1 2147483648].

(** Order 10 after the kitchen started it: the order and its items 11 and
    12 are PREPARING. *)
Definition db_preparing : Db :=
  exec (updateKitchenOrderStatus Sample.server 10 "PREPARING") Sample.db_order.

(** The completed order 10 with item 11 marked SERVED afterwards. *)
Definition db_one_served : Db :=
  exec (updateOrderItemStatus Sample.server 11 "SERVED") Sample.db_completed.

(** Order 10 (total 32.40) and a gift card "GC-1" of 50.00 (row 13). *)
Definition db_card_order : Db :=
  exec (createGiftCard Sample.env Sample.manager (Sample.giftCard_req 50))
       Sample.db_order.

End SampleUsers.
(** ** Properties *)

(** Unfolds the plumbing of a handler. *)
Ltac unfold_handler :=
  unfold answer, exec, bind, get, reject_if, fail, ret, modify, alloc,
    update_order, update_orderItem, update_table, update_voucher,
    update_giftCard, create_transaction, restaurant_taxRate in *;
  simpl in *.

(** *** Status transitions *)

Section StatusTransitions.

Local Open Scope string_scope.
Import Sample.

(** C1 fails on the code: [updateOrderStatus] has no transition check.
    A COMPLETED order is set back to PENDING, a move the state machine
    does not have, with a success answer; [cancelOrder] refuses the same
    order. *)
Theorem updateOrderStatus_reopens_completed_order :
  order_satisfies db_completed 10
    (fun o => status o = OrderStatus.COMPLETED)
  /\ Spec.transition OrderStatus.COMPLETED OrderStatus.PENDING = false
  /\ answer (updateOrderStatus env server 10 "PENDING") db_completed
     = inr tt
  /\ order_satisfies
       (exec (updateOrderStatus env server 10 "PENDING") db_completed) 10
       (fun o => status o = OrderStatus.PENDING)
  /\ answer (cancelOrder env server 10) db_completed
     = inl (CannotCancel OrderStatus.COMPLETED).
Proof. vm_compute. repeat split; reflexivity. Qed.

End StatusTransitions.


(** *** Rules for [wp] *)

Section WpRules.

Context {A B : Type}.

Lemma wp_ret (a : A) Q db : Q (inr a) db -> wp (ret a) Q db.
Proof. done. Qed.

Lemma wp_fail (f : Failure) (Q : Failure + A -> Db -> Prop) db :
  Q (inl f) db -> wp (fail f) Q db.
Proof. done. Qed.

Lemma wp_bind (m : Handler A) (k : A -> Handler B) Q db :
  wp m (fun r db' =>
          match r with
          | inl f => Q (inl f) db'
          | inr a => wp (k a) Q db'
          end) db ->
  wp (bind m k) Q db.
Proof.
  unfold wp, answer, exec, bind.
  destruct (m db) as [[f | a] db']; done.
Qed.

Lemma wp_mono (h : Handler A) (Q Q' : Failure + A -> Db -> Prop) db :
  (forall r db', Q r db' -> Q' r db') -> wp h Q db -> wp h Q' db.
Proof. unfold wp. auto. Qed.

Lemma wp_run (h : Handler A) Q db r db' :
  wp h Q db -> h db = (r, db') -> Q r db'.
Proof. unfold wp, answer, exec. intros HQ Heq. by rewrite Heq in HQ. Qed.

End WpRules.

Lemma wp_get Q db : Q (inr db) db -> wp get Q db.
Proof. done. Qed.

Lemma wp_modify f Q db : Q (inr tt) (f db) -> wp (modify f) Q db.
Proof. done. Qed.

Lemma wp_alloc Q db :
  Q (inr (nextId db)) (set_nextId (S (nextId db)) db) -> wp alloc Q db.
Proof. done. Qed.

Lemma wp_reject_if b f Q db :
  (b = true -> Q (inl f) db) -> (b = false -> Q (inr tt) db) ->
  wp (reject_if b f) Q db.
Proof. intros Ht Hf. destruct b; [apply Ht | apply Hf]; reflexivity. Qed.

(** Reads the tables of an updated database. *)
Ltac db_simpl :=
  cbn [restaurants tables customers menuItems orders orderItems
       orderItemModifiers payments giftCards giftCardTransactions vouchers
       voucherRedemptions nextId
       set_tables set_orders set_orderItems set_orderItemModifiers
       set_payments set_giftCards set_giftCardTransactions set_vouchers
       set_voucherRedemptions set_nextId] in *.

(** Writes every updated database as a record of tables. *)
Ltac db_unfold :=
  unfold set_tables, set_orders, set_orderItems, set_orderItemModifiers,
    set_payments, set_giftCards, set_giftCardTransactions, set_vouchers,
    set_voucherRedemptions, set_nextId in *;
  db_simpl.

(** One step of symbolic execution of a handler. *)
Ltac wp_step :=
  lazymatch goal with
  | |- wp (bind _ _) _ _ => apply wp_bind
  | |- wp (reject_if _ _) _ _ => apply wp_reject_if; intros ?
  | |- wp get _ _ => apply wp_get
  | |- wp (modify _) _ _ => apply wp_modify
  | |- wp (ret _) _ _ => apply wp_ret
  | |- wp (fail _) _ _ => apply wp_fail
  | |- wp alloc _ _ => apply wp_alloc
  | |- wp (match ?x with _ => _ end) _ _ => destruct x eqn:?
  | |- wp (let _ := _ in _) _ _ => cbv zeta
  end; cbv beta iota; db_simpl.

Ltac wp_steps := repeat wp_step.

(** Linear arithmetic over amounts; [x / 100] is [x * (1 # 100)]. *)
Ltac qnorm := unfold Qdiv in *; change (/ 100)%Q with (1 # 100)%Q in *.
Ltac qlra := qnorm; lra.
(** *** The clock of [applyVoucher] *)

Section VoucherClock.

Local Open Scope string_scope.

Lemma applyVoucher_now_value : applyVoucher_now = 1746769792000%Z.
Proof. reflexivity. Qed.

(** C10: the answer and the effect of [applyVoucher] are the same under
    any two readings of the system clock, and a voucher whose
    [expiryDate] is after 2025-05-09T05:49:52Z is never answered with
    "Voucher expired", whatever the clock reads. *)
Theorem applyVoucher_ignores_clock :
  (forall env1 env2 u code' oid db,
      applyVoucher env1 u code' oid db = applyVoucher env2 u code' oid db)
  /\ (forall env u code' oid db order vid voucher,
        orders db !! oid = Some order ->
        find_voucher db code' (restaurantId order) = Some (vid, voucher) ->
        (applyVoucher_now < expiryDate voucher)%Z ->
        answer (applyVoucher env u code' oid) db <> inl VoucherExpired).
Proof.
  split; [reflexivity |].
  intros env u code' oid db order vid voucher Horder Hfind Hexp.
  change (wp (applyVoucher env u code' oid) (fun r _ => r <> inl VoucherExpired) db).
  unfold applyVoucher, update_order, update_voucher, restaurant_taxRate.
  wp_steps; simplify_eq; try congruence.
  match goal with
  | H : (expiryDate _ <? _)%Z = true |- _ => apply Z.ltb_lt in H; lia
  end.
Qed.

(** In the sample the clock reads November 2026 and the voucher expired
    at the end of 2025. *)
Lemma applyVoucher_ignores_clock_witness :
  (JS.Date_UTC 2025 12 31 0 0 0 < clock Sample.env)%Z
  /\ answer (applyVoucher Sample.env Sample.server "SAVE" 10)
            (Sample.db_voucher PERCENTAGE 20)
     <> inl VoucherExpired.
Proof.
  split; [vm_compute; reflexivity |].
  eapply (proj2 applyVoucher_ignores_clock).
  - vm_compute. reflexivity.
  - vm_compute. reflexivity.
  - vm_compute. reflexivity.
Defined.

End VoucherClock.

(** *** The division of [removeVoucher] *)

Section VoucherDivision.

Local Open Scope string_scope.
Local Open Scope Q_scope.

Lemma discountFactor_nonzero (v : Q) : v < 100 -> ~ 1 - v / 100 == 0.
Proof. intros Hlt Heq. qlra. Qed.

Lemma discountFactor_zero (v : Q) : v == 100 -> 1 - v / 100 == 0.
Proof. intros Heq. qlra. Qed.

Lemma originalSubtotal_percentage_lt v s :
  voucher_type v = PERCENTAGE -> value v < 100 ->
  originalSubtotal v s = Some (s / (1 - value v / 100)).
Proof.
  intros Ht Hlt. unfold originalSubtotal, JS.div. rewrite Ht.
  destruct (Qeq_bool (1 - value v / 100) 0) eqn:E; [| reflexivity].
  apply Qeq_bool_iff in E. by apply discountFactor_nonzero in Hlt.
Qed.

Lemma originalSubtotal_percentage_100 v s :
  voucher_type v = PERCENTAGE -> value v == 100 ->
  originalSubtotal v s = None.
Proof.
  intros Ht Heq. unfold originalSubtotal, JS.div. rewrite Ht.
  apply discountFactor_zero, Qeq_bool_iff in Heq. by rewrite Heq.
Qed.

(** C9: when the redeemed voucher is a PERCENTAGE voucher of value below
    100, the divisor [1 - value / 100] is not zero and [removeVoucher]
    restores the subtotal [round2 (subtotal / (1 - value / 100))]; when
    the value is 100 the handler reaches the division with divisor zero,
    for every order that passes the checks before it; and no earlier
    handler stands in the way: [createVoucher] accepts the value 100 and
    [applyVoucher] applies it. *)
Theorem removeVoucher_division :
  (forall u oid db order rid redemption rest voucher,
      orders db !! oid = Some order ->
      foreign u (restaurantId order) = false ->
      order_redemptions db oid = (rid, redemption) :: rest ->
      vouchers db !! voucherId redemption = Some voucher ->
      is_Some (restaurants db !! restaurantId order) ->
      voucher_type voucher = PERCENTAGE ->
      value voucher < 100 ->
      ~ 1 - value voucher / 100 == 0
      /\ answer (removeVoucher u oid) db = inr tt
      /\ order_satisfies (exec (removeVoucher u oid) db) oid
           (fun o => subtotal o
                     == JS.round2 (subtotal order
                                   / (1 - value voucher / 100))))
  /\ (forall u oid db order rid redemption rest voucher,
        orders db !! oid = Some order ->
        foreign u (restaurantId order) = false ->
        order_redemptions db oid = (rid, redemption) :: rest ->
        vouchers db !! voucherId redemption = Some voucher ->
        voucher_type voucher = PERCENTAGE ->
        value voucher == 100 ->
        removeVoucher u oid db = (inl DivisionByZero, db))
  /\ (answer (createVoucher Sample.env Sample.manager
                (Sample.voucher_req PERCENTAGE 100)) Sample.db_order
      = inr 13%nat
      /\ match answer (applyVoucher Sample.env Sample.server "SAVE" 10%nat)
                      (Sample.db_voucher PERCENTAGE 100) with
         | inr discount => discount == 30
         | inl _ => False
         end
      /\ answer (removeVoucher Sample.manager 10%nat)
                (Sample.db_applied PERCENTAGE 100)
         = inl DivisionByZero).
Proof.
  split; [| split].
  - intros u oid db order rid redemption rest voucher
           Horder Hauth Hred Hvoucher [restaurant Hrest] Htype Hlt.
    split; [by apply discountFactor_nonzero |].
    pose proof (originalSubtotal_percentage_lt voucher (subtotal order)
                  Htype Hlt) as Horig.
    change (wp (removeVoucher u oid)
              (fun r db' =>
                 r = inr tt
                 /\ order_satisfies db' oid
                      (fun o => subtotal o
                                == JS.round2 (subtotal order
                                              / (1 - value voucher / 100))))
              db).
    unfold removeVoucher, update_order, update_voucher, restaurant_taxRate.
    wp_steps; simplify_eq; try congruence.
    split; [reflexivity |].
    unfold order_satisfies. simpl. rewrite lookup_insert_eq. simpl.
    reflexivity.
  - intros u oid db order rid redemption rest voucher
           Horder Hauth Hred Hvoucher Htype Heq.
    unfold removeVoucher, bind, get, reject_if, ret, fail.
    rewrite Horder, Hauth, Hred, Hvoucher,
      (originalSubtotal_percentage_100 _ _ Htype Heq).
    reflexivity.
  - vm_compute. repeat split; reflexivity.
Qed.

(** The 20% voucher of the sample, applied to order 10 and removed. *)
Lemma removeVoucher_division_witness :
  (20 < 100)
  /\ answer (removeVoucher Sample.manager 10%nat)
            (Sample.db_applied PERCENTAGE 20) = inr tt.
Proof.
  split; [reflexivity |].
  set (db := Sample.db_applied PERCENTAGE 20).
  destruct (orders db !! 10%nat) as [order |] eqn:Horder;
    [| vm_compute in Horder; discriminate].
  destruct (order_redemptions db 10%nat) as [| [rid redemption] rest] eqn:Hred;
    [vm_compute in Hred; discriminate |].
  destruct (vouchers db !! 13%nat) as [voucher |] eqn:Hvoucher;
    [| vm_compute in Hvoucher; discriminate].
  pose proof (proj1 removeVoucher_division Sample.manager 10%nat db
                order rid redemption rest voucher Horder) as H.
  vm_compute in Horder. injection Horder as <-.
  vm_compute in Hred. injection Hred as <- <- <-.
  specialize (H eq_refl eq_refl Hvoucher).
  vm_compute in Hvoucher. injection Hvoucher as <-.
  assert (Hrestaurant : is_Some (restaurants db !! 0%nat))
    by (eexists; vm_compute; reflexivity).
  specialize (H Hrestaurant eq_refl eq_refl).
  destruct H as (_ & Hanswer & _). exact Hanswer.
Defined.

End VoucherDivision.

(** *** Kitchen advancement *)

Section Kitchen.

Local Open Scope string_scope.

Lemma ItemStatus_eqb_eq a b : ItemStatus.eqb a b = true <-> a = b.
Proof. destruct a, b; simpl; split; congruence. Qed.

Lemma OrderStatus_eqb_eq a b : OrderStatus.eqb a b = true <-> a = b.
Proof. destruct a, b; simpl; split; congruence. Qed.

Lemma updateMany_item_status_lookup oid from to db iid :
  orderItems (updateMany_item_status oid from to db) !! iid
  = cascade oid from to <$> orderItems db !! iid.
Proof.
  unfold updateMany_item_status. db_simpl. rewrite lookup_fmap.
  destruct (orderItems db !! iid) as [it |]; [| reflexivity].
  simpl. f_equal. unfold cascade.
  destruct (orderId it =? oid)%nat eqn:Eid;
    destruct (ItemStatus.eqb (item_status it) from) eqn:Est; simpl;
    case_decide as Hd; try reflexivity.
  - destruct Hd. split; [by apply Nat.eqb_eq | by apply ItemStatus_eqb_eq].
  - destruct Hd as [_ Hd]. apply ItemStatus_eqb_eq in Hd. congruence.
  - destruct Hd as [Hd _]. apply Nat.eqb_eq in Hd. congruence.
  - destruct Hd as [Hd _]. apply Nat.eqb_eq in Hd. congruence.
Qed.

(** C5 as stated fails on the code: the order of the sample is PENDING,
    the kitchen asks for READY, whose preceding status is PREPARING, and
    the handler answers with success and makes the order READY. *)
Lemma kitchen_ready_from_pending :
  order_satisfies Sample.db_single 10
    (fun o => status o = OrderStatus.PENDING)
  /\ answer (updateKitchenOrderStatus Sample.server 10 "READY")
            Sample.db_single = inr tt
  /\ order_satisfies
       (exec (updateKitchenOrderStatus Sample.server 10 "READY")
             Sample.db_single) 10
       (fun o => status o = OrderStatus.READY).
Proof. vm_compute. repeat split; reflexivity. Qed.

(** C5, amended: a kitchen request for PREPARING or READY on an order the
    user may access succeeds exactly when the order is PENDING or
    PREPARING, whichever of the two is asked for, and is refused with the
    database unchanged otherwise; on success the order takes the
    requested status and every item of the order that is PENDING (for
    PREPARING) or PREPARING (for READY) takes it too, all other items
    staying as they are. *)
Theorem kitchen_advance u id s db order target from to :
  orders db !! id = Some order ->
  foreign u (restaurantId order) = false ->
  kitchen_request s = Some (target, from, to) ->
  if kitchen_changeable (status order)
  then answer (updateKitchenOrderStatus u id s) db = inr tt
       /\ order_satisfies (exec (updateKitchenOrderStatus u id s) db) id
            (fun o => status o = target)
       /\ forall iid,
            orderItems (exec (updateKitchenOrderStatus u id s) db) !! iid
            = cascade id from to <$> orderItems db !! iid
  else updateKitchenOrderStatus u id s db
       = (inl (CannotChangeKitchenStatus (status order)), db).
Proof.
  intros Horder Hauth Hreq.
  unfold kitchen_request in Hreq.
  destruct (kitchen_changeable (status order)) eqn:Hch.
  - change (wp (updateKitchenOrderStatus u id s)
              (fun r db' =>
                 r = inr tt
                 /\ order_satisfies db' id (fun o => status o = target)
                 /\ forall iid, orderItems db' !! iid
                                = cascade id from to <$> orderItems db !! iid)
              db).
    unfold updateKitchenOrderStatus, update_order.
    destruct (String.eqb s "PREPARING") eqn:E1;
      [| destruct (String.eqb s "READY") eqn:E2]; simplify_eq;
      wp_steps; simplify_eq; try congruence;
      try (destruct (status order); discriminate).
    + split; [reflexivity |]. split.
      * unfold order_satisfies, updateMany_item_status. db_simpl.
        by rewrite lookup_insert_eq.
      * intros iid. rewrite updateMany_item_status_lookup. reflexivity.
    + split; [reflexivity |]. split.
      * unfold order_satisfies, updateMany_item_status. db_simpl.
        by rewrite lookup_insert_eq.
      * intros iid. rewrite updateMany_item_status_lookup. reflexivity.
  - unfold updateKitchenOrderStatus, bind, get, reject_if, ret, fail.
    destruct (String.eqb s "PREPARING") eqn:E1;
      [| destruct (String.eqb s "READY") eqn:E2]; simplify_eq;
      rewrite Horder, Hauth; destruct (status order); try discriminate;
      reflexivity.
Qed.

(** The sample order is PENDING with one PENDING item; the kitchen asks
    for PREPARING. *)
Lemma kitchen_advance_witness :
  answer (updateKitchenOrderStatus Sample.server 10 "PREPARING")
         Sample.db_single = inr tt
  /\ item_satisfies
       (exec (updateKitchenOrderStatus Sample.server 10 "PREPARING")
             Sample.db_single) 11
       (fun it => item_status it = ItemStatus.PREPARING).
Proof.
  destruct (orders Sample.db_single !! 10) as [order |] eqn:Horder;
    [| vm_compute in Horder; discriminate].
  pose proof (kitchen_advance Sample.server 10 "PREPARING" Sample.db_single
                order OrderStatus.PREPARING ItemStatus.PENDING
                ItemStatus.PREPARING Horder) as H.
  vm_compute in Horder. injection Horder as <-.
  specialize (H eq_refl eq_refl).
  change (kitchen_changeable _) with true in H. cbv iota in H.
  destruct H as (Hans & _ & Hitems).
  split; [exact Hans |].
  unfold item_satisfies. rewrite Hitems. vm_compute. reflexivity.
Defined.

End Kitchen.

(** *** Concrete runs *)

Section Runs.

Local Open Scope string_scope.
Import Sample.

Ltac by_evaluation :=
  vm_compute; repeat split; try reflexivity;
  try (intros H; first [discriminate H | apply H; reflexivity]).

(** C3 fails on the code: a FIXED_AMOUNT voucher of 50.00 applied to an
    order of subtotal 30.00 takes [min(50, 30)] off, and [removeVoucher]
    adds the whole 50.00 back: subtotal 50.00, tax 4.00, total 54.00
    instead of 30.00, 2.40, 32.40. *)
Theorem removeVoucher_adds_back_more_than_was_taken :
  order_satisfies db_order 10
    (fun o => subtotal o == 30 /\ tax o == 24 # 10 /\ total o == 324 # 10)%Q
  /\ match answer (applyVoucher env server "SAVE" 10)
                  (db_voucher FIXED_AMOUNT 50) with
     | inr discount => (discount == 30)%Q
     | inl _ => False
     end
  /\ order_satisfies (db_applied FIXED_AMOUNT 50) 10
       (fun o => subtotal o == 0 /\ tax o == 0 /\ total o == 0)%Q
  /\ answer (removeVoucher manager 10) (db_applied FIXED_AMOUNT 50) = inr tt
  /\ order_satisfies (db_removed FIXED_AMOUNT 50) 10
       (fun o => subtotal o == 50 /\ tax o == 4 /\ total o == 54
                 /\ ~ Qabs (subtotal o - 30) <= 1 # 100
                 /\ ~ Qabs (tax o - (24 # 10)) <= 1 # 100
                 /\ ~ Qabs (total o - (324 # 10)) <= 1 # 100)%Q.
Proof. by_evaluation. Qed.

(** The scenario of the specification does round-trip: 20% off 30.00. *)
Example voucher_20_percent_round_trip :
  order_satisfies (db_applied PERCENTAGE 20) 10
    (fun o => subtotal o == 24 /\ tax o == 192 # 100
              /\ total o == 2592 # 100)%Q
  /\ order_satisfies (db_removed PERCENTAGE 20) 10
       (fun o => subtotal o == 30 /\ tax o == 24 # 10
                 /\ total o == 324 # 10)%Q.
Proof. by_evaluation. Qed.

(** C6 fails on the code: [updateOrderItem] of the order routes writes
    the item status and does not touch the order.  The only item of
    order 10 becomes READY and the order stays PENDING; the kitchen
    handler [updateOrderItemStatus], given the same change, makes the
    order READY. *)
Theorem updateOrderItem_leaves_order_status :
  order_satisfies db_single 10 (fun o => status o = OrderStatus.PENDING)
  /\ answer (updateOrderItem server 10 11 None (Some "READY")) db_single
     = inr tt
  /\ item_satisfies
       (exec (updateOrderItem server 10 11 None (Some "READY")) db_single)
       11 (fun it => item_status it = ItemStatus.READY)
  /\ allReady
       (order_items
          (exec (updateOrderItem server 10 11 None (Some "READY")) db_single)
          10) = true
  /\ order_satisfies
       (exec (updateOrderItem server 10 11 None (Some "READY")) db_single)
       10 (fun o => status o = OrderStatus.PENDING)
  /\ order_satisfies
       (exec (updateOrderItemStatus server 11 "READY") db_single)
       10 (fun o => status o = OrderStatus.READY).
Proof. by_evaluation. Qed.

(** C4 as stated fails on the code: nothing is rounded.  One item at 0.99
    with an 8% tax rate is stored with tax 0.0792 and total 1.0692;
    rounded half-up to 2 decimals they would be 0.08 and 1.07. *)
Lemma createOrder_stores_unrounded_amounts :
  answer (createOrder server (order_of [item 3 1])) db0 = inr 10
  /\ order_satisfies db_cheap 10
       (fun o => subtotal o == 99 # 100
                 /\ tax o == 792 # 10000
                 /\ total o == 10692 # 10000
                 /\ Spec.round_currency (subtotal o * 8 / 100) == 8 # 100
                 /\ ~ tax o == Spec.round_currency (subtotal o * 8 / 100)
                 /\ ~ total o == Spec.round_currency (total o))%Q.
Proof. by_evaluation. Qed.


(** The scenario of the specification: a card of 50.00 redeemed for
    50.00 has balance 0.00 and is inactive. *)
Example giftCard_redeemed_in_full :
  giftCard_satisfies
    (exec (redeemGiftCard env server "GC-1" 50 None) db_giftCard) 10
    (fun g => (currentBalance g == 0)%Q /\ gc_isActive g = false).
Proof. by_evaluation. Qed.

End Runs.

(** *** Pricing at order creation *)

Section Pricing.

Local Open Scope Q_scope.

Lemma or0_Some (v : Q) : JS.or0 (Some v) == v.
Proof.
  unfold JS.or0. destruct (Qeq_bool v 0) eqn:E; [| reflexivity].
  apply Qeq_bool_iff in E. by rewrite E.
Qed.

Lemma taxRate_or0_eq r : taxRate_or0 r == taxRate r.
Proof. apply or0_Some. Qed.

Lemma sum_cons x l : Spec.sum (x :: l) = x + Spec.sum l.
Proof. reflexivity. Qed.

Lemma subtotal_of_cons x l :
  Spec.subtotal_of (x :: l) = Spec.lineTotal x + Spec.subtotal_of l.
Proof. reflexivity. Qed.

(** The modifier loop adds the prices of the selected modifiers, as the
    catalogue has them, to its accumulator. *)
Lemma price_modifiers_sum mi mids acc vs p vs' :
  price_modifiers mi mids acc vs = inr (p, vs') ->
  exists mods,
    mapM (find_modifier (modifierGroups mi)) mids = Some mods
    /\ p == acc + Spec.sum (modifier_price <$> mods).
Proof.
  revert acc vs. induction mids as [| mid mids IH]; intros acc vs Hrun.
  - simpl in Hrun. injection Hrun as <- <-.
    exists []. split; [reflexivity |]. simpl. lra.
  - simpl in Hrun.
    destruct (find_modifier (modifierGroups mi) mid) as [m |] eqn:Hfind;
      [| discriminate].
    destruct (negb (modifier_available m)); [discriminate |].
    apply IH in Hrun as (mods & Hmods & Hp).
    exists (m :: mods). split.
    + simpl. rewrite Hfind. simpl. rewrite Hmods. reflexivity.
    + rewrite Hp, fmap_cons, sum_cons. lra.
Qed.

(** The item loop adds the line totals of the requested items to its
    accumulator. *)
Lemma price_items_sum db rid items acc vs s vs' :
  price_items db rid items acc vs = inr (s, vs') ->
  exists lines,
    lines_of db items = Some lines /\ s == acc + Spec.subtotal_of lines.
Proof.
  revert acc vs. induction items as [| item items IH]; intros acc vs Hrun.
  - simpl in Hrun. injection Hrun as <- <-.
    exists []. split; [reflexivity |]. unfold Spec.subtotal_of. simpl. lra.
  - simpl in Hrun.
    destruct (menuItems db !! req_menuItemId item) as [mi |] eqn:Hmi;
      [| discriminate].
    destruct (negb (menu_restaurantId mi =? rid)%nat); [discriminate |].
    destruct (negb (menu_available mi)); [discriminate |].
    destruct (price_modifiers mi (req_modifierIds item) 0 [])
      as [f | [mp vms]] eqn:Hmods; [discriminate |].
    apply price_modifiers_sum in Hmods as (mods & Hmods & Hmp).
    apply IH in Hrun as (lines & Hlines & Hs).
    assert (Hline : line_of db item
                    = Some {| Spec.unitPrice := menu_price mi;
                              Spec.modifierPrices := modifier_price <$> mods;
                              Spec.qty := req_quantity item |}).
    { unfold line_of. rewrite Hmi. simpl. rewrite Hmods. reflexivity. }
    eexists (_ :: lines). split.
    + unfold lines_of in *. simpl. rewrite Hline. simpl. rewrite Hlines.
      reflexivity.
    + rewrite Hs, subtotal_of_cons. unfold Spec.lineTotal at 1.
      cbn [Spec.unitPrice Spec.modifierPrices Spec.qty].
      rewrite Hmp. lra.
Qed.

End Pricing.

(** *** The loops that write items and modifiers *)

Section ItemLoops.

Lemma set_orderItemModifiers_id db :
  set_orderItemModifiers (fun _ => orderItemModifiers db) db = db.
Proof. by destruct db. Qed.

Lemma set_orderItemModifiers_twice f g db :
  set_orderItemModifiers f (set_orderItemModifiers g db)
  = set_orderItemModifiers (fun _ => f (g (orderItemModifiers db))) db.
Proof. by destruct db. Qed.

Lemma items_written_id db :
  set_nextId (nextId db)
    (set_orderItemModifiers (fun _ => orderItemModifiers db)
       (set_orderItems (fun _ => orderItems db) db)) = db.
Proof. by destruct db. Qed.

Lemma items_written_first f g m db :
  set_orderItemModifiers f (set_orderItems g (set_nextId m db))
  = set_nextId m
      (set_orderItemModifiers (fun _ => f (orderItemModifiers db))
         (set_orderItems (fun _ => g (orderItems db)) db)).
Proof. by destruct db. Qed.

Lemma items_written_twice n rows its f g m db :
  set_nextId n
    (set_orderItemModifiers (fun _ => rows)
       (set_orderItems (fun _ => its)
          (set_orderItemModifiers f (set_orderItems g (set_nextId m db)))))
  = set_nextId n
      (set_orderItemModifiers (fun _ => rows)
         (set_orderItems (fun _ => its) db)).
Proof. by destruct db. Qed.

(** [create_modifiers] changes the modifier table and nothing else. *)
Lemma wp_create_modifiers itemId mods Q db :
  (forall r rows, Q r (set_orderItemModifiers (fun _ => rows) db)) ->
  wp (create_modifiers itemId mods) Q db.
Proof.
  revert db Q. induction mods as [| [mid p] mods IH]; intros db Q HQ.
  - simpl. apply wp_ret. rewrite <- (set_orderItemModifiers_id db). apply HQ.
  - simpl. wp_steps.
    + rewrite <- (set_orderItemModifiers_id db). apply HQ.
    + apply IH. intros r rows. rewrite set_orderItemModifiers_twice.
      apply HQ.
Qed.

(** [create_items] changes the item table, the modifier table and the id
    counter, as [items_created] says. *)
Lemma wp_create_items oid items Q db :
  (forall r its rows n,
      items_created oid items db its n ->
      Q r (set_nextId n
             (set_orderItemModifiers (fun _ => rows)
                (set_orderItems (fun _ => its) db)))) ->
  wp (create_items oid items) Q db.
Proof.
  revert db Q. induction items as [| item items IH]; intros db Q HQ.
  - simpl. apply wp_ret. rewrite <- (items_written_id db). apply HQ.
    unfold items_created. repeat split; try done; try lia.
  - simpl. destruct (item_refusal item) as [e |] eqn:Hrefusal.
    { wp_steps. rewrite <- (items_written_id db). apply HQ.
      unfold items_created. repeat split; try done; try lia.
      intros item' rest [= <- <-]. congruence. }
    wp_steps. apply wp_create_modifiers. intros r rows.
    destruct r as [f | []].
    + rewrite items_written_first. apply HQ.
      unfold items_created. repeat split; try (intros; db_simpl; lia).
      * intros k Hk. apply lookup_insert_ne. lia.
      * intros k Hk. assert (k = nextId db) as -> by lia.
        rewrite lookup_insert_eq. eauto.
    + apply IH. intros r its rows' n (Hle & _ & Hold & Hnew).
      rewrite items_written_twice. db_simpl. apply HQ.
      unfold items_created. repeat split; try (intros; lia).
      * intros k Hk. rewrite Hold by lia. apply lookup_insert_ne. lia.
      * intros k Hk. destruct (decide (k = nextId db)) as [-> | Hne].
        -- rewrite Hold by lia. rewrite lookup_insert_eq. eauto.
        -- apply Hnew. lia.
Qed.

End ItemLoops.

(** *** Totals of a created order *)

Section CreateOrderTotals.

Local Open Scope Q_scope.

Lemma line_of_menu db1 db2 item :
  menuItems db1 = menuItems db2 -> line_of db1 item = line_of db2 item.
Proof. intros Hmenu. unfold line_of. rewrite Hmenu. reflexivity. Qed.

Lemma lines_of_menu db1 db2 items :
  menuItems db1 = menuItems db2 -> lines_of db1 items = lines_of db2 items.
Proof.
  intros Hmenu. unfold lines_of.
  induction items as [| item items IH]; [reflexivity |].
  simpl. rewrite (line_of_menu db1 db2 item Hmenu), IH. reflexivity.
Qed.

(** C4, amended: when [createOrder] succeeds, the stored subtotal is the sum
    over the requested items of
    [(unitPrice + sum(modifierPrices)) * quantity] at catalogue prices, the
    stored tax is [subtotal * taxRate / 100] and the stored total is
    [subtotal + tax]; none of the three is rounded. *)
Theorem createOrder_totals u req db oid db' :
  createOrder u req db = (inr oid, db') ->
  exists rid restaurant lines o,
    request_restaurant u (co_restaurantId req) = Some rid
    /\ restaurants db !! rid = Some restaurant
    /\ lines_of db (co_orderItems req) = Some lines
    /\ orders db' !! oid = Some o
    /\ subtotal o == Spec.subtotal_of lines
    /\ tax o == subtotal o * taxRate restaurant / 100
    /\ total o == subtotal o + tax o.
Proof.
  intros Hrun.
  cut (wp (createOrder u req)
          (fun r db' =>
             forall oid, r = inr oid ->
               exists rid restaurant lines o,
                 request_restaurant u (co_restaurantId req) = Some rid
                 /\ restaurants db !! rid = Some restaurant
                 /\ lines_of db (co_orderItems req) = Some lines
                 /\ orders db' !! oid = Some o
                 /\ subtotal o == Spec.subtotal_of lines
                 /\ tax o == subtotal o * taxRate restaurant / 100
                 /\ total o == subtotal o + tax o) db).
  { intros Hwp. exact (wp_run _ _ _ _ _ Hwp Hrun oid eq_refl). }
  clear Hrun oid db'.
  unfold createOrder, update_table.
  wp_steps; try (intros ? [=]).
  all: apply wp_create_items; intros [? | []] its rows ? Hcreated;
    wp_steps; try (intros ? [=]).
  all: apply price_items_sum in Heqs as (lines & Hlines & Hq);
    try rewrite (lines_of_menu _ db) in Hlines by reflexivity;
    subst oid; exists i, r, lines; eexists;
    (split; [exact Heqo |]); (split; [assumption |]);
    (split; [exact Hlines |]);
    (split; [apply lookup_insert_eq |]);
    cbn [subtotal tax total];
    (split; [rewrite Hq; ring |]);
    (split; [rewrite taxRate_or0_eq; unfold Qdiv; ring | reflexivity]).
Qed.

(** The scenario of the specification: two items priced 10.00 and 5.00,
    quantity 2 each, and a tax rate of 8%. *)
Lemma createOrder_totals_witness :
  answer (createOrder Sample.server Sample.two_items) Sample.db0 = inr 10%nat
  /\ order_satisfies Sample.db_order 10%nat
       (fun o => subtotal o == 30 /\ tax o == 24 # 10 /\ total o == 324 # 10).
Proof.
  split; [vm_compute; reflexivity |].
  destruct (createOrder_totals Sample.server Sample.two_items Sample.db0
              10%nat Sample.db_order)
    as (rid & restaurant & lines & o & Hrid & Hrestaurant & Hlines & Ho
        & Hsubtotal & Htax & Htotal).
  { vm_compute. reflexivity. }
  unfold order_satisfies. rewrite Ho.
  vm_compute in Hrid. injection Hrid as <-.
  vm_compute in Hrestaurant. injection Hrestaurant as <-.
  vm_compute in Hlines. injection Hlines as <-.
  assert (Hs : subtotal o == 30)
    by (rewrite Hsubtotal; vm_compute; reflexivity).
  assert (Ht : tax o == 24 # 10)
    by (rewrite Htax, Hs; vm_compute; reflexivity).
  repeat split; [exact Hs | exact Ht |].
  rewrite Htotal, Hs, Ht. vm_compute. reflexivity.
Defined.

End CreateOrderTotals.

(** *** The gift card ledger *)

Section Ledger.

Local Open Scope Q_scope.




Lemma find_giftCard_lookup db c rid gid g :
  find_giftCard db c rid = Some (gid, g) -> giftCards db !! gid = Some g.
Proof.
  unfold find_giftCard. intros Hfind.
  apply List.find_some in Hfind as [Hin _].
  apply list_elem_of_In in Hin. by apply elem_of_map_to_list in Hin.
Qed.










End Ledger.

(** *** Every order keeps an item *)

Section OrdersHaveItems.

















Lemma price_modifiers_length mi mids acc vs p vs' :
  price_modifiers mi mids acc vs = inr (p, vs') ->
  length vs' = length vs + length mids.
Proof.
  revert acc vs. induction mids as [| mid mids IH]; intros acc vs Hrun.
  - simpl in Hrun. injection Hrun as <- <-. simpl. lia.
  - simpl in Hrun.
    destruct (find_modifier (modifierGroups mi) mid) as [m |]; [| discriminate].
    destruct (negb (modifier_available m)); [discriminate |].
    apply IH in Hrun. rewrite Hrun, length_app. simpl. lia.
Qed.

(** Pricing validates every requested item: none is dropped. *)
Lemma price_items_length db rid items acc vs s vs' :
  price_items db rid items acc vs = inr (s, vs') ->
  length vs' = length vs + length items.
Proof.
  revert acc vs. induction items as [| item items IH]; intros acc vs Hrun.
  - simpl in Hrun. injection Hrun as <- <-. simpl. lia.
  - simpl in Hrun.
    destruct (menuItems db !! req_menuItemId item) as [mi |]; [| discriminate].
    destruct (negb (menu_restaurantId mi =? rid)); [discriminate |].
    destruct (negb (menu_available mi)); [discriminate |].
    destruct (price_modifiers mi (req_modifierIds item) 0 [])
      as [f | [mp vms]]; [discriminate |].
    apply IH in Hrun. rewrite Hrun, length_app. simpl. lia.
Qed.







Lemma order_items_elem db oid k it :
  (k, it) ∈ order_items db oid
  <-> orderItems db !! k = Some it /\ orderId it = oid.
Proof.
  unfold order_items. rewrite elem_of_map_to_list.
  rewrite map_lookup_filter_Some. reflexivity.
Qed.






(** C8 fails on the code, whose own guards say what the claim says ('Order
    must have at least one item', 'Cannot remove the last item from an
    order'): [createOrder] writes the order row before the item rows and
    opens no transaction.  The body
    [{ orderItems: [{ menuItemId, quantity: 2147483648 }] }] passes
    [isInt({ min: 1 })]; [prisma.orderItem.create] refuses the quantity,
    the request is answered with 500, and order 10 stays in the table
    without an item. *)
Lemma createOrder_leaves_order_without_item :
  orders_consistent Sample.db0
  /\ (exists f,
        answer (createOrder Sample.server SampleUsers.oversized) Sample.db0
        = inl f /\ http_status f = 500%Z)
  /\ is_Some
       (orders (exec (createOrder Sample.server SampleUsers.oversized)
                     Sample.db0) !! 10)
  /\ order_items (exec (createOrder Sample.server SampleUsers.oversized)
                       Sample.db0) 10 = []
  /\ ~ orders_have_items
         (serve_all [(Sample.env, Sample.server,
                      CreateOrder SampleUsers.oversized)] Sample.db0).
Proof.
  split; [| split; [| split; [| split]]].
  - split; [split; [| split] |].
    + intros k [o Ho]. vm_compute in Ho. discriminate.
    + intros k [it Hit]. vm_compute in Hit. discriminate.
    + intros k it Hit. vm_compute in Hit. discriminate.
    + intros k [o Ho]. vm_compute in Ho. discriminate.
  - exists (Thrown P2020). split; vm_compute; reflexivity.
  - vm_compute. eauto.
  - vm_compute. reflexivity.
  - intros Hhas. destruct (Hhas 10) as (iid & it & Hit & _).
    + vm_compute. eauto.
    + assert (Hnone : orderItems
                        (serve_all [(Sample.env, Sample.server,
                                     CreateOrder SampleUsers.oversized)]
                                   Sample.db0) = ∅)
        by (vm_compute; reflexivity).
      rewrite Hnone, lookup_empty in Hit. discriminate.
Qed.



End OrdersHaveItems.

(** * Further properties of the modelled code *)

(** ** Table combinations *)

Section TableCombinations.

Local Open Scope Z_scope.

Lemma currentCapacity_from (c : list TableRow) (n : Z) :
  fold_left (fun sum t => sum + capacity t) c n = n + currentCapacity c.
Proof.
  unfold currentCapacity. revert n.
  induction c as [| t c IH]; intros n; cbn [fold_left]; [lia |].
  rewrite (IH (n + capacity t)), (IH (0 + capacity t)). lia.
Qed.

Lemma currentCapacity_cons t c :
  currentCapacity (t :: c) = capacity t + currentCapacity c.
Proof.
  unfold currentCapacity at 1. cbn [fold_left]. apply currentCapacity_from.
Qed.

Lemma currentCapacity_app c1 c2 :
  currentCapacity (c1 ++ c2) = currentCapacity c1 + currentCapacity c2.
Proof.
  induction c1 as [| t c1 IH]; simpl; [reflexivity |].
  rewrite !currentCapacity_cons, IH. lia.
Qed.

Lemma extend_combination_cons t rest p cur result :
  extend_combination (t :: rest) p cur result
  = extend_combination rest p cur
      (if p <=? currentCapacity (cur ++ [t])
       then if (5 <=? length (result ++ [cur ++ [t]]))%nat
            then result ++ [cur ++ [t]]
            else extend_combination rest p (cur ++ [t])
                   (result ++ [cur ++ [t]])
       else extend_combination rest p (cur ++ [t]) result).
Proof.
  cbn [extend_combination].
  destruct (p <=? currentCapacity (cur ++ [t])); reflexivity.
Qed.

(** The search never drops a combination it has pushed. *)
Lemma extend_combination_keeps rest p cur result c :
  In c result -> In c (extend_combination rest p cur result).
Proof.
  revert cur result. induction rest as [| t rest IH]; intros cur result Hin.
  - exact Hin.
  - rewrite extend_combination_cons. apply IH.
    destruct (p <=? currentCapacity (cur ++ [t])) eqn:Hfound.
    + destruct (5 <=? length (result ++ [cur ++ [t]]))%nat.
      * apply in_or_app. by left.
      * apply IH. apply in_or_app. by left.
    + by apply IH.
Qed.

Lemma extend_combination_length rest p cur result :
  (length result <= length (extend_combination rest p cur result))%nat.
Proof.
  revert cur result. induction rest as [| t rest IH]; intros cur result.
  - reflexivity.
  - rewrite extend_combination_cons. etransitivity; [| apply IH].
    destruct (p <=? currentCapacity (cur ++ [t])) eqn:Hfound.
    + destruct (5 <=? length (result ++ [cur ++ [t]]))%nat.
      * rewrite length_app. simpl. lia.
      * etransitivity; [| apply IH]. rewrite length_app. simpl. lia.
    + apply IH.
Qed.

(** What the search pushes extends the current combination by tables taken,
    in order, from the ones still to try, and seats the party. *)
Lemma extend_combination_sound rest p cur result c :
  In c (extend_combination rest p cur result) ->
  In c result
  \/ exists sub, sub <> [] /\ sublist sub rest /\ c = cur ++ sub
                 /\ p <= currentCapacity c.
Proof.
  revert cur result. induction rest as [| t rest IH]; intros cur result Hin.
  - by left.
  - rewrite extend_combination_cons in Hin.
    apply IH in Hin as [Hin | (sub & Hne & Hsub & -> & Hcap)].
    + assert (Hin1 : In c (if p <=? currentCapacity (cur ++ [t])
                           then result ++ [cur ++ [t]] else result) ->
                     In c result
                     \/ exists sub, sub <> [] /\ sublist sub (t :: rest)
                                    /\ c = cur ++ sub
                                    /\ p <= currentCapacity c).
      { destruct (p <=? currentCapacity (cur ++ [t])) eqn:Hfound;
          [| by left].
        intros Hc. apply in_app_or in Hc as [Hc | [<- | []]]; [by left |].
        right. exists [t]. split; [done |]. split.
        - apply sublist_skip, sublist_nil_l.
        - split; [reflexivity | by apply Z.leb_le]. }
      destruct (p <=? currentCapacity (cur ++ [t])) eqn:Hfound.
      * destruct (5 <=? length (result ++ [cur ++ [t]]))%nat;
          [by apply Hin1 |].
        apply IH in Hin as [Hin | (sub & Hne & Hsub & -> & Hcap)];
          [by apply Hin1 |].
        right. exists (t :: sub). split; [done |]. split.
        -- by apply sublist_skip.
        -- split; [by rewrite <- app_assoc | exact Hcap].
      * apply IH in Hin as [Hin | (sub & Hne & Hsub & -> & Hcap)];
          [by left |].
        right. exists (t :: sub). split; [done |]. split.
        -- by apply sublist_skip.
        -- split; [by rewrite <- app_assoc | exact Hcap].
    + right. exists sub. split; [exact Hne |]. split.
      * by apply sublist_cons.
      * split; [reflexivity | exact Hcap].
Qed.

(** If some extension of the current combination seats the party, the
    search pushes at least one combination. *)
Lemma extend_combination_finds rest p cur result sub :
  sub <> [] -> sublist sub rest -> p <= currentCapacity (cur ++ sub) ->
  (length result < length (extend_combination rest p cur result))%nat.
Proof.
  revert cur result sub.
  induction rest as [| t rest IH]; intros cur result sub Hne Hsub Hcap.
  - apply sublist_nil_r in Hsub. contradiction.
  - rewrite extend_combination_cons.
    apply sublist_cons_r in Hsub as [Hsub | (sub' & -> & Hsub)].
    + eapply Nat.le_lt_trans; [| by eapply IH].
      destruct (p <=? currentCapacity (cur ++ [t])).
      * destruct (5 <=? length (result ++ [cur ++ [t]]))%nat.
        -- rewrite length_app. simpl. lia.
        -- etransitivity; [| apply extend_combination_length].
           rewrite length_app. simpl. lia.
      * apply extend_combination_length.
    + eapply Nat.lt_le_trans; [| apply extend_combination_length].
      destruct (p <=? currentCapacity (cur ++ [t])) eqn:Hfound.
      * destruct (5 <=? length (result ++ [cur ++ [t]]))%nat.
        -- rewrite length_app. simpl. lia.
        -- eapply Nat.lt_le_trans; [| apply extend_combination_length].
           rewrite length_app. simpl. lia.
      * apply Z.leb_gt in Hfound.
        apply (IH _ _ sub').
        -- intros ->. lia.
        -- exact Hsub.
        -- by rewrite <- app_assoc.
Qed.

(** While fewer than 5 combinations were pushed in all, the search was
    never cut short: every extension that seats the party was pushed. *)
Lemma extend_combination_complete rest p cur result sub :
  (length (extend_combination rest p cur result) < 5)%nat ->
  sub <> [] -> sublist sub rest -> p <= currentCapacity (cur ++ sub) ->
  In (cur ++ sub) (extend_combination rest p cur result).
Proof.
  revert cur result sub.
  induction rest as [| t rest IH]; intros cur result sub Hlen Hne Hsub Hcap.
  - apply sublist_nil_r in Hsub. contradiction.
  - rewrite extend_combination_cons in *.
    apply sublist_cons_r in Hsub as [Hsub | (sub' & -> & Hsub)].
    + by apply IH.
    + apply extend_combination_keeps.
      pose proof (extend_combination_length rest p cur
                    (if p <=? currentCapacity (cur ++ [t])
                     then if (5 <=? length (result ++ [cur ++ [t]]))%nat
                          then result ++ [cur ++ [t]]
                          else extend_combination rest p (cur ++ [t])
                                 (result ++ [cur ++ [t]])
                     else extend_combination rest p (cur ++ [t]) result))
        as Hmono.
      destruct (p <=? currentCapacity (cur ++ [t])) eqn:Hfound.
      * destruct (5 <=? length (result ++ [cur ++ [t]]))%nat eqn:Hfive.
        -- apply Nat.leb_le in Hfive. lia.
        -- destruct sub' as [| t' sub'].
           ++ apply extend_combination_keeps, in_or_app. right. by left.
           ++ replace (cur ++ t :: t' :: sub')
                with ((cur ++ [t]) ++ t' :: sub')
                by (by rewrite <- app_assoc).
              apply IH; [lia | done | exact Hsub |].
              by rewrite <- app_assoc.
      * apply Z.leb_gt in Hfound.
        replace (cur ++ t :: sub') with ((cur ++ [t]) ++ sub')
          by (by rewrite <- app_assoc).
        apply IH; [lia | | exact Hsub | by rewrite <- app_assoc].
        intros ->. lia.
Qed.

(** X1: every combination [findTableCombinations] returns is a non-empty
    selection of the given tables, in their order, whose capacities add up
    to the party size or more. *)
Theorem findTableCombinations_sound tables' p c :
  In c (findTableCombinations tables' p) ->
  c <> [] /\ sublist c tables' /\ p <= currentCapacity c.
Proof.
  intros Hin. apply extend_combination_sound in Hin
    as [[] | (sub & Hne & Hsub & -> & Hcap)].
  simpl. done.
Qed.

(** X2: [findTableCombinations] returns no combination exactly when no
    non-empty selection of the tables seats the party. *)
Theorem findTableCombinations_empty_iff tables' p :
  findTableCombinations tables' p = []
  <-> (forall c, c <> [] -> sublist c tables' -> currentCapacity c < p).
Proof.
  split.
  - intros Hnone c Hne Hsub.
    destruct (decide (p <= currentCapacity c)) as [Hcap | Hcap]; [| lia].
    pose proof (extend_combination_finds tables' p [] [] c Hne Hsub Hcap)
      as Hlen.
    fold (findTableCombinations tables' p) in Hlen. rewrite Hnone in Hlen.
    simpl in Hlen. lia.
  - intros Hnone.
    destruct (findTableCombinations tables' p) as [| c cs] eqn:Hres;
      [reflexivity |].
    assert (Hin : In c (findTableCombinations tables' p))
      by (rewrite Hres; by left).
    apply extend_combination_sound in Hin
      as [[] | (sub & Hne & Hsub & -> & Hcap)].
    specialize (Hnone sub Hne Hsub). simpl in Hcap. lia.
Qed.

(** X3: the limit of 5 only ends the call that pushed the fifth
    combination; when fewer than 5 combinations come back, they are all
    there are. *)
Theorem findTableCombinations_complete tables' p c :
  (length (findTableCombinations tables' p) < 5)%nat ->
  c <> [] -> sublist c tables' -> p <= currentCapacity c ->
  In c (findTableCombinations tables' p).
Proof.
  intros Hlen Hne Hsub Hcap.
  by apply (extend_combination_complete tables' p [] [] c).
Qed.

Lemma currentCapacity_sublist c l :
  sublist c l -> Forall (fun t => 0 <= capacity t) l ->
  currentCapacity c <= currentCapacity l.
Proof.
  induction 1 as [| t c l Hsub IH | t c l Hsub IH]; intros Hall.
  - reflexivity.
  - apply Forall_cons in Hall as [Ht Hall].
    rewrite !currentCapacity_cons. specialize (IH Hall). lia.
  - apply Forall_cons in Hall as [Ht Hall].
    rewrite currentCapacity_cons. specialize (IH Hall). lia.
Qed.

(** X4: with capacities that are not negative, a combination is found
    exactly when there is a table at all and all tables together seat the
    party. *)
Theorem findTableCombinations_available tables' p :
  Forall (fun t => 0 <= capacity t) tables' ->
  findTableCombinations tables' p <> []
  <-> tables' <> [] /\ p <= currentCapacity tables'.
Proof.
  intros Hall. split.
  - intros Hsome.
    destruct (findTableCombinations tables' p) as [| c cs] eqn:Hres;
      [done |].
    assert (Hin : In c (findTableCombinations tables' p))
      by (rewrite Hres; by left).
    apply extend_combination_sound in Hin
      as [[] | (sub & Hne & Hsub & -> & Hcap)].
    pose proof (currentCapacity_sublist sub tables' Hsub Hall) as Hle.
    simpl in Hcap. split; [| lia].
    intros ->. apply sublist_nil_r in Hsub. contradiction.
  - intros [Hne Hcap] Hnone.
    pose proof (extend_combination_finds tables' p [] [] tables' Hne
                  (reflexivity _) Hcap) as Hlen.
    fold (findTableCombinations tables' p) in Hlen. rewrite Hnone in Hlen.
    simpl in Hlen. lia.
Qed.

Lemma findTableCombinations_sound_witness :
  In [SampleTables.t6; SampleTables.t2]
     (findTableCombinations SampleTables.all 7)
  /\ sublist [SampleTables.t6; SampleTables.t2] SampleTables.all
  /\ 7 <= currentCapacity [SampleTables.t6; SampleTables.t2].
Proof.
  assert (Hin : In [SampleTables.t6; SampleTables.t2]
                   (findTableCombinations SampleTables.all 7))
    by (vm_compute; right; right; left; reflexivity).
  split; [exact Hin |].
  exact (proj2 (findTableCombinations_sound _ _ _ Hin)).
Defined.

Lemma findTableCombinations_complete_witness :
  (length (findTableCombinations SampleTables.all 7) < 5)%nat
  /\ In [SampleTables.t6; SampleTables.t4]
        (findTableCombinations SampleTables.all 7).
Proof.
  assert (Hlen : (length (findTableCombinations SampleTables.all 7) < 5)%nat)
    by (vm_compute; lia).
  split; [exact Hlen |].
  apply (findTableCombinations_complete _ _ _ Hlen).
  - discriminate.
  - apply sublist_skip, sublist_skip, sublist_cons, sublist_nil_l.
  - vm_compute. discriminate.
Defined.

Lemma findTableCombinations_available_witness :
  Forall (fun t => 0 <= capacity t) SampleTables.all
  /\ findTableCombinations SampleTables.all 12 <> []
  /\ findTableCombinations SampleTables.all 13 = [].
Proof.
  assert (Hall : Forall (fun t => 0 <= capacity t) SampleTables.all)
    by (repeat constructor; vm_compute; discriminate).
  split; [exact Hall |]. split.
  - apply (findTableCombinations_available _ 12 Hall).
    split; [discriminate | vm_compute; discriminate].
  - destruct (findTableCombinations SampleTables.all 13) as [| c cs] eqn:Hres;
      [reflexivity |].
    assert (Hsome : findTableCombinations SampleTables.all 13 <> [])
      by (rewrite Hres; discriminate).
    apply (findTableCombinations_available _ 13 Hall) in Hsome as [_ Hcap].
    vm_compute in Hcap. contradiction.
Defined.

End TableCombinations.

(** ** Tax and total of every order *)

Section Totals.

Local Open Scope Q_scope.

Lemma totals_consistent_frame db db' :
  totals_consistent db ->
  restaurants db' = restaurants db ->
  orders db' = orders db ->
  totals_consistent db'.
Proof.
  intros Hok Hr Ho oid o. rewrite Hr, Ho. exact (Hok oid o).
Qed.

Lemma totals_consistent_insert db db' id o' :
  totals_consistent db ->
  restaurants db' = restaurants db ->
  orders db' = <[id := o']> (orders db) ->
  (exists r, restaurants db !! restaurantId o' = Some r
             /\ JS.or0 (tip o') == 0
             /\ tax o' == subtotal o' * taxRate r / 100
             /\ total o' == subtotal o' + tax o') ->
  totals_consistent db'.
Proof.
  intros Hok Hr Ho Hnew oid o. rewrite Hr, Ho. intros Hlook.
  destruct (decide (id = oid)) as [<- | Hne].
  - rewrite lookup_insert_eq in Hlook. injection Hlook as <-. exact Hnew.
  - rewrite lookup_insert_ne in Hlook by done. exact (Hok oid o Hlook).
Qed.

(** A status write keeps the amounts. *)
Lemma totals_of_status db id o s done :
  totals_consistent db -> orders db !! id = Some o ->
  exists r, restaurants db !! restaurantId (order_with_status s done o) = Some r
            /\ JS.or0 (tip (order_with_status s done o)) == 0
            /\ tax (order_with_status s done o)
               == subtotal (order_with_status s done o) * taxRate r / 100
            /\ total (order_with_status s done o)
               == subtotal (order_with_status s done o)
                  + tax (order_with_status s done o).
Proof. intros Hok Ho. exact (Hok id o Ho). Qed.

(** A write of recomputed totals: the tax is the rate applied to the new
    subtotal, the total their sum, with or without the (absent) tip. *)
Lemma totals_of_totals db id o r s t tot :
  totals_consistent db -> orders db !! id = Some o ->
  restaurants db !! restaurantId o = Some r ->
  t == s * taxRate r / 100 ->
  (tot == s + t \/ tot == s + t + JS.or0 (tip o)) ->
  exists r', restaurants db !! restaurantId (order_with_totals s t tot o)
             = Some r'
             /\ JS.or0 (tip (order_with_totals s t tot o)) == 0
             /\ tax (order_with_totals s t tot o)
                == subtotal (order_with_totals s t tot o) * taxRate r' / 100
             /\ total (order_with_totals s t tot o)
                == subtotal (order_with_totals s t tot o)
                   + tax (order_with_totals s t tot o).
Proof.
  intros Hok Ho Hr Ht Htot.
  destruct (Hok id o Ho) as (r0 & Hr0 & Htip & _).
  exists r. cbn [order_with_totals restaurantId tip tax subtotal total].
  split; [exact Hr |]. split; [exact Htip |]. split; [exact Ht |].
  destruct Htot as [-> | ->]; [reflexivity |]. rewrite Htip. ring.
Qed.

Ltac totals_leaf Hok :=
  simplify_eq;
  first
    [ exact Hok
    | solve [ eapply totals_consistent_frame;
              [exact Hok | reflexivity | reflexivity] ]
    | eapply totals_consistent_insert;
      [ exact Hok | reflexivity | reflexivity | ];
      first [ solve [eapply totals_of_status; eassumption]
            | eapply totals_of_totals;
              [ exact Hok | eassumption | eassumption
              | rewrite ?taxRate_or0_eq; unfold Qdiv; ring
              | first [left; reflexivity | right; reflexivity] ] ] ].

Lemma status_handlers_totals env u db :
  totals_consistent db ->
  (forall id s, totals_consistent (exec (updateOrderStatus env u id s) db))
  /\ (forall id, totals_consistent (exec (cancelOrder env u id) db))
  /\ (forall id s, totals_consistent (exec (updateOrderItemStatus u id s) db))
  /\ (forall id s,
        totals_consistent (exec (updateKitchenOrderStatus u id s) db)).
Proof.
  intros Hok. split; [| split; [| split]].
  - intros id s.
    change (wp (updateOrderStatus env u id s)
              (fun _ db' => totals_consistent db') db).
    unfold updateOrderStatus, release_table, update_order, update_table.
    wp_steps; try done; totals_leaf Hok.
  - intros id.
    change (wp (cancelOrder env u id)
              (fun _ db' => totals_consistent db') db).
    unfold cancelOrder, release_table, update_order, update_table.
    wp_steps; try done; totals_leaf Hok.
  - intros id s.
    change (wp (updateOrderItemStatus u id s)
              (fun _ db' => totals_consistent db') db).
    unfold updateOrderItemStatus, update_order, update_orderItem.
    wp_steps; try done; totals_leaf Hok.
  - intros id s.
    change (wp (updateKitchenOrderStatus u id s)
              (fun _ db' => totals_consistent db') db).
    unfold updateKitchenOrderStatus, update_order, updateMany_item_status.
    wp_steps; try done; totals_leaf Hok.
Qed.

Lemma giftCard_handlers_totals env u db :
  totals_consistent db ->
  (forall req, totals_consistent (exec (createGiftCard env u req) db))
  /\ (forall c a oid,
        totals_consistent (exec (redeemGiftCard env u c a oid) db))
  /\ (forall id a notes,
        totals_consistent (exec (addFunds u id a notes) db))
  /\ (forall id a, totals_consistent (exec (updateGiftCardStatus u id a) db)).
Proof.
  intros Hok. split; [| split; [| split]].
  - intros req.
    change (wp (createGiftCard env u req)
              (fun _ db' => totals_consistent db') db).
    unfold createGiftCard, create_transaction.
    wp_steps; try done; totals_leaf Hok.
  - intros c a oid.
    change (wp (redeemGiftCard env u c a oid)
              (fun _ db' => totals_consistent db') db).
    unfold redeemGiftCard, create_transaction, update_giftCard.
    wp_steps; try done; totals_leaf Hok.
  - intros id a notes.
    change (wp (addFunds u id a notes)
              (fun _ db' => totals_consistent db') db).
    unfold addFunds, create_transaction, update_giftCard.
    wp_steps; try done; totals_leaf Hok.
  - intros id a.
    change (wp (updateGiftCardStatus u id a)
              (fun _ db' => totals_consistent db') db).
    unfold updateGiftCardStatus, create_transaction, update_giftCard.
    wp_steps; try done; totals_leaf Hok.
Qed.

Lemma voucher_handlers_totals env u db :
  totals_consistent db ->
  (forall req, totals_consistent (exec (createVoucher env u req) db))
  /\ (forall c oid, totals_consistent (exec (applyVoucher env u c oid) db))
  /\ (forall oid, totals_consistent (exec (removeVoucher u oid) db)).
Proof.
  intros Hok. split; [| split].
  - intros req.
    change (wp (createVoucher env u req)
              (fun _ db' => totals_consistent db') db).
    unfold createVoucher. wp_steps; try done; totals_leaf Hok.
  - intros c oid.
    change (wp (applyVoucher env u c oid)
              (fun _ db' => totals_consistent db') db).
    unfold applyVoucher, update_order, update_voucher, restaurant_taxRate.
    wp_steps; try done; totals_leaf Hok.
  - intros oid.
    change (wp (removeVoucher u oid) (fun _ db' => totals_consistent db') db).
    unfold removeVoucher, update_order, update_voucher, restaurant_taxRate.
    wp_steps; try done; totals_leaf Hok.
Qed.

Lemma item_handlers_totals u db :
  totals_consistent db ->
  (forall oid iid q s,
      totals_consistent (exec (updateOrderItem u oid iid q s) db))
  /\ (forall oid iid, totals_consistent (exec (removeOrderItem u oid iid) db)).
Proof.
  intros Hok. split.
  - intros oid iid q s.
    change (wp (updateOrderItem u oid iid q s)
              (fun _ db' => totals_consistent db') db).
    unfold updateOrderItem, update_order, update_orderItem, restaurant_taxRate.
    wp_steps; try done; totals_leaf Hok.
  - intros oid iid.
    change (wp (removeOrderItem u oid iid)
              (fun _ db' => totals_consistent db') db).
    unfold removeOrderItem, update_order, restaurant_taxRate.
    wp_steps; try done; totals_leaf Hok.
Qed.

Lemma addOrderItems_totals u id items db :
  totals_consistent db -> totals_consistent (exec (addOrderItems u id items) db).
Proof.
  intros Hok.
  change (wp (addOrderItems u id items)
            (fun _ db' => totals_consistent db') db).
  unfold addOrderItems, update_order, restaurant_taxRate.
  wp_steps; try done.
  all: apply wp_create_items; intros [? | []] its rows ? Hcreated;
    wp_steps.
  all: totals_leaf Hok.
Qed.

Lemma createOrder_totals_kept u req db :
  totals_consistent db -> totals_consistent (exec (createOrder u req) db).
Proof.
  intros Hok.
  change (wp (createOrder u req) (fun _ db' => totals_consistent db') db).
  unfold createOrder, update_table.
  wp_steps; try done; try (totals_leaf Hok).
  all: apply wp_create_items; intros [? | []] its rows ? Hcreated;
    wp_steps.
  all: try totals_leaf Hok.
  all: eapply totals_consistent_insert;
    [ exact Hok | reflexivity | reflexivity | ].
  all: exists r; cbn [restaurantId tip tax subtotal total].
  all: split; [eassumption |]; split; [reflexivity |].
  all: split; [rewrite taxRate_or0_eq; unfold Qdiv; ring | reflexivity].
Qed.

Lemma serve_totals env u r db :
  totals_consistent db -> totals_consistent (serve env u r db).
Proof.
  intros Hok. destruct r; simpl.
  - by apply createOrder_totals_kept.
  - by apply (status_handlers_totals env u db Hok).
  - by apply addOrderItems_totals.
  - by apply (item_handlers_totals u db Hok).
  - by apply (item_handlers_totals u db Hok).
  - by apply (status_handlers_totals env u db Hok).
  - by apply (status_handlers_totals env u db Hok).
  - by apply (status_handlers_totals env u db Hok).
  - by apply (voucher_handlers_totals env u db Hok).
  - by apply (voucher_handlers_totals env u db Hok).
  - by apply (voucher_handlers_totals env u db Hok).
  - by apply (giftCard_handlers_totals env u db Hok).
  - by apply (giftCard_handlers_totals env u db Hok).
  - by apply (giftCard_handlers_totals env u db Hok).
  - by apply (giftCard_handlers_totals env u db Hok).
Qed.

Lemma serve_all_totals rs db :
  totals_consistent db -> totals_consistent (serve_all rs db).
Proof.
  revert db. induction rs as [| [[env u] r] rs IH]; intros db Hok; simpl.
  - exact Hok.
  - apply IH. by apply serve_totals.
Qed.

Lemma totals_consistent_empty db : orders db = ∅ -> totals_consistent db.
Proof. intros Hempty oid o Ho. rewrite Hempty in Ho. done. Qed.

(** C2: [createOrder], [addOrderItems], [updateOrderItem] and
    [removeOrderItem] write [total = subtotal + tax], [applyVoucher] and
    [removeVoucher] write [subtotal + tax + (order.tip || 0)], and no
    handler writes the tip, which [createOrder] leaves absent.  So from a
    database whose orders carry no tip and have the tax of their
    restaurant and the total [subtotal + tax] (one without orders, for
    instance), after any sequence of requests, accepted or refused, every
    order satisfies [total == subtotal + tax + (tip or 0)]. *)
Theorem total_is_subtotal_tax_tip rs db oid o :
  totals_consistent db ->
  orders (serve_all rs db) !! oid = Some o ->
  total o == subtotal o + tax o + JS.or0 (tip o).
Proof.
  intros Hok Ho.
  destruct (serve_all_totals rs db Hok oid o Ho) as (r & _ & Htip & _ & Htot).
  rewrite Htot, Htip. ring.
Qed.

(** Order 10 is created with two items, a third is added, the quantity of
    the first is changed, the second is removed, and a 10% voucher is
    created, applied and removed: the subtotal goes through 30.00, 30.99,
    40.99, 30.99 and 27.89 and ends at 30.99. *)
Lemma total_is_subtotal_tax_tip_witness :
  totals_consistent Sample.db0
  /\ exists o,
       orders
         (serve_all
            [(Sample.env, Sample.server, CreateOrder Sample.two_items);
             (Sample.env, Sample.server,
              AddOrderItems 10%nat [Sample.item 3%nat 1%Z]);
             (Sample.env, Sample.server,
              UpdateOrderItem 10%nat 11%nat (Some 3%Z) None);
             (Sample.env, Sample.server, RemoveOrderItem 10%nat 12%nat);
             (Sample.env, Sample.manager,
              CreateVoucher (Sample.voucher_req PERCENTAGE 10));
             (Sample.env, Sample.server, ApplyVoucher "SAVE" 10%nat);
             (Sample.env, Sample.manager, RemoveVoucher 10%nat)]
            Sample.db0) !! 10%nat = Some o
       /\ total o == subtotal o + tax o + JS.or0 (tip o)
       /\ subtotal o == 3099 # 100.
Proof.
  assert (Hok : totals_consistent Sample.db0)
    by (apply totals_consistent_empty; reflexivity).
  split; [exact Hok |].
  set (rs := [(Sample.env, Sample.server, CreateOrder Sample.two_items);
              (Sample.env, Sample.server,
               AddOrderItems 10%nat [Sample.item 3%nat 1%Z]);
              (Sample.env, Sample.server,
               UpdateOrderItem 10%nat 11%nat (Some 3%Z) None);
              (Sample.env, Sample.server, RemoveOrderItem 10%nat 12%nat);
              (Sample.env, Sample.manager,
               CreateVoucher (Sample.voucher_req PERCENTAGE 10));
              (Sample.env, Sample.server, ApplyVoucher "SAVE" 10%nat);
              (Sample.env, Sample.manager, RemoveVoucher 10%nat)]).
  destruct (orders (serve_all rs Sample.db0) !! 10%nat) as [o |] eqn:Ho;
    [| vm_compute in Ho; discriminate].
  pose proof (total_is_subtotal_tax_tip rs Sample.db0 10%nat o Hok Ho)
    as Htotal.
  exists o. split; [reflexivity |]. split; [exact Htotal |].
  vm_compute in Ho. injection Ho as <-. reflexivity.
Defined.

(** X5: in a database where no order carries a tip and every order's tax is
    its restaurant's rate applied to its subtotal and its total the sum of
    the two, the same holds after any sequence of requests of the order,
    kitchen, voucher and gift-card handlers, whoever sends them and whether
    they are accepted or refused: every handler that writes an order's
    amounts recomputes tax and total from the subtotal it writes. *)
Theorem totals_stay_consistent rs db :
  totals_consistent db -> totals_consistent (serve_all rs db).
Proof.
  revert db. induction rs as [| [[env u] r] rs IH]; intros db Hok; simpl.
  - exact Hok.
  - apply IH. by apply serve_totals.
Qed.


(** Order 10 is created, an item is added, a 10% voucher is created,
    applied and removed again. *)
Lemma totals_stay_consistent_witness :
  totals_consistent Sample.db0
  /\ totals_consistent
       (serve_all
          [(Sample.env, Sample.server, CreateOrder Sample.two_items);
           (Sample.env, Sample.server, AddOrderItems 10%nat [Sample.item 3%nat 1%Z]);
           (Sample.env, Sample.manager,
            CreateVoucher (Sample.voucher_req PERCENTAGE 10));
           (Sample.env, Sample.server, ApplyVoucher "SAVE" 10%nat);
           (Sample.env, Sample.manager, RemoveVoucher 10%nat)]
          Sample.db0).
Proof.
  assert (Hok : totals_consistent Sample.db0).
  { intros oid o Ho. vm_compute in Ho. discriminate. }
  split; [exact Hok |].
  exact (totals_stay_consistent _ _ Hok).
Defined.

End Totals.

(** ** Requests for another restaurant's order *)

Section Tenants.

(** X6: a user who is not an administrator and whose restaurant is not the
    order's gets no write through any handler that takes the order: each
    one answers with a refusal and leaves the database as it was.  The
    refusal is 403 'Not authorized' except where the handler checks the
    request body first (the status name, the item list, the voucher code,
    the payment amount). *)
Theorem foreign_user_changes_nothing env u db oid order :
  orders db !! oid = Some order ->
  foreign u (restaurantId order) = true ->
  (forall s, exists f,
      updateOrderStatus env u oid s db = (inl f, db)
      /\ (f = InvalidStatus \/ f = NotAuthorized))
  /\ (forall items, exists f,
        addOrderItems u oid items db = (inl f, db)
        /\ (f = ValidationErrors \/ f = NotAuthorized))
  /\ (forall iid q s,
        updateOrderItem u oid iid q s db = (inl NotAuthorized, db))
  /\ (forall iid, removeOrderItem u oid iid db = (inl NotAuthorized, db))
  /\ cancelOrder env u oid db = (inl NotAuthorized, db)
  /\ (forall iid it s,
        orderItems db !! iid = Some it -> orderId it = oid ->
        exists f,
          updateOrderItemStatus u iid s db = (inl f, db)
          /\ (f = InvalidStatus \/ f = NotAuthorized))
  /\ (forall s, exists f,
        updateKitchenOrderStatus u oid s db = (inl f, db)
        /\ (f = InvalidKitchenStatus \/ f = NotAuthorized))
  /\ (forall c, exists f,
        applyVoucher env u c oid db = (inl f, db)
        /\ (f = ValidationErrors \/ f = NotAuthorized))
  /\ removeVoucher u oid db = (inl NotAuthorized, db)
  /\ (forall a m, exists f,
        createPayment env u oid a m db = (PaymentRefused f, db)
        /\ (f = ValidationErrors \/ f = NotAuthorized))
  /\ (forall pid p,
        List.find (fun p => payment_id p =? pid) (payments db) = Some p ->
        payment_orderId p = oid ->
        refundPayment u pid db = (RefundRefused NotAuthorized, db))
  /\ getOrderPaymentSummary u oid db = inl NotAuthorized.
Proof.
  intros Horder Hforeign.
  repeat match goal with |- _ /\ _ => split end.
  - intros s. unfold updateOrderStatus.
    destruct (OrderStatus.of_string s) as [st |]; [| by eauto].
    exists NotAuthorized. split; [| by right].
    unfold bind, get, reject_if, fail. by rewrite Horder, Hforeign.
  - intros items. unfold addOrderItems, bind, get, reject_if, fail, ret.
    destruct (negb (orderItems_valid items)); [by eauto |].
    rewrite Horder, Hforeign. by eauto.
  - intros iid q s. unfold updateOrderItem, bind, get, reject_if, fail.
    by rewrite Horder, Hforeign.
  - intros iid. unfold removeOrderItem, bind, get, reject_if, fail.
    by rewrite Horder, Hforeign.
  - unfold cancelOrder, bind, get, reject_if, fail.
    by rewrite Horder, Hforeign.
  - intros iid it s Hit Hown. unfold updateOrderItemStatus.
    destruct (ItemStatus.of_string s) as [st |]; [| by eauto].
    exists NotAuthorized. split; [| by right].
    unfold bind, get, reject_if, fail.
    by rewrite Hit, Hown, Horder, Hforeign.
  - intros s. unfold updateKitchenOrderStatus, bind, get, reject_if, fail, ret.
    destruct (String.eqb s "PREPARING");
      [rewrite Horder, Hforeign; by eauto |].
    destruct (String.eqb s "READY");
      [rewrite Horder, Hforeign; by eauto |].
    by eauto.
  - intros c. unfold applyVoucher, bind, get, reject_if, fail, ret.
    destruct (String.eqb c ""); [by eauto |].
    rewrite Horder, Hforeign. by eauto.
  - unfold removeVoucher, bind, get, reject_if, fail.
    by rewrite Horder, Hforeign.
  - intros a m. unfold createPayment.
    destruct (negb (Qle_bool (1 # 100) a)); [by eauto |].
    rewrite Horder, Hforeign. by eauto.
  - intros pid p Hp Hown. unfold refundPayment.
    by rewrite Hp, Hown, Horder, Hforeign.
  - unfold getOrderPaymentSummary. by rewrite Horder, Hforeign.
Qed.

(** A server of restaurant 1 asks for order 10 of restaurant 0. *)
Lemma foreign_user_changes_nothing_witness :
  cancelOrder Sample.env SampleUsers.outsider 10%nat Sample.db_order
  = (inl NotAuthorized, Sample.db_order)
  /\ removeOrderItem SampleUsers.outsider 10%nat 11%nat Sample.db_order
     = (inl NotAuthorized, Sample.db_order)
  /\ getOrderPaymentSummary SampleUsers.outsider 10%nat Sample.db_order
     = inl NotAuthorized.
Proof.
  destruct (orders Sample.db_order !! 10%nat) as [order |] eqn:Horder;
    [| vm_compute in Horder; discriminate].
  pose proof (foreign_user_changes_nothing Sample.env SampleUsers.outsider
                Sample.db_order 10%nat order Horder) as H.
  vm_compute in Horder. injection Horder as <-.
  destruct (H eq_refl)
    as (_ & _ & _ & Hremove & Hcancel & _ & _ & _ & _ & _ & _ & Hsummary).
  split; [exact Hcancel |]. split; [exact (Hremove 11%nat) | exact Hsummary].
Defined.

End Tenants.

(** ** Orders and their tables *)

Section TablesOfOrders.

(** The count leaves the order itself out, so a write to that order does
    not change it. *)
Lemma activeOrders_insert db oid o' tid :
  activeOrders (set_orders (insert oid o') db) tid oid
  = activeOrders db tid oid.
Proof.
  unfold activeOrders. db_simpl.
  rewrite map_filter_insert_not; [reflexivity |].
  intros y (_ & _ & Hne). by apply Hne.
Qed.

Lemma activeOrders_zero db tid oid :
  activeOrders db tid oid = 0
  <-> (forall k o, orders db !! k = Some o -> tableId o = Some tid ->
                   OrderStatus.active (status o) = true -> k = oid).
Proof.
  unfold activeOrders. rewrite map_size_empty_iff, map_empty_filter.
  split.
  - intros Hall k o Hk Htid Hactive.
    destruct (decide (k = oid)) as [| Hne]; [done |].
    exfalso. apply (Hall k o Hk). simpl. rewrite Hactive. done.
  - intros Hall k o Hk (Htid & Hactive & Hne). simpl in *.
    apply Hne, (Hall k o Hk Htid).
    by destruct (OrderStatus.active (status o)).
Qed.

Lemma cancelOrder_run env u db oid order tid t :
  orders db !! oid = Some order ->
  foreign u (restaurantId order) = false ->
  OrderStatus.editable (status order) = true ->
  tableId order = Some tid ->
  tables db !! tid = Some t ->
  answer (cancelOrder env u oid) db = inr tt
  /\ orders (exec (cancelOrder env u oid) db)
     = <[oid := order_with_status OrderStatus.CANCELLED (Some (clock env))
                                  order]> (orders db)
  /\ tables (exec (cancelOrder env u oid) db) !! tid
     = Some (if activeOrders db tid oid =? 0
             then table_with_status AVAILABLE t else t).
Proof.
  intros Horder Hforeign Heditable Htid Ht.
  change (wp (cancelOrder env u oid)
            (fun r db' =>
               r = inr tt
               /\ orders db'
                  = <[oid := order_with_status OrderStatus.CANCELLED
                                               (Some (clock env)) order]>
                      (orders db)
               /\ tables db' !! tid
                  = Some (if activeOrders db tid oid =? 0
                          then table_with_status AVAILABLE t else t)) db).
  unfold cancelOrder, release_table, update_order, update_table.
  wp_steps; simplify_eq; try done.
  all: try congruence.
  all: try (rewrite Heditable in *; discriminate).
  all: match goal with
       | H : (activeOrders _ _ _ =? 0) = _ |- _ =>
           rewrite activeOrders_insert in H; rewrite H
       end.
  all: rewrite ?lookup_insert_eq; done.
Qed.

(** X7: [cancelOrder] on an order seated at a table.  An order that is
    COMPLETED, SERVED or already CANCELLED is refused and nothing is
    written.  A PENDING, PREPARING or READY order becomes CANCELLED with
    the clock reading as [completedAt]; its table becomes AVAILABLE when
    no other order on it is active, and is left as it is when one is. *)
Theorem cancelOrder_frees_table env u db oid order tid t :
  orders db !! oid = Some order ->
  foreign u (restaurantId order) = false ->
  tableId order = Some tid ->
  tables db !! tid = Some t ->
  (OrderStatus.editable (status order) = false ->
   cancelOrder env u oid db = (inl (CannotCancel (status order)), db))
  /\ (OrderStatus.editable (status order) = true ->
      answer (cancelOrder env u oid) db = inr tt
      /\ orders (exec (cancelOrder env u oid) db)
         = <[oid := order_with_status OrderStatus.CANCELLED
                                      (Some (clock env)) order]> (orders db)
      /\ ((forall k o, orders db !! k = Some o -> tableId o = Some tid ->
                       OrderStatus.active (status o) = true -> k = oid) ->
          tables (exec (cancelOrder env u oid) db) !! tid
          = Some (table_with_status AVAILABLE t))
      /\ ((exists k o, orders db !! k = Some o /\ tableId o = Some tid
                       /\ OrderStatus.active (status o) = true /\ k <> oid) ->
          tables (exec (cancelOrder env u oid) db) !! tid = Some t)).
Proof.
  intros Horder Hforeign Htid Ht. split.
  - intros Heditable.
    unfold cancelOrder, bind, get, reject_if, fail.
    by rewrite Horder, Hforeign, Heditable.
  - intros Heditable.
    destruct (cancelOrder_run env u db oid order tid t Horder Hforeign
                Heditable Htid Ht) as (Hanswer & Horders & Htable).
    split; [exact Hanswer |]. split; [exact Horders |]. split.
    + intros Hsole. apply activeOrders_zero in Hsole.
      by rewrite Htable, Hsole.
    + intros (k & o & Hk & Hktid & Hactive & Hne).
      rewrite Htable.
      destruct (activeOrders db tid oid =? 0) eqn:E; [| reflexivity].
      apply Nat.eqb_eq in E.
      pose proof (proj1 (activeOrders_zero db tid oid) E k o Hk Hktid Hactive).
      done.
Qed.

(** Order 10, alone at table 4, is cancelled. *)
Lemma cancelOrder_frees_table_witness :
  answer (cancelOrder Sample.env Sample.server 10%nat) SampleUsers.db_seated
  = inr tt
  /\ exists t,
       tables (exec (cancelOrder Sample.env Sample.server 10%nat)
                    SampleUsers.db_seated) !! 4%nat = Some t
       /\ table_status t = AVAILABLE.
Proof.
  destruct (orders SampleUsers.db_seated !! 10%nat) as [order |] eqn:Horder;
    [| vm_compute in Horder; discriminate].
  destruct (tables SampleUsers.db_seated !! 4%nat) as [t |] eqn:Ht;
    [| vm_compute in Ht; discriminate].
  pose proof (fun Hforeign Htid =>
                cancelOrder_frees_table Sample.env Sample.server
                  SampleUsers.db_seated 10%nat order 4%nat t Horder
                  Hforeign Htid Ht) as H.
  vm_compute in Horder, Ht. injection Horder as <-. injection Ht as <-.
  destruct (H eq_refl eq_refl) as [_ Hcancel].
  destruct (Hcancel eq_refl) as (Hanswer & _ & Hfree & _).
  split; [exact Hanswer |].
  assert (Hsole : forall k o,
             orders SampleUsers.db_seated !! k = Some o ->
             tableId o = Some 4%nat ->
             OrderStatus.active (status o) = true -> k = 10%nat).
  { intros k o Hk _ _.
    assert (Hdom : dom (orders SampleUsers.db_seated) = {[ 10%nat ]})
      by (vm_compute; reflexivity).
    assert (Hin : k ∈ dom (orders SampleUsers.db_seated))
      by (apply elem_of_dom; by eexists).
    rewrite Hdom in Hin. by apply elem_of_singleton in Hin. }
  eexists. split; [exact (Hfree Hsole) | reflexivity].
Defined.

End TablesOfOrders.

(** ** Payments *)

Section Payments.

Local Open Scope Q_scope.

Lemma amount_with_status_from s ps acc :
  fold_left (fun sum p => if has_status s p then sum + payment_amount p
                          else sum) ps acc
  == acc + amount_with_status s ps.
Proof.
  unfold amount_with_status. revert acc.
  induction ps as [| p ps IH]; intros acc; simpl.
  - ring.
  - rewrite IH.
    rewrite (IH (if has_status s p then 0 + payment_amount p else 0)).
    generalize (fold_left
                  (fun sum p0 => if has_status s p0
                                 then sum + payment_amount p0 else sum)
                  ps 0).
    intros rest. destruct (has_status s p); lra.
Qed.

Lemma amount_with_status_cons s p ps :
  amount_with_status s (p :: ps)
  == (if has_status s p then payment_amount p else 0)
     + amount_with_status s ps.
Proof.
  unfold amount_with_status at 1. simpl. rewrite amount_with_status_from.
  destruct (has_status s p); ring.
Qed.

Lemma amount_with_status_app s ps qs :
  amount_with_status s (ps ++ qs)
  == amount_with_status s ps + amount_with_status s qs.
Proof.
  induction ps as [| p ps IH]; simpl.
  - change (amount_with_status s []) with 0. ring.
  - rewrite !amount_with_status_cons, IH. ring.
Qed.

(** The payments of each order after a COMPLETED row for [oid] was
    appended. *)
Lemma totalPaid_append db k p :
  payment_status p = PAY_COMPLETED ->
  totalPaid (List.filter (fun p => payment_orderId p =? k)
                         (payments db ++ [p]))
  == totalPaid (order_payments db k)
     + (if decide (k = payment_orderId p) then payment_amount p else 0).
Proof.
  intros Hstatus. unfold totalPaid, order_payments.
  rewrite List.filter_app, amount_with_status_app. simpl.
  destruct (decide (k = payment_orderId p)) as [-> | Hne].
  - rewrite Nat.eqb_refl, amount_with_status_cons.
    unfold has_status. rewrite Hstatus.
    change (amount_with_status PAY_COMPLETED []) with 0. ring.
  - apply Nat.eqb_neq in Hne. rewrite Nat.eqb_sym, Hne.
    change (amount_with_status PAY_COMPLETED []) with 0. ring.
Qed.

(** What [settle_order] leaves of the orders and payments, whether or not
    it runs to its end. *)
Lemma settle_order_keeps env order oid db1 :
  wp (settle_order env order oid)
     (fun _ db2 =>
        payments db2 = payments db1
        /\ forall k o', orders db2 !! k = Some o' ->
             exists o, orders db1 !! k = Some o
                       /\ (o' = o
                           \/ (k = oid
                               /\ status order = OrderStatus.SERVED
                               /\ o' = order_with_status OrderStatus.COMPLETED
                                         (Some (clock env)) o)))
     db1.
Proof.
  unfold settle_order, release_table, update_order, update_table.
  wp_steps; simplify_eq.
  all: split; [reflexivity |]; intros k o' Hk.
  all: try (exists o'; split; [exact Hk | by left]).
  all: destruct (decide (k = oid)) as [-> | Hne];
    [ rewrite lookup_insert_eq in Hk; injection Hk as <-;
      eexists; split; [eassumption | right; done]
    | rewrite lookup_insert_ne in Hk by done;
      exists o'; split; [exact Hk | by left] ].
Qed.

Lemma within_total_keep db1 db2 :
  payments_within_total db1 ->
  payments db2 = payments db1 ->
  (forall k o', orders db2 !! k = Some o' ->
     exists o, orders db1 !! k = Some o /\ total o' = total o) ->
  payments_within_total db2.
Proof.
  intros Hok Hp Ho k o' Hk.
  destruct (Ho k o' Hk) as (o & Hk1 & ->).
  unfold order_payments. rewrite Hp. exact (Hok k o Hk1).
Qed.

(** X8: [createPayment] never lets the COMPLETED payments of an order
    exceed the order's total: if no order is overpaid before the request,
    none is after it, whatever the request and its answer. *)
Theorem createPayment_within_total env u oid a m db :
  payments_within_total db ->
  payments_within_total (snd (createPayment env u oid a m db)).
Proof.
  intros Hok. unfold createPayment.
  destruct (negb (Qle_bool (1 # 100) a)); [exact Hok |].
  destruct (orders db !! oid) as [order |] eqn:Horder; [| exact Hok].
  destruct (foreign u (restaurantId order)); [exact Hok |].
  destruct (OrderStatus.eqb (status order) OrderStatus.CANCELLED);
    [exact Hok |].
  destruct (JS.gt (totalPaid (order_payments db oid) + a) (total order))
    eqn:Hgt; [exact Hok |].
  apply negb_false_iff, Qle_bool_iff in Hgt.
  match goal with
  | |- context [set_payments ?f (set_nextId ?n db)] =>
      set (db1 := set_payments f (set_nextId n db))
  end.
  assert (Hok1 : payments_within_total db1).
  { intros k o Hk. unfold order_payments. subst db1. db_simpl.
    rewrite totalPaid_append by reflexivity.
    cbn [payment_amount payment_orderId].
    case_decide as Hd.
    - subst k. rewrite Horder in Hk. injection Hk as <-. exact Hgt.
    - pose proof (Hok k o Hk). lra. }
  assert (Hsettled : forall h : Handler unit,
             wp h (fun _ db2 =>
                     payments db2 = payments db1
                     /\ forall k o', orders db2 !! k = Some o' ->
                          exists o, orders db1 !! k = Some o
                                    /\ total o' = total o) db1 ->
             payments_within_total
               (snd (let '(r, db2) := h db1 in
                     match r with
                     | inl f => (PaymentRefused f, db2)
                     | inr _ =>
                         (PaymentCreated (nextId db)
                            (total order
                             - (totalPaid (order_payments db oid) + a))
                            (JS.ge (totalPaid (order_payments db oid) + a)
                                   (total order)),
                          db2)
                     end))).
  { intros h Hh. destruct (h db1) as [r db2] eqn:Hrun.
    destruct (wp_run _ _ _ _ _ Hh Hrun) as (Hp & Ho).
    assert (payments_within_total db2)
      by (eapply within_total_keep; eauto).
    by destruct r. }
  apply Hsettled.
  destruct (JS.ge (totalPaid (order_payments db oid) + a) (total order)).
  - eapply wp_mono; [| apply settle_order_keeps].
    intros r db2 (Hp & Ho). split; [exact Hp |].
    intros k o' Hk. destruct (Ho k o' Hk) as (o & Hk1 & [-> | (_ & _ & ->)]);
      exists o; done.
  - apply wp_ret. split; [reflexivity |]. intros k o' Hk. by exists o'.
Qed.

(** [settle_order] on a database that holds the order. *)
Lemma settle_order_result env order oid db1 o1 :
  orders db1 !! oid = Some o1 ->
  wp (settle_order env order oid)
     (fun r db2 =>
        payments db2 = payments db1
        /\ orders db2
           = match status order with
             | OrderStatus.SERVED =>
                 <[oid := order_with_status OrderStatus.COMPLETED
                                            (Some (clock env)) o1]>
                   (orders db1)
             | _ => orders db1
             end
        /\ (forall tid t, tableId order = Some tid ->
              tables db1 !! tid = Some t ->
              r = inr tt
              /\ tables db2 !! tid
                 = Some (if activeOrders db1 tid oid =? 0
                         then table_with_status AVAILABLE t else t)))
     db1.
Proof.
  intros Ho1.
  unfold settle_order, release_table, update_order, update_table.
  wp_steps; simplify_eq.
  all: rewrite ?activeOrders_insert in *.
  all: split; [reflexivity |]; split; [reflexivity |].
  all: intros tid' t' Htid' Ht'; simplify_eq.
  all: repeat match goal with
         | H : (activeOrders _ _ _ =? 0) = _ |- _ => rewrite H; clear H
         end.
  all: rewrite ?lookup_insert_eq; done.
Qed.

(** Where [createPayment] stops and what it has written by then. *)
Lemma createPayment_created env u oid a m db pid rem full db' :
  createPayment env u oid a m db = (PaymentCreated pid rem full, db') ->
  exists order,
    orders db !! oid = Some order
    /\ foreign u (restaurantId order) = false
    /\ OrderStatus.eqb (status order) OrderStatus.CANCELLED = false
    /\ totalPaid (order_payments db oid) + a <= total order
    /\ pid = nextId db
    /\ rem = total order - (totalPaid (order_payments db oid) + a)
    /\ full = JS.ge (totalPaid (order_payments db oid) + a) (total order)
    /\ payments db'
       = payments db ++ [{| payment_id := pid;
                            payment_amount := a;
                            payment_method := m;
                            payment_status := PAY_COMPLETED;
                            payment_orderId := oid;
                            payment_userId := user_id u |}]
    /\ orders db'
       = (if full
          then match status order with
               | OrderStatus.SERVED =>
                   <[oid := order_with_status OrderStatus.COMPLETED
                                              (Some (clock env)) order]>
                     (orders db)
               | _ => orders db
               end
          else orders db)
    /\ (forall tid t, tableId order = Some tid -> tables db !! tid = Some t ->
          tables db' !! tid
          = Some (if full && (activeOrders db tid oid =? 0)
                  then table_with_status AVAILABLE t else t)).
Proof.
  unfold createPayment.
  destruct (negb (Qle_bool (1 # 100) a)); [discriminate |].
  destruct (orders db !! oid) as [order |] eqn:Horder; [| discriminate].
  destruct (foreign u (restaurantId order)) eqn:Hforeign; [discriminate |].
  destruct (OrderStatus.eqb (status order) OrderStatus.CANCELLED) eqn:Hs;
    [discriminate |].
  destruct (JS.gt (totalPaid (order_payments db oid) + a) (total order))
    eqn:Hgt; [discriminate |].
  apply negb_false_iff, Qle_bool_iff in Hgt.
  match goal with
  | |- context [set_payments ?f (set_nextId ?n db)] =>
      set (db1 := set_payments f (set_nextId n db))
  end.
  destruct (JS.ge (totalPaid (order_payments db oid) + a) (total order))
    eqn:Hge.
  - destruct (settle_order env order oid db1) as [r db2] eqn:Hrun.
    assert (Ho1 : orders db1 !! oid = Some order) by exact Horder.
    destruct (wp_run _ _ _ _ _ (settle_order_result env order oid db1 order
                                  Ho1) Hrun)
      as (Hp & Ho & Ht).
    destruct r as [f | []]; [discriminate |].
    intros [= <- <- <- <-]. exists order.
    rewrite ?Hge.
    repeat match goal with |- _ /\ _ => split end; try done.
    intros tid t Htid Htable. simpl.
    exact (proj2 (Ht tid t Htid Htable)).
  - unfold ret. intros [= <- <- <- <-]. exists order.
    rewrite ?Hge.
    repeat match goal with |- _ /\ _ => split end; try done.
Qed.

(** X9: a payment that [createPayment] accepted shows in
    [getOrderPaymentSummary] of the same order: the summary's paid amount
    is the amount paid before plus the payment, and its remaining balance
    and fully-paid flag are the ones the payment's answer carried. *)
Theorem createPayment_then_summary env u oid a m db pid rem full db' :
  createPayment env u oid a m db = (PaymentCreated pid rem full, db') ->
  exists s,
    getOrderPaymentSummary u oid db' = inr s
    /\ summary_totalPaid s == totalPaid (order_payments db oid) + a
    /\ remainingBalance s == rem
    /\ isFullyPaid s = full
    /\ totalRefunded s
       == amount_with_status PAY_REFUNDED (order_payments db oid).
Proof.
  intros Hrun.
  destruct (createPayment_created _ _ _ _ _ _ _ _ _ _ Hrun)
    as (order & Horder & Hforeign & Hs & Hle & -> & -> & -> & Hp & Ho & _).
  assert (Hrow : exists o', orders db' !! oid = Some o'
                            /\ total o' = total order
                            /\ restaurantId o' = restaurantId order).
  { rewrite Ho.
    destruct (JS.ge _ _); [| by eauto].
    destruct (status order); try by eauto.
    rewrite lookup_insert_eq. by eauto. }
  destruct Hrow as (o' & Ho' & Htotal & Hrid).
  unfold getOrderPaymentSummary. rewrite Ho', Hrid, Hforeign.
  eexists. split; [reflexivity |].
  cbn [summary_totalPaid remainingBalance isFullyPaid totalRefunded].
  set (row := {| payment_id := nextId db; payment_amount := a;
                 payment_method := m; payment_status := PAY_COMPLETED;
                 payment_orderId := oid; payment_userId := user_id u |})
    in *.
  assert (Hps : order_payments db' oid
                = List.filter (fun p => payment_orderId p =? oid)
                              (payments db ++ [row]))
    by (unfold order_payments; rewrite Hp; reflexivity).
  rewrite Hps, Htotal.
  assert (Hpaid :
    totalPaid (List.filter (fun p => payment_orderId p =? oid)
                           (payments db ++ [row]))
    == totalPaid (order_payments db oid) + a).
  { rewrite totalPaid_append by reflexivity.
    cbn [row payment_amount payment_orderId].
    case_decide; [reflexivity | done]. }
  split; [exact Hpaid |]. split; [lra |]. split.
  - unfold JS.ge.
    apply eq_true_iff_eq. rewrite !Qle_bool_iff. split; intros; lra.
  - rewrite List.filter_app, amount_with_status_app. simpl.
    rewrite Nat.eqb_refl, amount_with_status_cons. simpl.
    change (amount_with_status PAY_REFUNDED []) with 0.
    unfold order_payments. ring.
Qed.

(** X10: [createPayment] changes no order except the one paid for, and
    that one only from SERVED to COMPLETED, when the payments now cover
    its total. *)
Theorem createPayment_completes_only_served env u oid a m db k o' :
  orders (snd (createPayment env u oid a m db)) !! k = Some o' ->
  exists o,
    orders db !! k = Some o
    /\ (o' = o
        \/ (k = oid
            /\ status o = OrderStatus.SERVED
            /\ total o <= totalPaid (order_payments db oid) + a
            /\ o' = order_with_status OrderStatus.COMPLETED
                      (Some (clock env)) o)).
Proof.
  unfold createPayment.
  destruct (negb (Qle_bool (1 # 100) a)); [by eauto |].
  destruct (orders db !! oid) as [order |] eqn:Horder; [| by eauto].
  destruct (foreign u (restaurantId order)); [by eauto |].
  destruct (OrderStatus.eqb (status order) OrderStatus.CANCELLED);
    [by eauto |].
  destruct (JS.gt (totalPaid (order_payments db oid) + a) (total order));
    [by eauto |].
  match goal with
  | |- context [set_payments ?f (set_nextId ?n db)] =>
      set (db1 := set_payments f (set_nextId n db))
  end.
  destruct (JS.ge (totalPaid (order_payments db oid) + a) (total order))
    eqn:Hge.
  - apply Qle_bool_iff in Hge.
    destruct (settle_order env order oid db1) as [r db2] eqn:Hrun.
    destruct (wp_run _ _ _ _ _ (settle_order_keeps env order oid db1) Hrun)
      as (_ & Ho).
    intros Hk.
    assert (Hk2 : orders db2 !! k = Some o') by (by destruct r).
    destruct (Ho k o' Hk2) as (o & Hk1 & [-> | (-> & Hs & ->)]).
    + exists o. split; [exact Hk1 | by left].
    + exists o. split; [exact Hk1 |]. right.
      assert (o = order) as -> by (change (orders db !! oid = Some o) in Hk1;
                                   congruence).
      done.
  - unfold ret. simpl. by eauto.
Qed.

(** X11: a payment that [createPayment] answers as the one that fully pays
    an order not yet served (PENDING, PREPARING or READY) releases the
    order's table when no other order is active on it; the order itself
    is not changed, so it stays active on a table that is AVAILABLE
    again. *)
Theorem createPayment_frees_table_of_unserved_order
    env u oid a m db order tid t pid rem db' :
  orders db !! oid = Some order ->
  OrderStatus.editable (status order) = true ->
  tableId order = Some tid ->
  tables db !! tid = Some t ->
  (forall k o, orders db !! k = Some o -> tableId o = Some tid ->
               OrderStatus.active (status o) = true -> k = oid) ->
  createPayment env u oid a m db = (PaymentCreated pid rem true, db') ->
  orders db' !! oid = Some order
  /\ OrderStatus.active (status order) = true
  /\ tables db' !! tid = Some (table_with_status AVAILABLE t).
Proof.
  intros Horder Heditable Htid Ht Hsole Hrun.
  apply activeOrders_zero in Hsole.
  destruct (createPayment_created _ _ _ _ _ _ _ _ _ _ Hrun)
    as (order' & Horder' & _ & _ & _ & _ & _ & _ & _ & Ho & Htables).
  assert (order' = order) as -> by congruence.
  split; [| split].
  - rewrite Ho. destruct (status order); try discriminate; exact Horder.
  - by destruct (status order).
  - rewrite (Htables tid t Htid Ht), Hsole. reflexivity.
Qed.

(** *** Refunds *)

Lemma refund_row_id id p : payment_id (refund_row id p) = payment_id p.
Proof. unfold refund_row. by destruct (payment_id p =? id)%nat. Qed.

Lemma refund_row_orderId id p :
  payment_orderId (refund_row id p) = payment_orderId p.
Proof. unfold refund_row. by destruct (payment_id p =? id)%nat. Qed.

Lemma find_refund_row id l :
  List.find (fun p => payment_id p =? id)%nat (List.map (refund_row id) l)
  = option_map (payment_with_status PAY_REFUNDED)
      (List.find (fun p => payment_id p =? id)%nat l).
Proof.
  induction l as [| x l IH]; [reflexivity |].
  cbn [List.map List.find]. rewrite refund_row_id.
  destruct (payment_id x =? id)%nat eqn:E; [| exact IH].
  unfold refund_row. by rewrite E.
Qed.

Lemma refund_row_absent id l :
  id ∉ List.map payment_id l -> List.map (refund_row id) l = l.
Proof.
  induction l as [| x l IH]; intros Hid; [reflexivity |].
  cbn [List.map] in *. apply not_elem_of_cons in Hid as [Hne Hid].
  rewrite (IH Hid). unfold refund_row.
  destruct (payment_id x =? id)%nat eqn:E; [| reflexivity].
  apply Nat.eqb_eq in E. congruence.
Qed.

Lemma filter_refund_row id k l :
  List.filter (fun p => payment_orderId p =? k)%nat
              (List.map (refund_row id) l)
  = List.map (refund_row id)
             (List.filter (fun p => payment_orderId p =? k)%nat l).
Proof.
  induction l as [| x l IH]; [reflexivity |].
  cbn [List.map List.filter]. rewrite refund_row_orderId.
  destruct (payment_orderId x =? k)%nat; [| exact IH].
  cbn [List.map]. by rewrite IH.
Qed.

(** The amounts of each status in a list whose row [id] was refunded. *)
Lemma refund_amounts id l p :
  NoDup (List.map payment_id l) ->
  List.find (fun p => payment_id p =? id)%nat l = Some p ->
  payment_status p = PAY_COMPLETED ->
  amount_with_status PAY_COMPLETED (List.map (refund_row id) l)
  == amount_with_status PAY_COMPLETED l - payment_amount p
  /\ amount_with_status PAY_REFUNDED (List.map (refund_row id) l)
     == amount_with_status PAY_REFUNDED l + payment_amount p.
Proof.
  induction l as [| x l IH]; intros Hdup Hfind Hstatus; [discriminate |].
  cbn [List.map List.find] in *. apply NoDup_cons in Hdup as [Hx Hdup].
  rewrite !amount_with_status_cons.
  destruct (payment_id x =? id)%nat eqn:E.
  - injection Hfind as ->. apply Nat.eqb_eq in E. rewrite E in Hx.
    rewrite (refund_row_absent id l Hx).
    unfold refund_row. rewrite <- E, Nat.eqb_refl.
    unfold has_status. cbn [payment_with_status payment_status payment_amount].
    rewrite Hstatus. split; ring.
  - destruct (IH Hdup Hfind Hstatus) as [-> ->].
    unfold refund_row at 1 2 3 4. rewrite E. split; ring.
Qed.

Lemma find_filter_orderId id k l p :
  List.find (fun p => payment_id p =? id)%nat l = Some p ->
  payment_orderId p = k ->
  List.find (fun p => payment_id p =? id)%nat
            (List.filter (fun p => payment_orderId p =? k)%nat l)
  = Some p.
Proof.
  induction l as [| x l IH]; intros Hfind Hk; [discriminate |].
  cbn [List.find List.filter] in *.
  destruct (payment_id x =? id)%nat eqn:E.
  - injection Hfind as ->. rewrite Hk, Nat.eqb_refl.
    cbn [List.find]. by rewrite E.
  - destruct (payment_orderId x =? k)%nat; [| by apply IH].
    cbn [List.find]. rewrite E. by apply IH.
Qed.

Lemma NoDup_filter_ids k l :
  NoDup (List.map payment_id l) ->
  NoDup (List.map payment_id
           (List.filter (fun p => payment_orderId p =? k)%nat l)).
Proof.
  induction l as [| x l IH]; intros Hdup; [exact Hdup |].
  cbn [List.map List.filter] in *. apply NoDup_cons in Hdup as [Hx Hdup].
  destruct (payment_orderId x =? k)%nat; [| by apply IH].
  cbn [List.map]. apply NoDup_cons. split; [| by apply IH].
  intros Hin. apply Hx.
  apply list_elem_of_fmap in Hin as (y & -> & Hy).
  apply list_elem_of_fmap. exists y. split; [reflexivity |].
  apply list_elem_of_In in Hy. apply List.filter_In in Hy as [Hy _].
  by apply list_elem_of_In.
Qed.

(** X12: a refund moves the payment's amount from the paid to the refunded
    amount of its order, touches no other order's payments, and cannot be
    repeated: a second refund of the same payment is refused, by whoever
    asks, and writes nothing. *)
Theorem refundPayment_moves_amount u id db db' :
  NoDup (List.map payment_id (payments db)) ->
  refundPayment u id db = (Refunded, db') ->
  exists p,
    List.find (fun p => payment_id p =? id)%nat (payments db) = Some p
    /\ payment_status p = PAY_COMPLETED
    /\ totalPaid (order_payments db' (payment_orderId p))
       == totalPaid (order_payments db (payment_orderId p))
          - payment_amount p
    /\ amount_with_status PAY_REFUNDED
         (order_payments db' (payment_orderId p))
       == amount_with_status PAY_REFUNDED
            (order_payments db (payment_orderId p))
          + payment_amount p
    /\ (forall k, k <> payment_orderId p ->
                  order_payments db' k = order_payments db k)
    /\ orders db' = orders db
    /\ (forall u', exists ans,
          refundPayment u' id db' = (ans, db')
          /\ (ans = CannotRefund PAY_REFUNDED
              \/ ans = RefundRefused NotAuthorized)).
Proof.
  intros Hdup. unfold refundPayment at 1.
  destruct (List.find _ (payments db)) as [p |] eqn:Hfind; [| discriminate].
  destruct (orders db !! payment_orderId p) as [order |] eqn:Horder;
    [| discriminate].
  destruct (foreign u (restaurantId order)); [discriminate |].
  destruct (payment_status p) eqn:Hstatus; try discriminate.
  intros [= <-]. exists p. split; [reflexivity |]. split; [exact Hstatus |].
  unfold totalPaid, order_payments. db_simpl.
  rewrite !filter_refund_row.
  destruct (refund_amounts id _ p (NoDup_filter_ids (payment_orderId p) _ Hdup)
              (find_filter_orderId id _ _ p Hfind eq_refl) Hstatus)
    as [Hpaid Hrefunded].
  split; [exact Hpaid |]. split; [exact Hrefunded |]. split; [| split].
  - intros k Hk. rewrite filter_refund_row. apply refund_row_absent.
    intros Hin. apply list_elem_of_fmap in Hin as (y & Hid & Hy).
    apply list_elem_of_In, List.filter_In in Hy as [Hy Hyk].
    apply Nat.eqb_eq in Hyk.
    assert (y = p); [| congruence].
    apply List.find_some in Hfind as [Hp Hpid]. apply Nat.eqb_eq in Hpid.
    clear -Hdup Hy Hp Hid Hpid.
    induction (payments db) as [| x l IH]; [destruct Hy |].
    cbn [List.map] in Hdup. apply NoDup_cons in Hdup as [Hx Hdup].
    destruct Hy as [-> | Hy], Hp as [<- | Hp]; try done.
    + exfalso. apply Hx, list_elem_of_fmap. exists p.
      split; [congruence | by apply list_elem_of_In].
    + exfalso. apply Hx, list_elem_of_fmap. exists y.
      split; [congruence | by apply list_elem_of_In].
    + by apply IH.
  - reflexivity.
  - intros u'. unfold refundPayment. db_simpl.
    rewrite find_refund_row, Hfind. cbn [option_map payment_with_status
      payment_orderId payment_status]. rewrite Horder.
    destruct (foreign u' (restaurantId order)); by eauto.
Qed.

End Payments.

Section PaymentExamples.

Local Open Scope Q_scope.

(** The served order 10 (total 32.40) is paid in full. *)
Lemma createPayment_within_total_witness :
  payments_within_total SampleUsers.db_served
  /\ payments_within_total
       (snd (createPayment Sample.env Sample.server 10%nat (324 # 10) CASH
                           SampleUsers.db_served)).
Proof.
  assert (Hok : payments_within_total SampleUsers.db_served).
  { intros oid o Ho.
    assert (Hpaid : order_payments SampleUsers.db_served oid = [])
      by reflexivity.
    rewrite Hpaid.
    destruct (decide (oid = 10%nat)) as [-> | Hne].
    - vm_compute in Ho. injection Ho as <-. vm_compute. discriminate.
    - exfalso. revert Ho.
      assert (Hmap : orders SampleUsers.db_served !! oid = None);
        [| by rewrite Hmap].
      apply not_elem_of_dom.
      assert (Hdom : dom (orders SampleUsers.db_served) = {[ 10%nat ]})
        by (vm_compute; reflexivity).
      rewrite Hdom. set_solver. }
  split; [exact Hok |].
  exact (createPayment_within_total _ _ _ _ _ _ Hok).
Defined.

(** The same payment, then the summary of order 10. *)
Lemma createPayment_then_summary_witness :
  exists s,
    getOrderPaymentSummary Sample.server 10%nat
      (snd (createPayment Sample.env Sample.server 10%nat (324 # 10) CASH
                          SampleUsers.db_served))
    = inr s
    /\ isFullyPaid s = true.
Proof.
  destruct (createPayment Sample.env Sample.server 10%nat (324 # 10) CASH
                          SampleUsers.db_served)
    as [ans db'] eqn:Hrun.
  destruct ans as [f | | | pid rem full];
    try (vm_compute in Hrun; discriminate).
  destruct (createPayment_then_summary _ _ _ _ _ _ _ _ _ _ Hrun)
    as (s & Hs & _ & _ & Hfull & _).
  exists s. split; [exact Hs |]. rewrite Hfull.
  vm_compute in Hrun. by injection Hrun as _ _ <- _.
Defined.

(** The same payment completes order 10, which was SERVED. *)
Lemma createPayment_completes_only_served_witness :
  exists o o',
    orders SampleUsers.db_served !! 10%nat = Some o
    /\ orders (snd (createPayment Sample.env Sample.server 10%nat (324 # 10)
                                  CASH SampleUsers.db_served)) !! 10%nat
       = Some o'
    /\ status o = OrderStatus.SERVED
    /\ status o' = OrderStatus.COMPLETED.
Proof.
  destruct (orders (snd (createPayment Sample.env Sample.server 10%nat
                           (324 # 10) CASH SampleUsers.db_served)) !! 10%nat)
    as [o' |] eqn:Hafter; [| vm_compute in Hafter; discriminate].
  destruct (createPayment_completes_only_served _ _ _ _ _ _ _ _ Hafter)
    as (o & Ho & Hcases).
  exists o, o'. split; [exact Ho |]. split; [reflexivity |].
  vm_compute in Hafter, Ho. injection Hafter as <-. injection Ho as <-.
  split; reflexivity.
Defined.

(** Order 10, one item at table 4 and still PENDING, is paid in full with
    10.80: the table is AVAILABLE again. *)
Lemma createPayment_frees_table_of_unserved_order_witness :
  exists pid rem db' order t,
    createPayment Sample.env Sample.server 10%nat (108 # 10) CASH
                  SampleUsers.db_seated
    = (PaymentCreated pid rem true, db')
    /\ orders db' !! 10%nat = Some order
    /\ status order = OrderStatus.PENDING
    /\ tableId order = Some 4%nat
    /\ tables db' !! 4%nat = Some t
    /\ table_status t = AVAILABLE.
Proof.
  destruct (orders SampleUsers.db_seated !! 10%nat) as [order |] eqn:Horder;
    [| vm_compute in Horder; discriminate].
  destruct (tables SampleUsers.db_seated !! 4%nat) as [t |] eqn:Ht;
    [| vm_compute in Ht; discriminate].
  destruct (createPayment Sample.env Sample.server 10%nat (108 # 10) CASH
                          SampleUsers.db_seated) as [ans db'] eqn:Hrun.
  assert (Hans : exists pid rem, ans = PaymentCreated pid rem true).
  { apply (f_equal fst) in Hrun. vm_compute in Hrun. subst ans. eauto. }
  destruct Hans as (pid & rem & ->).
  pose proof (fun Heditable Htid Hsole =>
                createPayment_frees_table_of_unserved_order
                  Sample.env Sample.server 10%nat (108 # 10) CASH
                  SampleUsers.db_seated order 4%nat t pid rem db'
                  Horder Heditable Htid Ht Hsole Hrun) as H.
  assert (Hdom : dom (orders SampleUsers.db_seated) = {[ 10%nat ]})
    by (vm_compute; reflexivity).
  vm_compute in Horder, Ht. injection Horder as <-. injection Ht as <-.
  destruct H as (Ho & _ & Htable); try reflexivity.
  - intros k o Hk _ _.
    assert (Hin : k ∈ dom (orders SampleUsers.db_seated))
      by (apply elem_of_dom; by eexists).
    rewrite Hdom in Hin. by apply elem_of_singleton in Hin.
  - eexists pid, rem, db', _, _. split; [reflexivity |].
    split; [exact Ho |]. split; [reflexivity |]. split; [reflexivity |].
    split; [exact Htable | reflexivity].
Defined.

(** Order 10 is paid in two parts; the first part is refunded. *)
Lemma refundPayment_moves_amount_witness :
  refundPayment Sample.manager 13%nat SampleUsers.db_paid
  = (Refunded, SampleUsers.db_refunded)
  /\ totalPaid (order_payments SampleUsers.db_paid 10%nat) == 324 # 10
  /\ totalPaid (order_payments SampleUsers.db_refunded 10%nat) == 124 # 10
  /\ refundPayment Sample.manager 13%nat SampleUsers.db_refunded
     = (CannotRefund PAY_REFUNDED, SampleUsers.db_refunded).
Proof.
  assert (Hrun : refundPayment Sample.manager 13%nat SampleUsers.db_paid
                 = (Refunded, SampleUsers.db_refunded))
    by (vm_compute; reflexivity).
  assert (Hdup : NoDup (List.map payment_id (payments SampleUsers.db_paid))).
  { apply (bool_decide_unpack _). by vm_compute. }
  destruct (refundPayment_moves_amount _ _ _ _ Hdup Hrun)
    as (p & Hfind & _ & Hpaid & _ & _ & _ & Hagain).
  vm_compute in Hfind. injection Hfind as <-.
  cbn [payment_orderId payment_amount] in Hpaid.
  assert (Hbefore : totalPaid (order_payments SampleUsers.db_paid 10%nat)
                    == 324 # 10)
    by (vm_compute; reflexivity).
  split; [exact Hrun |]. split; [exact Hbefore |].
  split; [rewrite Hpaid, Hbefore; reflexivity |].
  destruct (Hagain Sample.manager) as (ans & Hans & [-> | ->]);
    [exact Hans |].
  exfalso. vm_compute in Hans. discriminate.
Defined.

End PaymentExamples.

(** ** Applying and removing a voucher *)

Section VoucherEffects.

Local Open Scope Q_scope.

Lemma find_voucher_lookup db c rid vid v :
  find_voucher db c rid = Some (vid, v) -> vouchers db !! vid = Some v.
Proof.
  unfold find_voucher. intros Hfind.
  apply List.find_some in Hfind as [Hin _].
  apply list_elem_of_In in Hin. by apply elem_of_map_to_list in Hin.
Qed.

(** An accepted [applyVoucher]: the checks it passed and what it wrote. *)
Lemma applyVoucher_accepted env u c oid db d db' :
  applyVoucher env u c oid db = (inr d, db') ->
  exists order vid v r,
    orders db !! oid = Some order
    /\ foreign u (restaurantId order) = false
    /\ order_redemptions db oid = []
    /\ find_voucher db c (restaurantId order) = Some (vid, v)
    /\ isActive v = true
    /\ (startDate v <= applyVoucher_now <= expiryDate v)%Z
    /\ (forall limit, usageLimit v = Some limit -> (usageCount v < limit)%Z)
    /\ minPurchase v <= subtotal order
    /\ restaurants db !! restaurantId order = Some r
    /\ d = discountAmount v (subtotal order)
    /\ db' = voucher_applied u oid order vid v r db.
Proof.
  intros Hrun.
  refine (wp_run (applyVoucher env u c oid)
            (fun res db' =>
               forall d, res = inr d ->
                 exists order vid v r,
                   orders db !! oid = Some order
                   /\ foreign u (restaurantId order) = false
                   /\ order_redemptions db oid = []
                   /\ find_voucher db c (restaurantId order) = Some (vid, v)
                   /\ isActive v = true
                   /\ (startDate v <= applyVoucher_now <= expiryDate v)%Z
                   /\ (forall limit, usageLimit v = Some limit ->
                                     (usageCount v < limit)%Z)
                   /\ minPurchase v <= subtotal order
                   /\ restaurants db !! restaurantId order = Some r
                   /\ d = discountAmount v (subtotal order)
                   /\ db' = voucher_applied u oid order vid v r db)
            db (inr d) db' _ Hrun d eq_refl).
  clear. unfold applyVoucher, update_order, update_voucher, restaurant_taxRate.
  wp_steps; intros d' Hd; simplify_eq.
  match goal with
  | Hfind : find_voucher _ _ _ = Some _, Hrow : vouchers _ !! _ = Some _ |- _ =>
      pose proof (find_voucher_lookup _ _ _ _ _ Hfind); simplify_eq
  end.
  eexists _, _, _, _. split; [reflexivity |].
  repeat match goal with |- _ /\ _ => split end;
    try eassumption; try reflexivity.
  - by destruct (order_redemptions db oid).
  - by apply negb_false_iff.
  - by apply Z.ltb_ge.
  - by apply Z.ltb_ge.
  - intros limit Hlimit.
    match goal with
    | H : match usageLimit _ with _ => _ end = false |- _ =>
        rewrite Hlimit in H; by apply Z.leb_gt in H
    end.
  - match goal with
    | H : JS.gt _ _ = false |- _ =>
        by apply negb_false_iff, Qle_bool_iff in H
    end.
Qed.

(** *** Rounding amounts that are in cents *)

Lemma Math_round_integer (n : Z) : JS.Math_round (inject_Z n) = n.
Proof.
  unfold JS.Math_round.
  pose proof (Qfloor_le (inject_Z n + (1 # 2))) as Hle.
  pose proof (Qlt_floor (inject_Z n + (1 # 2))) as Hlt.
  revert Hle Hlt. generalize (Qfloor (inject_Z n + (1 # 2))). intros f.
  unfold Qle, Qlt, inject_Z, Qplus. simpl. lia.
Qed.

Lemma round2_comp x y : x == y -> JS.round2 x == JS.round2 y.
Proof.
  intros Hxy. unfold JS.round2, JS.Math_round.
  assert (Hf : Qfloor (x * 100 + (1 # 2)) = Qfloor (y * 100 + (1 # 2)))
    by (apply Qfloor_comp; rewrite Hxy; reflexivity).
  rewrite Hf. reflexivity.
Qed.

Lemma round2_in_cents x : in_cents x -> JS.round2 x == x.
Proof.
  intros [n Hn]. unfold JS.round2.
  assert (Hr : JS.Math_round (x * 100) = n).
  { rewrite <- (Math_round_integer n). unfold JS.Math_round.
    apply Qfloor_comp. rewrite Hn. field. }
  rewrite Hr, Hn. reflexivity.
Qed.

Lemma Math_min_l a b : a <= b -> JS.Math_min a b == a.
Proof.
  intros Hab. unfold JS.Math_min.
  destruct (Qle_bool a b) eqn:E; [reflexivity |].
  apply Qle_bool_iff in Hab. congruence.
Qed.

Lemma Math_max_r a b : a <= b -> JS.Math_max a b == b.
Proof.
  intros Hab. unfold JS.Math_max.
  destruct (Qle_bool a b) eqn:E; [reflexivity |].
  apply Qle_bool_iff in Hab. congruence.
Qed.

Lemma Math_max_nonneg b : 0 <= JS.Math_max 0 b.
Proof.
  unfold JS.Math_max. destruct (Qle_bool 0 b) eqn:E; [| lra].
  by apply Qle_bool_iff.
Qed.

(** The discount of a fixed-amount or free-item voucher whose value is in
    cents and does not exceed the subtotal is the value itself. *)
Lemma discountAmount_value v s :
  voucher_type v <> PERCENTAGE ->
  value v <= s ->
  in_cents (value v) ->
  discountAmount v s == value v.
Proof.
  intros Htype Hle Hcents. unfold discountAmount.
  destruct (voucher_type v); [done | |].
  - rewrite (round2_comp _ _ (Math_min_l _ _ Hle)).
    by apply round2_in_cents.
  - by apply round2_in_cents.
Qed.

(** The redemptions of an order that had none, after one was stored. *)
Lemma order_redemptions_first db rid red oid :
  order_redemptions db oid = [] ->
  vr_orderId red = oid ->
  map_to_list (filter (fun kv : Id * VoucherRedemption => vr_orderId kv.2 = oid)
                      (<[rid := red]> (voucherRedemptions db)))
  = [(rid, red)].
Proof.
  intros Hnone Hred. unfold order_redemptions in Hnone.
  apply map_to_list_empty_iff in Hnone.
  rewrite map_filter_insert_True by exact Hred.
  rewrite Hnone, insert_empty. apply map_to_list_singleton.
Qed.

Lemma order_redemptions_removed db rid red oid :
  order_redemptions db oid = [] ->
  map_to_list (filter (fun kv : Id * VoucherRedemption => vr_orderId kv.2 = oid)
                      (delete rid (<[rid := red]> (voucherRedemptions db))))
  = [].
Proof.
  intros Hnone. unfold order_redemptions in Hnone.
  apply map_to_list_empty_iff in Hnone.
  rewrite delete_insert_eq, map_filter_delete, Hnone, delete_empty.
  apply map_to_list_empty.
Qed.

Lemma voucher_usageCount_restored v :
  voucher_with_usageCount
    (usageCount (voucher_with_usageCount (usageCount v + 1) v) - 1)
    (voucher_with_usageCount (usageCount v + 1) v)
  = v.
Proof.
  destruct v. unfold voucher_with_usageCount. simpl. f_equal. lia.
Qed.

(** X13: a fixed-amount or free-item voucher whose value is an amount in
    cents not above the order's subtotal (itself in cents) can be applied
    and removed again without loss: [removeVoucher] succeeds, the order
    has its subtotal back, tax and total are those of that subtotal (the
    tip included), the voucher table is as before and the order has no
    redemption. *)
Theorem voucher_round_trip env u u' c oid db d db1 order vid v :
  orders db !! oid = Some order ->
  find_voucher db c (restaurantId order) = Some (vid, v) ->
  voucher_type v <> PERCENTAGE ->
  0 <= value v <= subtotal order ->
  in_cents (value v) ->
  in_cents (subtotal order) ->
  foreign u' (restaurantId order) = false ->
  applyVoucher env u c oid db = (inr d, db1) ->
  d == value v
  /\ exists db2 order2 r,
       removeVoucher u' oid db1 = (inr tt, db2)
       /\ orders db2 !! oid = Some order2
       /\ restaurants db !! restaurantId order = Some r
       /\ subtotal order2 == subtotal order
       /\ tax order2 == subtotal order * taxRate r / 100
       /\ total order2
          == subtotal order + subtotal order * taxRate r / 100
             + JS.or0 (tip order)
       /\ status order2 = status order
       /\ vouchers db2 = vouchers db
       /\ order_redemptions db2 oid = [].
Proof.
  intros Horder Hfind Htype [Hv0 Hvs] Hvc Hsc Hforeign Hrun.
  destruct (applyVoucher_accepted _ _ _ _ _ _ _ Hrun)
    as (order' & vid' & v' & r & Horder' & _ & Hnone & Hfind' & _ & _ & _ & _
        & Hr & -> & ->).
  simplify_eq.
  pose proof (discountAmount_value v (subtotal order) Htype Hvs Hvc) as Hd.
  split; [exact Hd |].
  pose proof (find_voucher_lookup _ _ _ _ _ Hfind) as Hv.
  set (ns := JS.Math_max 0 (subtotal order - discountAmount v (subtotal order))).
  assert (Hns : ns == subtotal order - value v).
  { unfold ns. rewrite Math_max_r; [by rewrite Hd |]. rewrite Hd. lra. }
  assert (Horig : JS.round2 (ns + value v) == subtotal order).
  { transitivity (JS.round2 (subtotal order));
      [apply round2_comp; rewrite Hns; ring | by apply round2_in_cents]. }
  eexists _, _, r.
  split.
  { unfold removeVoucher, voucher_applied, update_order, update_voucher,
      restaurant_taxRate, bind, get, reject_if, modify, ret, fail.
    db_simpl. rewrite lookup_insert_eq.
    cbn [order_with_totals restaurantId subtotal tip]. rewrite Hforeign.
    unfold order_redemptions. db_simpl.
    rewrite (order_redemptions_first db (nextId db)
               {| voucherId := vid; vr_orderId := oid;
                  vr_userId := user_id u |} oid Hnone eq_refl).
    cbn [voucherId]. rewrite lookup_insert_eq.
    unfold originalSubtotal.
    cbn [voucher_with_usageCount voucher_type value].
    destruct (voucher_type v) eqn:Hvt; [done | |].
    all: do 4 (db_simpl; rewrite ?Hr, ?lookup_insert_eq; cbv beta iota).
    all: reflexivity. }
  db_simpl. rewrite insert_insert_eq, lookup_insert_eq.
  split; [reflexivity |]. split; [exact Hr |].
  cbn [order_with_totals subtotal tax total tip status].
  fold ns. set (orig := JS.round2 (ns + value v)) in *.
  pose proof (taxRate_or0_eq r) as Hrate.
  repeat match goal with |- _ /\ _ => split end; try reflexivity.
  - exact Horig.
  - rewrite Hrate, Horig. reflexivity.
  - rewrite Hrate, Horig. reflexivity.
  - rewrite insert_insert_eq, voucher_usageCount_restored.
    by apply insert_id.
  - unfold order_redemptions. db_simpl.
    by apply order_redemptions_removed.
Qed.

(** X14: an order takes one voucher at a time.  Once [applyVoucher] has
    accepted a voucher for an order, every further [applyVoucher] for that
    order, with any code, by any user, at any time, is refused and writes
    nothing. *)
Theorem applyVoucher_once env u c oid db d db1 :
  applyVoucher env u c oid db = (inr d, db1) ->
  forall env' u' c', exists f,
    applyVoucher env' u' c' oid db1 = (inl f, db1)
    /\ (f = ValidationErrors \/ f = NotAuthorized
        \/ f = VoucherAlreadyApplied).
Proof.
  intros Hrun env' u' c'.
  destruct (applyVoucher_accepted _ _ _ _ _ _ _ Hrun)
    as (order & vid & v & r & Horder & _ & Hnone & _ & _ & _ & _ & _
        & _ & _ & ->).
  unfold applyVoucher, bind, get, reject_if, fail, ret.
  destruct (String.eqb c' ""); [by eauto |].
  unfold voucher_applied at 1 2. db_simpl. rewrite lookup_insert_eq.
  cbn [order_with_totals restaurantId].
  destruct (foreign u' (restaurantId order)); [by eauto 6 |].
  unfold order_redemptions, voucher_applied at 1. db_simpl.
  rewrite (order_redemptions_first db (nextId db)
             {| voucherId := vid; vr_orderId := oid;
                vr_userId := user_id u |} oid Hnone eq_refl).
  simpl. by eauto 6.
Qed.

Lemma usage_within_limit_frame db db' :
  usage_within_limit db -> vouchers db' = vouchers db ->
  usage_within_limit db'.
Proof. intros Hok Hv vid v limit. rewrite Hv. exact (Hok vid v limit). Qed.

Lemma usage_within_limit_insert db db' vid v' :
  usage_within_limit db ->
  vouchers db' = <[vid := v']> (vouchers db) ->
  (forall limit, usageLimit v' = Some limit -> (usageCount v' <= limit)%Z) ->
  usage_within_limit db'.
Proof.
  intros Hok Hv Hnew k v limit. rewrite Hv. intros Hk.
  destruct (decide (vid = k)) as [<- | Hne].
  - rewrite lookup_insert_eq in Hk. injection Hk as <-. apply Hnew.
  - rewrite lookup_insert_ne in Hk by done. exact (Hok k v limit Hk).
Qed.

(** X15: [applyVoucher] enforces the usage limit, and [removeVoucher] gives
    the use back: if no voucher is used beyond its limit before either
    request, none is after it. *)
Theorem voucher_usage_within_limit env u db :
  usage_within_limit db ->
  (forall c oid, usage_within_limit (exec (applyVoucher env u c oid) db))
  /\ (forall oid, usage_within_limit (exec (removeVoucher u oid) db)).
Proof.
  intros Hok. split.
  - intros c oid.
    change (wp (applyVoucher env u c oid)
              (fun _ db' => usage_within_limit db') db).
    unfold applyVoucher, update_order, update_voucher, restaurant_taxRate.
    wp_steps; simplify_eq; try done.
    all: try (by eapply usage_within_limit_frame; [exact Hok | reflexivity]).
    eapply usage_within_limit_insert; [exact Hok | reflexivity |].
    intros limit Hlimit. cbn [voucher_with_usageCount usageLimit usageCount]
      in *.
    match goal with
    | Hfind : find_voucher _ _ _ = Some _, Hrow : vouchers _ !! _ = Some _
      |- _ =>
        pose proof (find_voucher_lookup _ _ _ _ _ Hfind); simplify_eq
    end.
    match goal with
    | H : match usageLimit _ with _ => _ end = false |- _ =>
        rewrite Hlimit in H; apply Z.leb_gt in H
    end.
    lia.
  - intros oid.
    change (wp (removeVoucher u oid)
              (fun _ db' => usage_within_limit db') db).
    unfold removeVoucher, update_order, update_voucher, restaurant_taxRate.
    wp_steps; simplify_eq; try done.
    all: try (by eapply usage_within_limit_frame; [exact Hok | reflexivity]).
    eapply usage_within_limit_insert; [exact Hok | reflexivity |].
    intros limit Hlimit. cbn [voucher_with_usageCount usageLimit usageCount]
      in *.
    match goal with
    | Hrow : vouchers _ !! _ = Some _ |- _ =>
        pose proof (Hok _ _ _ Hrow Hlimit)
    end.
    lia.
Qed.

(** Rounding to cents moves an amount by at most half a cent, whichever
    way a tie goes. *)
Lemma round2_close x : Qabs (JS.round2 x - x) <= 1 # 200.
Proof.
  unfold JS.round2, JS.Math_round.
  pose proof (Qfloor_le (x * 100 + (1 # 2))) as Hle.
  pose proof (Qlt_floor (x * 100 + (1 # 2))) as Hlt.
  rewrite inject_Z_plus in Hlt.
  change (inject_Z 1) with 1 in Hlt.
  set (z := inject_Z (Qfloor (x * 100 + (1 # 2)))) in *.
  apply Qabs_Qle_condition. split; qlra.
Qed.

(** X16: what [validateVoucher] quotes and what [applyVoucher] then takes.
    For the voucher both find, a percentage or fixed-amount discount is
    quoted unrounded and taken rounded to cents, so the two differ by less
    than a cent; a free-item voucher is quoted with no discount, the total
    unchanged, and applied with its value, rounded to cents, as the
    discount. *)
Theorem validateVoucher_quote env env' u c oid db order da dt ru d db' :
  orders db !! oid = Some order ->
  user_restaurantId u = Some (restaurantId order) ->
  ~ subtotal order == 0 ->
  validateVoucher env u (Some c) (Some (subtotal order)) db
  = IsValid da dt ru ->
  applyVoucher env' u c oid db = (inr d, db') ->
  exists vid v,
    find_voucher db c (restaurantId order) = Some (vid, v)
    /\ match voucher_type v with
       | FREE_ITEM =>
           da = None /\ dt = Some (subtotal order - 0)
           /\ Qabs (d - value v) < 1 # 100
       | _ => exists q, da = Some q /\ dt = Some (subtotal order - q)
                        /\ Qabs (d - q) < 1 # 100
       end.
Proof.
  intros Horder Hu Hnz Hquote Hrun.
  destruct (applyVoucher_accepted _ _ _ _ _ _ _ Hrun)
    as (order' & vid & v & r & Horder' & _ & _ & Hfind & _ & _ & _ & _
        & _ & -> & _).
  simplify_eq. exists vid, v. split; [exact Hfind |].
  unfold validateVoucher in Hquote.
  assert (Hc : String.eqb c "" = false).
  { destruct (String.eqb c "") eqn:E; [| reflexivity].
    unfold applyVoucher, bind, reject_if, fail in Hrun.
    rewrite E in Hrun. discriminate. }
  rewrite Hc, Hu, Hfind in Hquote.
  assert (Ht : truthy (Some (subtotal order)) = Some (subtotal order)).
  { unfold truthy. destruct (Qeq_bool (subtotal order) 0) eqn:E;
      [| reflexivity].
    by apply Qeq_bool_iff in E. }
  rewrite Ht in Hquote.
  repeat match type of Hquote with
         | (if ?b then _ else _) = _ => destruct b; [discriminate |]
         end.
  assert (Hclose : forall x, Qabs (JS.round2 x - x) < 1 # 100).
  { intros x. eapply Qle_lt_trans; [apply round2_close | reflexivity]. }
  unfold discountAmount.
  destruct (voucher_type v); injection Hquote as <- <- _; eauto.
Qed.

End VoucherEffects.

Section VoucherExamples.

Local Open Scope Q_scope.

(** A voucher of 10.00 off is applied to order 10 (subtotal 30.00) and
    removed again. *)
Lemma voucher_round_trip_witness :
  order_satisfies (Sample.db_removed FIXED_AMOUNT 10) 10%nat
    (fun o => subtotal o == 30 /\ total o == 324 # 10)
  /\ vouchers (Sample.db_removed FIXED_AMOUNT 10)
     = vouchers (Sample.db_voucher FIXED_AMOUNT 10).
Proof.
  set (db := Sample.db_voucher FIXED_AMOUNT 10).
  destruct (orders db !! 10%nat) as [order |] eqn:Horder;
    [| vm_compute in Horder; discriminate].
  destruct (find_voucher db "SAVE" (restaurantId order)) as [[vid v] |]
    eqn:Hfind;
    [| vm_compute in Horder; injection Horder as <-;
       vm_compute in Hfind; discriminate].
  destruct (applyVoucher Sample.env Sample.server "SAVE" 10%nat db)
    as [[f | d] db1] eqn:Hrun; [vm_compute in Hrun; discriminate |].
  pose proof (voucher_round_trip Sample.env Sample.server Sample.manager
                "SAVE" 10%nat db d db1 order vid v Horder Hfind) as H.
  vm_compute in Horder. injection Horder as <-.
  vm_compute in Hfind. injection Hfind as <- <-.
  destruct H as (_ & db2 & order2 & r & Hrem & Ho2 & Hr & Hsub & _ & Htotal
                 & _ & Hv & _).
  - discriminate.
  - split; vm_compute; discriminate.
  - exists 1000%Z. reflexivity.
  - exists 3000%Z. reflexivity.
  - reflexivity.
  - exact Hrun.
  - assert (Hdb2 : Sample.db_removed FIXED_AMOUNT 10 = db2).
    { unfold Sample.db_removed, Sample.db_applied, exec. fold db.
      rewrite Hrun. simpl. by rewrite Hrem. }
    rewrite Hdb2. split; [| exact Hv].
    unfold order_satisfies. rewrite Ho2.
    vm_compute in Hr. injection Hr as <-.
    split; [exact Hsub |]. rewrite Htotal. reflexivity.
Defined.

(** A second voucher request for order 10, which already has one. *)
Lemma applyVoucher_once_witness :
  exists f,
    applyVoucher Sample.env Sample.manager "OTHER" 10%nat
                 (Sample.db_applied PERCENTAGE 10)
    = (inl f, Sample.db_applied PERCENTAGE 10).
Proof.
  destruct (applyVoucher Sample.env Sample.server "SAVE" 10%nat
                         (Sample.db_voucher PERCENTAGE 10))
    as [[f | d] db1] eqn:Hrun; [vm_compute in Hrun; discriminate |].
  assert (Hdb1 : Sample.db_applied PERCENTAGE 10 = db1)
    by (unfold Sample.db_applied, exec; by rewrite Hrun).
  rewrite Hdb1.
  destruct (applyVoucher_once _ _ _ _ _ _ _ Hrun Sample.env Sample.manager
              "OTHER") as (f & Hf & _).
  by exists f.
Defined.

(** The voucher "ONCE" may be used once; it is applied to order 10. *)
Lemma voucher_usage_within_limit_witness :
  usage_within_limit SampleUsers.db_once
  /\ usage_within_limit
       (exec (applyVoucher Sample.env Sample.server "ONCE" 10%nat)
             SampleUsers.db_once).
Proof.
  assert (Hok : usage_within_limit SampleUsers.db_once).
  { intros vid v limit Hv Hlimit.
    assert (Hdom : dom (vouchers SampleUsers.db_once) = {[ 13%nat ]})
      by (vm_compute; reflexivity).
    assert (Hin : vid ∈ dom (vouchers SampleUsers.db_once))
      by (apply elem_of_dom; by eexists).
    rewrite Hdom in Hin. apply elem_of_singleton in Hin as ->.
    vm_compute in Hv. injection Hv as <-.
    vm_compute in Hlimit. injection Hlimit as <-. vm_compute. discriminate. }
  split; [exact Hok |].
  exact (proj1 (voucher_usage_within_limit Sample.env Sample.server _ Hok)
           "ONCE"%string 10%nat).
Defined.

(** A free-item voucher of 5.00, quoted and applied in June 2025. *)
Lemma validateVoucher_quote_witness :
  validateVoucher SampleUsers.env_2025 Sample.server (Some "SAVE"%string)
                  (Some 30) (Sample.db_voucher FREE_ITEM 5)
  = IsValid None (Some (30 - 0)) None
  /\ match answer (applyVoucher SampleUsers.env_2025 Sample.server "SAVE"
                                10%nat)
                  (Sample.db_voucher FREE_ITEM 5) with
     | inr d => Qabs (d - 5) < 1 # 100
     | inl _ => False
     end.
Proof.
  set (db := Sample.db_voucher FREE_ITEM 5).
  destruct (orders db !! 10%nat) as [order |] eqn:Horder;
    [| vm_compute in Horder; discriminate].
  destruct (applyVoucher SampleUsers.env_2025 Sample.server "SAVE" 10%nat db)
    as [[f | d] db1] eqn:Hrun; [vm_compute in Hrun; discriminate |].
  destruct (validateVoucher SampleUsers.env_2025 Sample.server
              (Some "SAVE"%string) (Some (subtotal order)) db)
    as [| f | da dt ru] eqn:Hquote;
    [ vm_compute in Horder; injection Horder as <-;
      vm_compute in Hquote; discriminate ..
    | ].
  pose proof (validateVoucher_quote SampleUsers.env_2025
                SampleUsers.env_2025 Sample.server "SAVE" 10%nat db order
                da dt ru d db1 Horder) as H.
  vm_compute in Horder. injection Horder as <-.
  destruct (H eq_refl) as (vid & v & Hfind & Hcase);
    [vm_compute; discriminate | exact Hquote | exact Hrun |].
  - vm_compute in Hfind. injection Hfind as <- <-.
    cbn [voucher_type value] in Hcase. destruct Hcase as (-> & -> & Hd).
    unfold answer. rewrite Hrun. cbn [fst].
    split; [| exact Hd].
    vm_compute in Hquote. vm_compute. congruence.
Defined.

End VoucherExamples.

(** ** Gift card balances *)

Section GiftCardBalances.

Local Open Scope Q_scope.

Lemma balances_nonnegative_frame db db' :
  balances_nonnegative db -> giftCards db' = giftCards db ->
  balances_nonnegative db'.
Proof. intros Hok Hg gid g. rewrite Hg. exact (Hok gid g). Qed.

Lemma balances_nonnegative_insert db db' gid g' :
  balances_nonnegative db ->
  giftCards db' = <[gid := g']> (giftCards db) ->
  0 <= currentBalance g' ->
  balances_nonnegative db'.
Proof.
  intros Hok Hg Hnew k g. rewrite Hg. intros Hk.
  destruct (decide (gid = k)) as [<- | Hne].
  - rewrite lookup_insert_eq in Hk. by injection Hk as <-.
  - rewrite lookup_insert_ne in Hk by done. exact (Hok k g Hk).
Qed.

Ltac balances_leaf Hok :=
  first
    [ exact Hok
    | solve [eapply balances_nonnegative_frame; [exact Hok | reflexivity]]
    | eapply balances_nonnegative_insert; [exact Hok | reflexivity |];
      cbn [giftCard_with_balance currentBalance] ].

(** X17: no gift card handler leaves a negative balance: a card is issued
    with at least 1.00, a redemption is refused when it exceeds the
    balance, and funds are only added. *)
Theorem giftCard_balances_nonnegative env u db :
  balances_nonnegative db ->
  (forall req, balances_nonnegative (exec (createGiftCard env u req) db))
  /\ (forall c a oid,
        balances_nonnegative (exec (redeemGiftCard env u c a oid) db))
  /\ (forall id a notes,
        balances_nonnegative (exec (addFunds u id a notes) db))
  /\ (forall id a,
        balances_nonnegative (exec (updateGiftCardStatus u id a) db)).
Proof.
  intros Hok. split; [| split; [| split]].
  - intros req.
    change (wp (createGiftCard env u req)
              (fun _ db' => balances_nonnegative db') db).
    unfold createGiftCard, create_transaction.
    wp_steps; simplify_eq; try done; balances_leaf Hok.
    all: match goal with
         | H : negb (Qle_bool 1 _) = false |- _ =>
             apply negb_false_iff, Qle_bool_iff in H; lra
         end.
  - intros c a oid.
    change (wp (redeemGiftCard env u c a oid)
              (fun _ db' => balances_nonnegative db') db).
    unfold redeemGiftCard, create_transaction, update_giftCard.
    wp_steps; simplify_eq; try done; balances_leaf Hok.
    all: match goal with
         | Hfind : find_giftCard _ _ _ = Some _,
           Hlt : JS.lt _ _ = false |- _ =>
             apply find_giftCard_lookup in Hfind; simplify_eq;
             apply negb_false_iff, Qle_bool_iff in Hlt; lra
         end.
  - intros id a notes.
    change (wp (addFunds u id a notes)
              (fun _ db' => balances_nonnegative db') db).
    unfold addFunds, create_transaction, update_giftCard.
    wp_steps; simplify_eq; try done; balances_leaf Hok.
    all: match goal with
         | Hrow : giftCards _ !! _ = Some _,
           Hmin : negb (Qle_bool _ _) = false |- _ =>
             pose proof (Hok _ _ Hrow);
             apply negb_false_iff, Qle_bool_iff in Hmin; lra
         end.
  - intros id a.
    change (wp (updateGiftCardStatus u id a)
              (fun _ db' => balances_nonnegative db') db).
    unfold updateGiftCardStatus, create_transaction, update_giftCard.
    wp_steps; simplify_eq; try done; balances_leaf Hok.
    all: match goal with
         | Hrow : giftCards _ !! _ = Some _ |- _ => exact (Hok _ _ Hrow)
         end.
Qed.

(** A card of 50.00 is issued and 20.00 are redeemed. *)
Lemma giftCard_balances_nonnegative_witness :
  balances_nonnegative Sample.db0
  /\ balances_nonnegative
       (exec (redeemGiftCard Sample.env Sample.server "GC-1" 20 None)
             (exec (createGiftCard Sample.env Sample.manager
                                   (Sample.giftCard_req 50))
                   Sample.db0)).
Proof.
  assert (Hok : balances_nonnegative Sample.db0).
  { intros gid g Hg. vm_compute in Hg. discriminate. }
  split; [exact Hok |].
  pose proof (proj1 (giftCard_balances_nonnegative Sample.env Sample.manager
                       _ Hok) (Sample.giftCard_req 50)) as Hok1.
  exact (proj1 (proj2 (giftCard_balances_nonnegative Sample.env Sample.server
                         _ Hok1)) "GC-1"%string 20 None).
Defined.

Lemma wp_exists {A} (h : Handler A) r (P : Db -> Prop) db :
  wp h (fun r' db' => r' = r /\ P db') db ->
  exists db', h db = (r, db') /\ P db'.
Proof.
  unfold wp, answer, exec. destruct (h db) as [r' db']. simpl.
  intros [-> HP]. eauto.
Qed.

(** X18: a gift card redemption against an order records a COMPLETED
    payment of the redeemed amount for it without looking at the order:
    it is accepted whatever the order's status and however much of its
    total is already paid, and the order is not changed. *)
Theorem redeemGiftCard_pays_any_order env u c a oid db rid gid g order :
  user_restaurantId u = Some rid ->
  c <> ""%string ->
  1 # 100 <= a ->
  find_giftCard db c rid = Some (gid, g) ->
  gc_isActive g = true ->
  (forall e, gc_expiryDate g = Some e -> (clock env <= e)%Z) ->
  a <= currentBalance g ->
  orders db !! oid = Some order ->
  restaurantId order = rid ->
  exists db',
    redeemGiftCard env u c a (Some oid) db = (inr (currentBalance g - a), db')
    /\ totalPaid (order_payments db' oid)
       == totalPaid (order_payments db oid) + a
    /\ orders db' = orders db
    /\ giftCards db' !! gid
       = Some (giftCard_with_balance (currentBalance g - a)
                 (JS.gt (currentBalance g - a) 0) g).
Proof.
  intros Hu Hc Ha Hfind Hactive Hexpiry Hbalance Horder Hrid.
  pose proof (find_giftCard_lookup _ _ _ _ _ Hfind) as Hrow.
  apply String.eqb_neq in Hc. apply Qle_bool_iff in Ha, Hbalance.
  assert (Hexp : match gc_expiryDate g with
                 | Some e => (e <? clock env)%Z
                 | None => false
                 end = false).
  { destruct (gc_expiryDate g) as [e |]; [| reflexivity].
    apply Z.ltb_ge. by apply Hexpiry. }
  apply wp_exists.
  unfold redeemGiftCard, update_giftCard, create_transaction.
  wp_steps; simplify_eq.
  all: try (exfalso;
            match goal with H : _ = true |- _ => revert H end;
            rewrite ?Hc, ?Ha, ?Hactive, ?Hexp; unfold JS.lt;
            rewrite ?Hbalance, ?Nat.eqb_refl; simpl; discriminate).
  split; [reflexivity |].
  split; [| split; [reflexivity | by rewrite lookup_insert_eq]].
  unfold order_payments at 1. db_simpl.
  rewrite totalPaid_append by reflexivity.
  cbn [payment_amount payment_orderId]. case_decide; [reflexivity | done].
Qed.

(** 40.00 of the card are redeemed against order 10, whose total is
    32.40. *)
Lemma redeemGiftCard_pays_any_order_witness :
  exists db' o,
    redeemGiftCard Sample.env Sample.server "GC-1" 40 (Some 10%nat)
                   SampleUsers.db_card_order
    = (inr (50 - 40), db')
    /\ orders db' !! 10%nat = Some o
    /\ total o == 324 # 10
    /\ totalPaid (order_payments db' 10%nat) == 40.
Proof.
  set (db := SampleUsers.db_card_order).
  destruct (orders db !! 10%nat) as [order |] eqn:Horder;
    [| vm_compute in Horder; discriminate].
  destruct (find_giftCard db "GC-1" 0%nat) as [[gid g] |] eqn:Hfind;
    [| vm_compute in Hfind; discriminate].
  pose proof (fun Hc Ha => redeemGiftCard_pays_any_order Sample.env
                Sample.server "GC-1" 40 10%nat db 0%nat gid g order
                eq_refl Hc Ha Hfind) as H.
  vm_compute in Horder, Hfind. injection Horder as <-.
  injection Hfind as <- <-.
  destruct H as (db' & Hrun & Hpaid & Horders & _);
    [ discriminate | vm_compute; discriminate | reflexivity
    | intros e He; discriminate He | vm_compute; discriminate
    | vm_compute; reflexivity | reflexivity | ].
  exists db'. eexists. split; [exact Hrun |].
  rewrite Horders. split; [by vm_compute |].
  split; [by vm_compute |]. rewrite Hpaid. by vm_compute.
Defined.

End GiftCardBalances.

(** ** The order status the kitchen derives from the items *)

Section DerivedStatus.

Lemma allServed_true items :
  (forall k x, (k, x) ∈ items -> item_status x = ItemStatus.SERVED) ->
  allServed items = true.
Proof.
  intros Hall. unfold allServed. apply forallb_forall. intros [k x] Hin.
  apply list_elem_of_In in Hin. simpl. by rewrite (Hall k x Hin).
Qed.

Lemma allServed_false items k x :
  (k, x) ∈ items -> item_status x <> ItemStatus.SERVED ->
  allServed items = false.
Proof.
  intros Hin Hstatus. unfold allServed.
  destruct (forallb _ items) eqn:E; [| reflexivity].
  rewrite forallb_forall in E. apply list_elem_of_In in Hin.
  specialize (E _ Hin). simpl in E. by apply ItemStatus_eqb_eq in E.
Qed.

(** X19: a PREPARING order becomes READY as soon as the kitchen sets any
    of its items to any status other than SERVED, whether or not the items
    are ready: the condition [allReady && status === 'PENDING' ||
    status === 'PREPARING'] holds for every PREPARING order. *)
Theorem updateOrderItemStatus_makes_preparing_order_ready
    u iid s st db it order :
  orderItems db !! iid = Some it ->
  orders db !! orderId it = Some order ->
  foreign u (restaurantId order) = false ->
  status order = OrderStatus.PREPARING ->
  ItemStatus.of_string s = Some st ->
  st <> ItemStatus.SERVED ->
  answer (updateOrderItemStatus u iid s) db = inr tt
  /\ orderItems (exec (updateOrderItemStatus u iid s) db) !! iid
     = Some (item_with_status st it)
  /\ orders (exec (updateOrderItemStatus u iid s) db) !! orderId it
     = Some (order_with_status OrderStatus.READY None order).
Proof.
  intros Hit Horder Hforeign Hstatus Hs Hst.
  assert (Hderived :
    derived_order_status
      (order_items (set_orderItems (insert iid (item_with_status st it)) db)
                   (orderId it))
      (status order)
    = Some OrderStatus.READY).
  { unfold derived_order_status.
    rewrite (allServed_false _ iid (item_with_status st it)).
    - rewrite Hstatus. simpl. by rewrite orb_true_r.
    - apply order_items_elem. db_simpl. by rewrite lookup_insert_eq.
    - exact Hst. }
  change (wp (updateOrderItemStatus u iid s)
            (fun r db' =>
               r = inr tt
               /\ orderItems db' !! iid = Some (item_with_status st it)
               /\ orders db' !! orderId it
                  = Some (order_with_status OrderStatus.READY None order))
            db).
  unfold updateOrderItemStatus, update_order, update_orderItem.
  wp_steps; simplify_eq; try done; try congruence.
  all: rewrite ?lookup_insert_eq; done.
Qed.

(** X20: the handler does not look at whether the order is still open.
    When every other item of an order is SERVED and the kitchen sets the
    remaining one to SERVED, the order becomes SERVED whatever its status
    was, so a COMPLETED or CANCELLED order is active again. *)
Theorem updateOrderItemStatus_serves_closed_order u iid db it order :
  orderItems db !! iid = Some it ->
  orders db !! orderId it = Some order ->
  foreign u (restaurantId order) = false ->
  status order <> OrderStatus.SERVED ->
  (forall k x, orderItems db !! k = Some x -> orderId x = orderId it ->
               k <> iid -> item_status x = ItemStatus.SERVED) ->
  answer (updateOrderItemStatus u iid "SERVED") db = inr tt
  /\ orders (exec (updateOrderItemStatus u iid "SERVED") db) !! orderId it
     = Some (order_with_status OrderStatus.SERVED None order)
  /\ OrderStatus.active
       (status (order_with_status OrderStatus.SERVED None order)) = true.
Proof.
  intros Hit Horder Hforeign Hstatus Hothers.
  assert (Hderived :
    derived_order_status
      (order_items
         (set_orderItems
            (insert iid (item_with_status ItemStatus.SERVED it)) db)
         (orderId it))
      (status order)
    = Some OrderStatus.SERVED).
  { unfold derived_order_status. rewrite allServed_true.
    - destruct (OrderStatus.eqb (status order) OrderStatus.SERVED) eqn:E;
        [by apply OrderStatus_eqb_eq in E | reflexivity].
    - intros k x Hin. apply order_items_elem in Hin as [Hk Hown].
      db_simpl. destruct (decide (iid = k)) as [<- | Hne].
      + rewrite lookup_insert_eq in Hk. by injection Hk as <-.
      + rewrite lookup_insert_ne in Hk by done. by eapply Hothers. }
  change (wp (updateOrderItemStatus u iid "SERVED")
            (fun r db' =>
               r = inr tt
               /\ orders db' !! orderId it
                  = Some (order_with_status OrderStatus.SERVED None order)
               /\ OrderStatus.active
                    (status (order_with_status OrderStatus.SERVED None
                                               order)) = true)
            db).
  unfold updateOrderItemStatus, update_order, update_orderItem.
  change (ItemStatus.of_string "SERVED") with (Some ItemStatus.SERVED).
  wp_steps; simplify_eq; try done; try congruence.
  all: rewrite ?lookup_insert_eq; done.
Qed.

(** Order 10 is PREPARING with both items PREPARING; item 11 is set back
    to PENDING and the order becomes READY. *)
Lemma updateOrderItemStatus_makes_preparing_order_ready_witness :
  exists o it11 it12,
    orders (exec (updateOrderItemStatus Sample.server 11%nat "PENDING")
                 SampleUsers.db_preparing) !! 10%nat = Some o
    /\ status o = OrderStatus.READY
    /\ orderItems (exec (updateOrderItemStatus Sample.server 11%nat "PENDING")
                        SampleUsers.db_preparing) !! 11%nat = Some it11
    /\ item_status it11 = ItemStatus.PENDING
    /\ orderItems (exec (updateOrderItemStatus Sample.server 11%nat "PENDING")
                        SampleUsers.db_preparing) !! 12%nat = Some it12
    /\ item_status it12 = ItemStatus.PREPARING.
Proof.
  set (db := SampleUsers.db_preparing).
  destruct (orderItems db !! 11%nat) as [it |] eqn:Hit;
    [| vm_compute in Hit; discriminate].
  destruct (orders db !! 10%nat) as [order |] eqn:Horder;
    [| vm_compute in Horder; discriminate].
  assert (Hown : orderId it = 10%nat)
    by (vm_compute in Hit; by injection Hit as <-).
  rewrite <- Hown in Horder.
  pose proof (fun Hforeign Hstatus =>
                updateOrderItemStatus_makes_preparing_order_ready
                  Sample.server 11%nat "PENDING" ItemStatus.PENDING db it
                  order Hit Horder Hforeign Hstatus eq_refl) as H.
  rewrite Hown in Horder. vm_compute in Horder. injection Horder as <-.
  destruct H as (_ & Hitem & Ho); [reflexivity | reflexivity | discriminate |].
  rewrite Hown in Ho. eexists _, _, _.
  split; [exact Ho |]. split; [reflexivity |].
  split; [exact Hitem |]. split; [reflexivity |].
  split; by vm_compute.
Defined.

(** Order 10 is COMPLETED and item 11 was marked SERVED; marking item 12
    SERVED makes the order SERVED. *)
Lemma updateOrderItemStatus_serves_closed_order_witness :
  order_satisfies SampleUsers.db_one_served 10%nat
    (fun o => status o = OrderStatus.COMPLETED)
  /\ order_satisfies
       (exec (updateOrderItemStatus Sample.server 12%nat "SERVED")
             SampleUsers.db_one_served) 10%nat
       (fun o => status o = OrderStatus.SERVED).
Proof.
  set (db := SampleUsers.db_one_served).
  destruct (orderItems db !! 12%nat) as [it |] eqn:Hit;
    [| vm_compute in Hit; discriminate].
  destruct (orders db !! 10%nat) as [order |] eqn:Horder;
    [| vm_compute in Horder; discriminate].
  assert (Hown : orderId it = 10%nat)
    by (vm_compute in Hit; by injection Hit as <-).
  rewrite <- Hown in Horder.
  pose proof (fun Hforeign Hstatus =>
                updateOrderItemStatus_serves_closed_order
                  Sample.server 12%nat db it order Hit Horder Hforeign
                  Hstatus) as H.
  rewrite Hown in Horder, H. vm_compute in Horder. injection Horder as <-.
  destruct H as (_ & Ho & _); [reflexivity | discriminate | |].
  - intros k x Hk _ Hne.
    assert (Hdom : dom (orderItems db) = {[ 11%nat; 12%nat ]})
      by (vm_compute; reflexivity).
    assert (Hin : k ∈ dom (orderItems db))
      by (apply elem_of_dom; by eexists).
    rewrite Hdom in Hin.
    apply elem_of_union in Hin as [Hin | Hin];
      apply elem_of_singleton in Hin; [subst k | done].
    vm_compute in Hk. by injection Hk as <-.
  - split; [by vm_compute |].
    unfold order_satisfies. rewrite Ho. reflexivity.
Defined.

End DerivedStatus.

(** ** What a refused [createOrder] leaves behind *)

Section CreateOrderRefused.






End CreateOrderRefused.

(** ** Totals after items were added or removed *)

Section ItemTotals.

Local Open Scope Q_scope.

(** X22: when [addOrderItems] succeeds, the order was PENDING, PREPARING
    or READY; its new subtotal is the old one plus the line totals of the
    added items at catalogue prices, the tax is the restaurant's rate
    applied to the new subtotal, and the total is subtotal plus tax, with
    no tip in it whatever tip the order carries.  Status and tip are not
    changed. *)
Theorem addOrderItems_amounts u id items db db' :
  addOrderItems u id items db = (inr tt, db') ->
  exists order restaurant lines o,
    orders db !! id = Some order
    /\ OrderStatus.editable (status order) = true
    /\ restaurants db !! restaurantId order = Some restaurant
    /\ lines_of db items = Some lines
    /\ orders db' !! id = Some o
    /\ subtotal o == subtotal order + Spec.subtotal_of lines
    /\ tax o == subtotal o * taxRate restaurant / 100
    /\ total o == subtotal o + tax o
    /\ tip o = tip order
    /\ status o = status order.
Proof.
  intros Hrun.
  cut (wp (addOrderItems u id items)
          (fun r db' =>
             r = inr tt ->
             exists order restaurant lines o,
               orders db !! id = Some order
               /\ OrderStatus.editable (status order) = true
               /\ restaurants db !! restaurantId order = Some restaurant
               /\ lines_of db items = Some lines
               /\ orders db' !! id = Some o
               /\ subtotal o == subtotal order + Spec.subtotal_of lines
               /\ tax o == subtotal o * taxRate restaurant / 100
               /\ total o == subtotal o + tax o
               /\ tip o = tip order
               /\ status o = status order) db).
  { intros Hwp. exact (wp_run _ _ _ _ _ Hwp Hrun eq_refl). }
  clear Hrun db'.
  unfold addOrderItems, update_order, restaurant_taxRate.
  wp_steps; try (by intros [=]).
  all: apply wp_create_items; intros [? | []] its rows ? Hcreated;
    wp_steps; try (by intros [=]).
  all: intros _; simplify_eq.
  all: match goal with
       | Hprice : price_items _ _ _ _ _ = inr _ |- _ =>
           apply price_items_sum in Hprice as (lines & Hlines & Hq)
       end.
  all: match goal with
       | Ho : orders _ !! _ = Some ?o, Hr : restaurants _ !! _ = Some ?r
         |- _ =>
           exists o, r, lines; eexists;
           (split; [reflexivity |]);
           (split; [by apply negb_false_iff |]);
           (split; [exact Hr |]);
           (split; [exact Hlines |]);
           (split; [apply lookup_insert_eq |]);
           cbn [order_with_totals subtotal tax total tip status];
           (split; [rewrite Hq; ring |]);
           (split; [rewrite taxRate_or0_eq; unfold Qdiv; ring |]);
           done
       end.
Qed.

(** Item 3 (0.99) is added to order 10 (subtotal 30.00). *)
Lemma addOrderItems_amounts_witness :
  order_satisfies
    (exec (addOrderItems Sample.server 10%nat [Sample.item 3%nat 1%Z])
          Sample.db_order) 10%nat
    (fun o => subtotal o == 3099 # 100).
Proof.
  unfold exec.
  destruct (addOrderItems Sample.server 10%nat [Sample.item 3%nat 1%Z]
                          Sample.db_order) as [[f | []] db'] eqn:Hrun;
    [vm_compute in Hrun; discriminate |].
  destruct (addOrderItems_amounts _ _ _ _ _ Hrun)
    as (order & restaurant & lines & o & Horder & _ & _ & Hlines & Ho & Hsub
        & _).
  unfold order_satisfies. cbn [snd]. rewrite Ho, Hsub.
  vm_compute in Horder. injection Horder as <-.
  vm_compute in Hlines. injection Hlines as <-.
  by vm_compute.
Defined.

(** X23: when [removeOrderItem] succeeds, the order was PENDING and had at
    least two items; the item row is deleted with its modifier rows, the
    subtotal is lowered by the item's price with modifiers times its
    quantity, and tax and total are recomputed from the new subtotal. *)
Theorem removeOrderItem_amounts u oid iid db db' :
  removeOrderItem u oid iid db = (inr tt, db') ->
  exists order item restaurant o,
    orders db !! oid = Some order
    /\ status order = OrderStatus.PENDING
    /\ (2 <= length (order_items db oid))%nat
    /\ orderItems db !! iid = Some item
    /\ orderId item = oid
    /\ restaurants db !! restaurantId order = Some restaurant
    /\ orderItems db' = delete iid (orderItems db)
    /\ item_modifiers db' iid = []
    /\ orders db' !! oid = Some o
    /\ subtotal o
       == subtotal order - itemPrice db iid item * inject_Z (quantity item)
    /\ tax o == subtotal o * taxRate restaurant / 100
    /\ total o == subtotal o + tax o.
Proof.
  intros Hrun.
  cut (wp (removeOrderItem u oid iid)
          (fun r db' =>
             r = inr tt ->
             exists order item restaurant o,
               orders db !! oid = Some order
               /\ status order = OrderStatus.PENDING
               /\ (2 <= length (order_items db oid))%nat
               /\ orderItems db !! iid = Some item
               /\ orderId item = oid
               /\ restaurants db !! restaurantId order = Some restaurant
               /\ orderItems db' = delete iid (orderItems db)
               /\ item_modifiers db' iid = []
               /\ orders db' !! oid = Some o
               /\ subtotal o
                  == subtotal order
                     - itemPrice db iid item * inject_Z (quantity item)
               /\ tax o == subtotal o * taxRate restaurant / 100
               /\ total o == subtotal o + tax o) db).
  { intros Hwp. exact (wp_run _ _ _ _ _ Hwp Hrun eq_refl). }
  clear Hrun db'.
  unfold removeOrderItem, update_order, restaurant_taxRate.
  wp_steps; try (by intros [=]).
  intros _. simplify_eq.
  eexists _, _, _, _.
  split; [first [reflexivity | eassumption] |].
  split; [match goal with
          | H : negb (OrderStatus.eqb _ _) = false |- _ =>
              by apply negb_false_iff, OrderStatus_eqb_eq in H
          end |].
  split; [match goal with
          | H : (length _ <=? 1)%nat = false |- _ =>
              apply Nat.leb_gt in H; lia
          end |].
  split; [first [reflexivity | eassumption] |].
  split; [match goal with
          | H : negb (orderId _ =? _)%nat = false |- _ =>
              by apply negb_false_iff, Nat.eqb_eq in H
          end |].
  split; [first [reflexivity | eassumption] |].
  split; [reflexivity |].
  split.
  { unfold item_modifiers. db_simpl.
    induction (orderItemModifiers db) as [| row rows IH]; [reflexivity |].
    simpl. destruct (orderItemId row =? iid)%nat eqn:E; simpl; [exact IH |].
    by rewrite E. }
  split; [apply lookup_insert_eq |].
  cbn [order_with_totals subtotal tax total].
  split; [reflexivity |].
  split; [rewrite taxRate_or0_eq; unfold Qdiv; ring | reflexivity].
Qed.

(** Item 12 (2 x 5.00) is removed from order 10 (subtotal 30.00). *)
Lemma removeOrderItem_amounts_witness :
  order_satisfies
    (exec (removeOrderItem Sample.server 10%nat 12%nat) Sample.db_order)
    10%nat
    (fun o => subtotal o == 20)
  /\ orderItems (exec (removeOrderItem Sample.server 10%nat 12%nat)
                      Sample.db_order) !! 12%nat = None.
Proof.
  unfold exec.
  destruct (removeOrderItem Sample.server 10%nat 12%nat Sample.db_order)
    as [[f | []] db'] eqn:Hrun;
    [vm_compute in Hrun; discriminate |].
  destruct (removeOrderItem_amounts _ _ _ _ _ Hrun)
    as (order & item & restaurant & o & Horder & _ & _ & Hitem & _ & _
        & Hitems & _ & Ho & Hsub & _).
  unfold order_satisfies. cbn [snd]. rewrite Ho, Hsub, Hitems.
  split; [| apply lookup_delete_eq].
  vm_compute in Horder. injection Horder as <-.
  vm_compute in Hitem. injection Hitem as <-.
  by vm_compute.
Defined.

End ItemTotals.
